(** * ILQL training loop ([trlx/model/accelerate_ilql_model.py])

    A shallow embedding of the class [ILQLModel]: its constructor, [tokenize],
    [get_components] and the training loop [learn].

    The class is glue over third-party libraries (torch, accelerate,
    transformers, wandb).  Every call that leaves the file is recorded as an
    event of a trace, together with the answer the library gave; the
    libraries themselves are an arbitrary, possibly failing, stateful
    [handler].  What is verified is what the file itself decides: which calls
    are issued, in which order, with which arguments, and what happens to
    the answers. *)

From stdpp Require Import gmap strings list sorting.
From Stdlib Require Import ZArith QArith Lia.

Local Open Scope Z_scope.

(** ** Values owned by the libraries

    [obj] stands for a Python object whose content belongs to a library (a
    module, an optimizer, a tensor, a batch, a data loader ...); [float] for
    Python floats. *)
Class PyTypes := { obj : Type; float : Type }.

Section Model.
Context `{PyTypes}.

(** Exceptions.  The first four are raised by the Python interpreter while
    it evaluates this file ([%] and [/] by zero, a missing attribute, a call
    of [None], [int] of a malformed string); [LibraryError] is whatever a
    library raises. *)
Inductive exn :=
| ZeroDivisionError
| AttributeError (name : string)
| TypeError
| ValueError
| LibraryError (payload : obj).

Definition raised_by_interpreter (e : exn) : bool :=
  match e with LibraryError _ => false | _ => true end.

(** ** Configuration ([config.train] and [config.method]) *)

Record TrainConfig := {
  epochs : Z;
  eval_interval : Z;
  batch_size : Z;
  gen_size : Z;
  learning_rate_init : float;
  learning_rate_target : float;
  lr_ramp_steps : Z;
  lr_decay_steps : Z;
  project_name : string }.

Record MethodConfig := {
  steps_for_target_q_sync : Z;
  method_settings : obj }.

Record Config := { train : TrainConfig; method : MethodConfig }.

(** A tokenizer of the transformers library, with the attributes read here. *)
Record Tokenizer := {
  tok : obj;
  bos_token : string;
  eos_token : string;
  eos_token_id : Z }.

(** Module constants, computed once when the module is imported. *)
Record Globals := { WORLD_SIZE : Z; LOCAL_RANK : Z }.

(** Attributes that the base class and the training entry point attach to
    the object (their code is outside this file); they are taken as given. *)
Record Hooks := {
  train_store : obj;
  eval_pipeline : obj;
  reward_fn : obj;
  stats_fn : option obj }.

(** The attributes of an [ILQLModel].  [opt] and [scheduler] are [None] when
    the attribute was never assigned. *)
Record ILQLModel := {
  config : Config;
  train_mode : bool;
  hooks : Hooks;
  model : obj;
  max_length : Z;
  tokenizer : option Tokenizer;
  logit_mask : obj;
  accelerator : obj;
  opt : option obj;
  scheduler : option obj }.

(** ** Calls into the libraries

    One constructor per expression of the file that runs library code:
    constructors ([QVModel(...)], [Clock()]), methods, and the attributes
    [accelerator.is_main_process] and [model.beta], which are computed by
    the object that owns them.  A [for] loop over a data loader, and
    [zip(texts, rewards)] over a tensor, ask the library for the items:
    [iterate] answers with the finite list of them, and the loop body then
    runs once per item.  An object used as a condition ([if self.tokenizer],
    [if self.stats_fn]) counts as true when it is not [None]. *)

Inductive Call :=
(* constructor *)
| QVModel_new (gpt_config_or_path : obj) (m : MethodConfig)
| Accelerator_new (log_with : string)
| accelerator_print (acc : obj) (env : gmap string string)
| distributed_barrier (device_ids : list Z)
| manual_seed (seed : Z)
| is_main_process (acc : obj)
| init_trackers (acc : obj) (project : string) (config_dict : obj)
| model_parameters (mdl : obj)
| AdamW_new (params : obj) (lr : float)
| rampup_decay (ramp decay : Z) (ratio : float) (optimizer : obj)
(* tokenize *)
| tokenizer_call (tk : obj) (texts : list string) (max_len : Z)
    (truncation padding : bool) (return_tensors : string)
(* learn: set-up *)
| Clock_new
| create_train_loader (store : obj) (bsize : Z) (eos : Z)
| create_eval_loader (pipeline : obj) (bsize : Z) (shuffle : bool)
| accelerator_prepare (acc mdl optimizer train_loader eval_loader : obj)
| iterate (iterable : obj)
(* learn: evaluation *)
| model_eval (mdl : obj)
| model_train (mdl : obj)
| model_beta (mdl : obj)
| model_sample (mdl prompts beta : obj) (max_len : Z) (mask : obj)
| torch_vstack (tensors : list obj)
| accelerator_gather (acc tensor : obj)
| reward_fn_call (fn samples : obj)
| torch_tensor (data : obj)
| tensor_mean (tensor : obj)
| stats_fn_call (fn samples : obj)
| batch_decode (tk samples : obj) (skip_special_tokens : bool)
| wandb_Table (columns : list string) (rows : list (string * obj))
| print_str (s : string)
| print_obj (o : obj)
(* learn: optimisation *)
| model_loss (mdl batch : obj)
| accelerator_log (acc : obj) (logs : gmap string obj)
| accelerator_backward (acc loss : obj)
| opt_step (optimizer : obj)
| opt_zero_grad (optimizer : obj)
| scheduler_step (sched : obj)
| sync_target_q_heads (mdl : obj).

(** What each call answers when it does not raise. *)
Definition resp (c : Call) : Type :=
  match c with
  | QVModel_new _ _ | Accelerator_new _ | model_parameters _ | AdamW_new _ _
  | rampup_decay _ _ _ _ | tokenizer_call _ _ _ _ _ _
  | Clock_new | create_train_loader _ _ _ | create_eval_loader _ _ _
  | model_beta _ | torch_vstack _ | accelerator_gather _ _
  | reward_fn_call _ _ | torch_tensor _ | tensor_mean _
  | wandb_Table _ _ => obj
  | is_main_process _ => bool
  | accelerator_prepare _ _ _ _ _ => obj * obj * obj * obj
  | iterate _ => list obj
  | model_sample _ _ _ _ _ => obj * obj
  | stats_fn_call _ _ => gmap string obj
  | batch_decode _ _ _ => list string
  | model_loss _ _ => obj * gmap string obj
  | _ => unit
  end.

(** An event: the call, whether gradients were enabled when it was issued,
    and the answer. *)
Record Event := Ev {
  ev_grad : bool;
  ev_call : Call;
  ev_resp : exn + resp ev_call }.

Definition failed (ev : Event) : option exn :=
  match ev_resp ev with inl e => Some e | inr _ => None end.

(** ** The libraries

    [W] is the state of everything outside this file; [handler] answers a
    call and moves that state.  [fdiv] is float division ([None] for a zero
    divisor), [py_int] is [int] on strings ([None] for [ValueError]),
    [format_2f] renders a value under the format [:.2f], [to_dict] is
    [config.to_dict()] and [environ] is [os.environ]. *)
Class Externals := {
  W : Type;
  handler : ∀ c : Call, W → (exn + resp c) * W;
  fdiv : float → float → option float;
  py_int : string → option Z;
  format_2f : obj → string;
  to_dict : Config → obj;
  environ : gmap string string }.

Context `{Externals}.

(** ** The monad: ambient gradient mode, library state, errors, trace *)

Record Out (A : Type) := mkOut {
  res : exn + A;
  tr : list Event;
  world : W }.
Global Arguments mkOut {A} _ _ _.
Global Arguments res {A} _.
Global Arguments tr {A} _.
Global Arguments world {A} _.

Definition M (A : Type) : Type := bool → W → Out A.

Definition ret {A} (a : A) : M A := λ _ w, mkOut (inr a) [] w.

Definition raise {A} (e : exn) : M A := λ _ w, mkOut (inl e) [] w.

Definition bind {A B} (m : M A) (f : A → M B) : M B := λ g w,
  let o := m g w in
  match res o with
  | inl e => mkOut (inl e) (tr o) (world o)
  | inr a => let o' := f a g (world o) in
             mkOut (res o') (tr o ++ tr o') (world o')
  end.

Definition call (c : Call) : M (resp c) := λ g w,
  let r := handler c w in mkOut r.1 [Ev g c r.1] r.2.

(** [with torch.no_grad(): m]: the block runs with gradients disabled and
    the previous mode is back afterwards, however the block ends. *)
Definition with_no_grad {A} (m : M A) : M A := λ _ w, m false w.

Global Instance M_ret : MRet M := @ret.
Global Instance M_bind : MBind M := λ A B f m, bind m f.

(** [for x in l: s = f(s, x)] *)
Fixpoint foldM {S A} (f : S → A → M S) (l : list A) (s : S) : M S :=
  match l with
  | [] => ret s
  | x :: l' => s' ← f s x; foldM f l' s'
  end.

(** [a % b] on Python integers: floor modulo, [ZeroDivisionError] at 0. *)
Definition py_mod (a b : Z) : M Z :=
  if decide (b = 0) then raise ZeroDivisionError else ret (a `mod` b).

(** [a / b] on Python floats. *)
Definition py_truediv (a b : float) : M float :=
  match fdiv a b with Some r => ret r | None => raise ZeroDivisionError end.

(** Reading an attribute that may never have been assigned. *)
Definition getattr {A} (name : string) (o : option A) : M A :=
  match o with Some a => ret a | None => raise (AttributeError name) end.

(** [range(n)] *)
Definition range (n : Z) : list Z := Z.of_nat <$> seq 0 (Z.to_nat n).

(** Truth value of [os.environ.get(key)]: set, and not the empty string. *)
Definition env_flag (key : string) : bool :=
  match environ !! key with
  | Some s => negb (String.eqb s "")
  | None => false
  end.

(** [int(os.environ.get(key, default))] *)
Definition env_int (key : string) (default : Z) : exn + Z :=
  match environ !! key with
  | None => inr default
  | Some s => match py_int s with Some z => inr z | None => inl ValueError end
  end.

(** ** Module level: lines 20-21 *)
Definition import_globals : exn + Globals :=
  match env_int "WORLD_SIZE" 1 with
  | inl e => inl e
  | inr ws =>
      match env_int "LOCAL_RANK" 0 with
      | inl e => inl e
      | inr lr => inr {| WORLD_SIZE := ws; LOCAL_RANK := lr |}
      end
  end.

(** ** [ILQLModel.__init__]: lines 25-51

    [super().__init__(config, train_mode)] belongs to the base class, whose
    code is outside this file: it is taken to store its two arguments, which
    the rest of the class reads back as [self.config] and [self.train_mode]. *)
Definition __init__ (globals : Globals) (hks : Hooks) (cfg : Config)
    (gpt_config_or_path : obj) (tokenizer_arg : option Tokenizer)
    (logit_mask_arg : obj) (train_mode_arg : bool) : M ILQLModel :=
  mdl ← call (QVModel_new gpt_config_or_path (method cfg));
  acc ← call (Accelerator_new "wandb");
  call (accelerator_print acc environ);;
  (if decide (1 < WORLD_SIZE globals)
   then call (distributed_barrier [LOCAL_RANK globals])
   else call (manual_seed 1000));;
  main ← call (is_main_process acc);
  (if main : bool
   then call (init_trackers acc (project_name (train cfg)) (to_dict cfg))
   else ret ());;
  let self := {| config := cfg; train_mode := train_mode_arg; hooks := hks;
                 model := mdl; max_length := gen_size (train cfg);
                 tokenizer := tokenizer_arg; logit_mask := logit_mask_arg;
                 accelerator := acc; opt := None; scheduler := None |} in
  if train_mode_arg then
    params ← call (model_parameters mdl);
    o ← call (AdamW_new params (learning_rate_init (train cfg)));
    ratio ← py_truediv (learning_rate_target (train cfg))
                       (learning_rate_init (train cfg));
    s ← call (rampup_decay (lr_ramp_steps (train cfg))
                (lr_decay_steps (train cfg)) ratio o);
    ret {| config := cfg; train_mode := train_mode_arg; hooks := hks;
           model := mdl; max_length := gen_size (train cfg);
           tokenizer := tokenizer_arg; logit_mask := logit_mask_arg;
           accelerator := acc; opt := Some o; scheduler := Some s |}
  else ret self.

(** ** [ILQLModel.tokenize]: lines 53-60

    Without a tokenizer the list comprehension fails on its first element
    ([None] has no attribute [bos_token]); with no text at all it is the call
    of [None] that fails. *)
Definition tokenize (self : ILQLModel) (texts : list string) : M obj :=
  match tokenizer self with
  | Some t =>
      call (tokenizer_call (tok t)
              ((λ x, bos_token t +:+ x +:+ eos_token t) <$> texts)
              (max_length self) true true "pt")
  | None =>
      match texts with
      | [] => raise TypeError
      | _ :: _ => raise (AttributeError "bos_token")
      end
  end.

(** ** [ILQLModel.get_components]: lines 62-67 *)
Definition get_components (self : ILQLModel) : M (gmap string obj) :=
  if train_mode self then
    o ← getattr "opt" (opt self);
    s ← getattr "scheduler" (scheduler self);
    ret (<["model" := model self]> (<["opt" := o]> {["scheduler" := s]}))
  else ret {["model" := model self]}.

(** ** [ILQLModel.learn]: lines 69-137 *)

Definition newline : string := String (Ascii.ascii_of_nat 10) EmptyString.

(** [f'[{reward:.2f}] {text}'] *)
Definition debug_line (p : string * obj) : string :=
  "[" +:+ format_2f p.2 +:+ "] " +:+ p.1.

(** Lines 90-98: the body of the sampling loop; gradients are disabled
    while the arguments are evaluated and [sample] runs. *)
Definition sample_one (self : ILQLModel) (all_samples : list obj)
    (prompts : obj) : M (list obj) :=
  out ← with_no_grad
          (beta ← call (model_beta (model self));
           call (model_sample (model self) prompts beta
                   (gen_size (train (config self))) (logit_mask self)));
  ret (all_samples ++ [out.1]).

(** Lines 88-98: one sample per batch of prompts. *)
Definition sample_all (self : ILQLModel) (prompts_list : list obj)
  : M (list obj) :=
  foldM (sample_one self) prompts_list [].

(** Lines 103-120: what the main process does with the gathered samples. *)
Definition main_process_report (self : ILQLModel) (samples : obj)
    (logs : gmap string obj) : M (gmap string obj) :=
  rewards_list ← call (reward_fn_call (reward_fn (hooks self)) samples);
  rewards ← call (torch_tensor rewards_list);
  reward ← call (tensor_mean rewards);
  logs ← match stats_fn (hooks self) with
         | Some fn => eval_stats ← call (stats_fn_call fn samples);
                      ret (eval_stats ∪ logs)
         | None => ret logs
         end;
  logs ← match tokenizer self with
         | Some t =>
             texts ← call (batch_decode (tok t) samples true);
             reward_items ← call (iterate rewards);
             let pairs := zip texts reward_items in
             table ← call (wandb_Table ["samples"; "reward"] (take 16 pairs));
             (if env_flag "DEBUG"
              then call (print_str
                           (String.concat newline
                              (debug_line <$> take 10 pairs)))
              else ret ());;
             ret (<["samples" := table]> logs)
         | None =>
             (if env_flag "DEBUG"
              then call (print_obj samples) else ret ());;
             ret logs
         end;
  ret (<["reward" := reward]> logs).

(** Lines 86-122: one evaluation pass. *)
Definition evaluate (self : ILQLModel) (eval_dataloader : obj)
    (logs : gmap string obj) : M (gmap string obj) :=
  call (model_eval (model self));;
  prompts_list ← call (iterate eval_dataloader);
  all_samples ← sample_all self prompts_list;
  stacked ← call (torch_vstack all_samples);
  samples ← call (accelerator_gather (accelerator self) stacked);
  main ← call (is_main_process (accelerator self));
  logs ← (if main : bool then main_process_report self samples logs
          else ret logs);
  call (model_train (model self));;
  ret logs.

(** Lines 85-137: the body of the inner loop.  The loop state is the counter
    [opt_steps] and the dictionary [logs]. *)
Definition train_step (self : ILQLModel) (eval_dataloader : obj)
    (st : Z * gmap string obj) (batch : obj) : M (Z * gmap string obj) :=
  let opt_steps := st.1 in
  let logs := st.2 in
  r ← py_mod opt_steps (eval_interval (train (config self)));
  logs ← (if decide (r = 0) then evaluate self eval_dataloader logs
          else ret logs);
  out ← call (model_loss (model self) batch);
  r ← py_mod opt_steps (eval_interval (train (config self)));
  logs ← (if decide (r = 0)
          then let logs := out.2 ∪ logs in
               call (accelerator_log (accelerator self) logs);;
               ret logs
          else ret logs);
  call (accelerator_backward (accelerator self) out.1);;
  o ← getattr "opt" (opt self);
  call (opt_step o);;
  o ← getattr "opt" (opt self);
  call (opt_zero_grad o);;
  s ← getattr "scheduler" (scheduler self);
  call (scheduler_step s);;
  let opt_steps := opt_steps + 1 in
  r ← py_mod opt_steps (steps_for_target_q_sync (method (config self)));
  (if decide (r = 0) then call (sync_target_q_heads (model self))
   else ret ());;
  ret (opt_steps, logs).

(** Lines 82-84: one epoch; [logs] starts empty, [opt_steps] carries over. *)
Definition epoch_loop (self : ILQLModel) (train_dataloader eval_dataloader : obj)
    (opt_steps : Z) (epoch : Z) : M Z :=
  batches ← call (iterate train_dataloader);
  st ← foldM (train_step self eval_dataloader) batches (opt_steps, ∅);
  ret st.1.

(** The object after line 76: [self.model] and [self.opt] are reassigned to
    what [accelerator.prepare] returned. *)
Definition prepared (self : ILQLModel) (mdl o : obj) : ILQLModel :=
  {| config := config self; train_mode := train_mode self;
     hooks := hooks self; model := mdl; max_length := max_length self;
     tokenizer := tokenizer self; logit_mask := logit_mask self;
     accelerator := accelerator self; opt := Some o;
     scheduler := scheduler self |}.

(** The method returns nothing; the embedding returns the object as the
    method leaves it. *)
Definition learn (self : ILQLModel) : M ILQLModel :=
  timer ← call Clock_new;
  let eos := match tokenizer self with
             | Some t => eos_token_id t
             | None => 0
             end in
  train_dataloader ←
    call (create_train_loader (train_store (hooks self))
            (batch_size (train (config self))) eos);
  eval_dataloader ←
    call (create_eval_loader (eval_pipeline (hooks self))
            (batch_size (train (config self))) false);
  o ← getattr "opt" (opt self);
  p ← call (accelerator_prepare (accelerator self) (model self) o
              train_dataloader eval_dataloader);
  let self := prepared self p.1.1.1 p.1.1.2 in
  foldM (epoch_loop self p.1.2 p.2)
        (range (epochs (train (config self)))) 0;;
  ret self.

End Model.

(** ** Observing traces *)
Section Traces.
Context `{PT : PyTypes} `{EX : !Externals}.

Definition is_loss (c : Call) : bool :=
  match c with model_loss _ _ => true | _ => false end.
Definition is_opt_step (c : Call) : bool :=
  match c with opt_step _ => true | _ => false end.
Definition is_zero_grad (c : Call) : bool :=
  match c with opt_zero_grad _ => true | _ => false end.
Definition is_sched_step (c : Call) : bool :=
  match c with scheduler_step _ => true | _ => false end.
Definition is_sync (c : Call) : bool :=
  match c with sync_target_q_heads _ => true | _ => false end.
Definition is_log (c : Call) : bool :=
  match c with accelerator_log _ _ => true | _ => false end.
Definition is_model_train (c : Call) : bool :=
  match c with model_train _ => true | _ => false end.
Definition is_barrier (c : Call) : bool :=
  match c with distributed_barrier _ => true | _ => false end.
Definition is_print_obj (c : Call) : bool :=
  match c with print_obj _ => true | _ => false end.

(** Decoding samples to text, building a table of them, printing text. *)
Definition is_text_report (c : Call) : bool :=
  match c with
  | batch_decode _ _ _ | wandb_Table _ _ | print_str _ => true
  | _ => false
  end.

(** The calls an evaluation pass may issue. *)
Definition is_eval_call (c : Call) : bool :=
  match c with
  | model_eval _ | iterate _ | model_beta _ | model_sample _ _ _ _ _
  | torch_vstack _ | accelerator_gather _ _ | is_main_process _
  | reward_fn_call _ _ | torch_tensor _ | tensor_mean _ | stats_fn_call _ _
  | batch_decode _ _ _ | wandb_Table _ _ | print_str _ | print_obj _
  | model_train _ => true
  | _ => false
  end.

Definition succeeded (ev : Event) : bool :=
  match ev_resp ev with inr _ => true | inl _ => false end.

(** The call [p] was issued and returned. *)
Definition returned (p : Call → bool) (ev : Event) : bool :=
  p (ev_call ev) && succeeded ev.

(** How many calls [p] returned. *)
Definition count_returned (p : Call → bool) (t : list Event) : nat :=
  length (List.filter (returned p) t).

(** [opt_steps += 1] follows a [scheduler.step()] that returned: the value
    of the counter is the number of such events so far. *)
Definition opt_steps_of (t : list Event) : Z :=
  Z.of_nat (count_returned is_sched_step t).

(** The last event satisfies [p]. *)
Definition just_after (p : Event → bool) (t : list Event) : bool :=
  match reverse t with
  | ev :: _ => p ev
  | [] => false
  end.

(** The last two events satisfy [p] and [q], in this order. *)
Definition just_after2 (p q : Event → bool) (t : list Event) : bool :=
  match reverse t with
  | ev2 :: ev1 :: _ => p ev1 && q ev2
  | _ => false
  end.

(** The mode the last [model.eval()] or [model.train()] left the model in:
    [Some true] for training, [None] before any such call. *)
Definition mode_of (t : list Event) : option bool :=
  foldl (λ mode ev,
           match ev_call ev with
           | model_train _ => Some true
           | model_eval _ => Some false
           | _ => mode
           end) None t.

(** A property [φ past ev] of every event [ev] of a trace, given the events
    [past] before it. *)
Definition safe (φ : list Event → Event → Prop) (pre t : list Event) : Prop :=
  ∀ t1 ev t2, t = t1 ++ ev :: t2 → φ (pre ++ t1) ev.

(** [{P} m {Q}]: from a past satisfying [P], every event of [m] satisfies
    [φ], and when [m] returns [a] the extended past satisfies [Q a]. *)
Definition triple {A} (φ : list Event → Event → Prop)
    (P : list Event → Prop) (m : M A) (Q : A → list Event → Prop) : Prop :=
  ∀ pre g w, P pre →
    safe φ pre (tr (m g w)) ∧
    ∀ a, res (m g w) = inr a → Q a (pre ++ tr (m g w)).

(** [m] returns [a], having produced the events [t]. *)
Definition runs {A} (m : M A) (g : bool) (w : W) (a : A) (t : list Event)
    (w' : W) : Prop :=
  m g w = mkOut (inr a) t w'.

(** Every event that [m] may produce satisfies [C]. *)
Definition emits {A} (C : Event → Prop) (m : M A) : Prop :=
  ∀ g w ev, ev ∈ tr (m g w) → C ev.

(** How [m] ends: from a past satisfying [P], the extended past satisfies
    [Q a] when [m] returns [a], and [E] when [m] raises. *)
Definition leaves {A} (P : list Event → Prop) (m : M A)
    (Q : A → list Event → Prop) (E : list Event → Prop) : Prop :=
  ∀ pre g w, P pre →
    match res (m g w) with
    | inr a => Q a (pre ++ tr (m g w))
    | inl _ => E (pre ++ tr (m g w))
    end.

(** *** Evaluation passes *)

(** The events of lines 89-98 for the batches [ps], when every call
    returned: [outs] holds, per batch, the value of [beta] and what
    [sample] returned. *)
Definition sample_events (self : ILQLModel) (ps : list obj)
    (outs : list (obj * (obj * obj))) : list Event :=
  flat_map (λ po : obj * (obj * (obj * obj)),
              [Ev false (model_beta (model self)) (inr po.2.1);
               Ev false (model_sample (model self) po.1 po.2.1
                           (gen_size (train (config self)))
                           (logit_mask self)) (inr po.2.2)])
           (zip ps outs).

(** The events of a completed evaluation pass (lines 86-122): the batches
    [ps] of the evaluation loader, what was sampled for each, the stacked
    and the gathered tensor, whether this is the main process, and the
    events [report] of lines 103-120. *)
Definition pass_events (self : ILQLModel) (el : obj) (g : bool)
    (ps : list obj) (outs : list (obj * (obj * obj)))
    (stacked gathered : obj) (main : bool) (report : list Event)
  : list Event :=
  (Ev g (model_eval (model self)) (inr ())
   :: Ev g (iterate el) (inr ps)
   :: sample_events self ps outs
   ++ Ev g (torch_vstack ((λ x : obj * (obj * obj), x.2.1) <$> outs))
        (inr stacked)
   :: Ev g (accelerator_gather (accelerator self) stacked) (inr gathered)
   :: Ev g (is_main_process (accelerator self)) (inr main)
   :: report)
  ++ [Ev g (model_train (model self)) (inr ())].

(** The first events of [report] on the main process (lines 103-104). *)
Definition reward_events (self : ILQLModel) (g : bool)
    (gathered rewards_list rewards reward : obj) : list Event :=
  [Ev g (reward_fn_call (reward_fn (hooks self)) gathered) (inr rewards_list);
   Ev g (torch_tensor rewards_list) (inr rewards);
   Ev g (tensor_mean rewards) (inr reward)].

(** The events of lines 70-78 when every call returned: the two loaders
    are created, and [accelerator.prepare] answers [p] for the model, the
    optimizer and the loaders. *)
Definition setup_events (self : ILQLModel) (g : bool) (timer tl el o : obj)
    (p : obj * obj * obj * obj) : list Event :=
  [Ev g Clock_new (inr timer);
   Ev g (create_train_loader (train_store (hooks self))
           (batch_size (train (config self)))
           (match tokenizer self with
            | Some t => eos_token_id t
            | None => 0
            end)) (inr tl);
   Ev g (create_eval_loader (eval_pipeline (hooks self))
           (batch_size (train (config self))) false) (inr el);
   Ev g (accelerator_prepare (accelerator self) (model self) o tl el)
     (inr p)].

(** The run began with the set-up, in which [accelerator.prepare]
    answered [p]: from line 76 on, [self.model] is [p.1.1.1], [self.opt]
    is [p.1.1.2], [train_dataloader] is [p.1.2] and [eval_dataloader] is
    [p.2]. *)
Definition since_setup (self : ILQLModel) (p : obj * obj * obj * obj)
    (past : list Event) : Prop :=
  ∃ g timer tl el o rest,
    past = setup_events self g timer tl el o p ++ rest.

(** [pass] is the trace of a run of lines 86-122 that reached line 124. *)
Definition evaluation_pass (self : ILQLModel) (pass : list Event) : Prop :=
  ∃ mdl o el logs g w logs' w',
    runs (evaluate (prepared self mdl o) el logs) g w logs' pass w'.

(** [pass] is such a trace on the model and the evaluation loader of
    [p]. *)
Definition evaluation_pass_on (self : ILQLModel) (p : obj * obj * obj * obj)
    (pass : list Event) : Prop :=
  ∃ logs g w logs' w',
    runs (evaluate (prepared self p.1.1.1 p.1.1.2) p.2 logs) g w logs' pass
         w'.

Definition ends_with_pass (self : ILQLModel) (p : obj * obj * obj * obj)
    (t : list Event) : Prop :=
  ∃ t0 pass, t = t0 ++ pass ∧ evaluation_pass_on self p pass.

(** *** The properties of [learn] *)

(** When the loss of a batch is computed, the set-up has completed, and an
    evaluation pass on the prepared model and evaluation loader has just
    run if and only if the step counter is a multiple of
    [eval_interval]. *)
Definition eval_iff_due (self : ILQLModel) (past : list Event) (ev : Event)
  : Prop :=
  is_loss (ev_call ev) →
  ∃ p, since_setup self p past ∧
       (Z.divide (eval_interval (train (config self))) (opt_steps_of past) ↔
        ends_with_pass self p past).

(** The loss of a batch has just been computed and the step counter is a
    multiple of [eval_interval]. *)
Definition log_due (self : ILQLModel) (past : list Event) : Prop :=
  just_after (returned is_loss) past = true ∧
  Z.divide (eval_interval (train (config self))) (opt_steps_of past).

(** [accelerator.log] is called exactly at those points. *)
Definition log_iff_due (self : ILQLModel) (past : list Event) (ev : Event)
  : Prop :=
  is_log (ev_call ev) ↔ log_due self past.

(** An optimizer step has just been completed and its counter is a
    multiple of [steps_for_target_q_sync]. *)
Definition sync_due (self : ILQLModel) (past : list Event) : Prop :=
  just_after (returned is_sched_step) past = true ∧
  Z.divide (steps_for_target_q_sync (method (config self)))
           (opt_steps_of past).

(** [sync_target_q_heads] is called exactly at those points. *)
Definition sync_iff_due (self : ILQLModel) (past : list Event) (ev : Event)
  : Prop :=
  is_sync (ev_call ev) ↔ sync_due self past.

(** [scheduler.step()] is called on the scheduler of the object, right
    after [opt.step()], [opt.zero_grad()]; a returned [opt.step()] is
    followed by [opt.zero_grad()], which when it returns is followed by
    [scheduler.step()]. *)
Definition sched_follows_opt (self : ILQLModel) (past : list Event)
    (ev : Event) : Prop :=
  (∀ s, ev_call ev = scheduler_step s → scheduler self = Some s) ∧
  (is_sched_step (ev_call ev) →
   just_after2 (returned is_opt_step) (returned is_zero_grad) past = true) ∧
  (just_after (returned is_opt_step) past = true →
   is_zero_grad (ev_call ev)) ∧
  (just_after (returned is_zero_grad) past = true →
   is_sched_step (ev_call ev)).

(** The last event is neither an [opt.step()] nor an [opt.zero_grad()]
    that returned. *)
Definition between_steps (past : list Event) : Prop :=
  just_after (returned is_opt_step) past = false ∧
  just_after (returned is_zero_grad) past = false.

(** No optimizer step is left without its [scheduler.step()] call: the
    last event is not an [opt.step()] that returned, nor, if the object has
    a schedule, an [opt.zero_grad()] that returned. *)
Definition step_finished (self : ILQLModel) (past : list Event) : Prop :=
  just_after (returned is_opt_step) past = false ∧
  (is_Some (scheduler self) →
   just_after (returned is_zero_grad) past = false).

(** The loss is computed in training mode. *)
Definition loss_in_training_mode (past : list Event) (ev : Event) : Prop :=
  is_loss (ev_call ev) → mode_of past = Some true.

(** No text is decoded, tabulated or printed, and objects are printed only
    when [DEBUG] is set (and not empty). *)
Definition no_text_report (ev : Event) : Prop :=
  is_text_report (ev_call ev) = false ∧
  (is_print_obj (ev_call ev) →
   env_flag "DEBUG" = true ∧ is_Some (environ !! "DEBUG")).

(** The training loader is created with [eos_token_id] 0. *)
Definition loader_eos_zero (ev : Event) : Prop :=
  ∀ store bsize eos,
    ev_call ev = create_train_loader store bsize eos → eos = 0.

(** *** Errors *)

(** How a run may end: if it returns, every call returned; if it raises
    [e], every call returned but possibly the last, and [e] is what that
    last call raised, or else an error of the interpreter. *)
Definition propagates {A} (o : Out A) : Prop :=
  match res o with
  | inr _ => Forall (λ ev, succeeded ev) (tr o)
  | inl e =>
      (∃ t ev, tr o = t ++ [ev] ∧ Forall (λ ev, succeeded ev) t ∧
               failed ev = Some e) ∨
      (raised_by_interpreter e ∧ Forall (λ ev, succeeded ev) (tr o))
  end.

(** Every run of [m] ends as [propagates] says. *)
Definition faithful {A} (m : M A) : Prop := ∀ g w, propagates (m g w).

(** A failed call is the last event of the run, which raises what the call
    raised. *)
Definition stops_at_failure {A} (o : Out A) : Prop :=
  ∀ ev e, ev ∈ tr o → failed ev = Some e →
          res o = inl e ∧ last (tr o) = Some ev.

(** *** The constructor *)

(** The calls the constructor may issue. *)
Definition is_init_call (c : Call) : bool :=
  match c with
  | QVModel_new _ _ | Accelerator_new _ | accelerator_print _ _
  | distributed_barrier _ | manual_seed _ | is_main_process _
  | init_trackers _ _ _ | model_parameters _ | AdamW_new _ _
  | rampup_decay _ _ _ _ => true
  | _ => false
  end.

(** The barrier calls of a trace. *)
Definition barriers (t : list Event) : list Call :=
  List.filter is_barrier (ev_call <$> t).

(** The events of lines 28-42. *)
Definition init_head (globals : Globals) (cfg : Config)
    (gpt_config_or_path : obj) (g : bool) (mdl acc : obj) (main : bool)
  : list Event :=
  [Ev g (QVModel_new gpt_config_or_path (method cfg)) (inr mdl);
   Ev g (Accelerator_new "wandb") (inr acc);
   Ev g (accelerator_print acc environ) (inr ());
   (if decide (1 < WORLD_SIZE globals)
    then Ev g (distributed_barrier [LOCAL_RANK globals]) (inr ())
    else Ev g (manual_seed 1000) (inr ()));
   Ev g (is_main_process acc) (inr main)] ++
  (if main
   then [Ev g (init_trackers acc (project_name (train cfg)) (to_dict cfg))
           (inr ())]
   else []).

(** The events of lines 45-51. *)
Definition init_optimizer (cfg : Config) (g : bool)
    (mdl params o : obj) (ratio : float) (s : obj) : list Event :=
  [Ev g (model_parameters mdl) (inr params);
   Ev g (AdamW_new params (learning_rate_init (train cfg))) (inr o);
   Ev g (rampup_decay (lr_ramp_steps (train cfg)) (lr_decay_steps (train cfg))
           ratio o) (inr s)].

(** *** What the proofs know of the past at the points of the loop

    Each property of [learn] is an invariant of its loop; these are the
    assertions that hold at the start of an iteration of counter [n] and
    between its calls. *)

(** The counter, and no evaluation pass has just ended. *)
Definition at_step (n : Z) (past : list Event) : Prop :=
  opt_steps_of past = n ∧ just_after (returned is_model_train) past = false.

(** The same after the set-up that answered [p]. *)
Definition at_step_on (self : ILQLModel) (p : obj * obj * obj * obj) (n : Z)
    (past : list Event) : Prop :=
  since_setup self p past ∧ at_step n past.

(** The counter, and an evaluation pass has just ended exactly if it was
    due. *)
Definition at_loss (self : ILQLModel) (p : obj * obj * obj * obj) (n : Z)
    (past : list Event) : Prop :=
  since_setup self p past ∧ opt_steps_of past = n ∧
  (Z.divide (eval_interval (train (config self))) n ↔
   ends_with_pass self p past).

(** The counter, and no statistics are waiting to be sent. *)
Definition no_log_due (self : ILQLModel) (n : Z) (past : list Event)
  : Prop :=
  opt_steps_of past = n ∧
  (just_after (returned is_loss) past = true →
   ¬ Z.divide (eval_interval (train (config self))) n).

(** The loss has just been computed in the iteration of counter [n]. *)
Definition loss_computed (n : Z) (past : list Event) : Prop :=
  opt_steps_of past = n ∧ just_after (returned is_loss) past = true.

(** The counter, and no synchronisation is pending. *)
Definition no_sync_due (self : ILQLModel) (n : Z) (past : list Event)
  : Prop :=
  opt_steps_of past = n ∧
  (just_after (returned is_sched_step) past = true →
   ¬ Z.divide (steps_for_target_q_sync (method (config self))) n).

(** [scheduler.step()] has just returned in the iteration of counter [n]. *)
Definition step_completed (n : Z) (past : list Event) : Prop :=
  opt_steps_of past = n + 1 ∧
  just_after (returned is_sched_step) past = true.

Definition is_mode_switch (c : Call) : bool :=
  match c with model_train _ | model_eval _ => true | _ => false end.

(** The model is in training mode. *)
Definition training (_ : Z) (past : list Event) : Prop :=
  mode_of past = Some true.

(** The model is in training mode, unless no iteration has run yet. *)
Definition training_from_first (n : Z) (past : list Event) : Prop :=
  n = 0 ∨ mode_of past = Some true.

(** Between optimizer steps: as many [scheduler.step()] as [opt.step()]
    have returned, and the last event is neither [opt.step()] nor
    [opt.zero_grad()]. *)
Definition idle (_ : Z) (past : list Event) : Prop :=
  just_after (returned is_opt_step) past = false ∧
  just_after (returned is_zero_grad) past = false ∧
  count_returned is_opt_step past = count_returned is_sched_step past.

(** [opt.step()] has just returned. *)
Definition stepped (_ : Z) (past : list Event) : Prop :=
  just_after (returned is_opt_step) past = true ∧
  count_returned is_opt_step past = S (count_returned is_sched_step past).

(** [opt.step()], then [opt.zero_grad()] have just returned. *)
Definition zeroed (_ : Z) (past : list Event) : Prop :=
  just_after2 (returned is_opt_step) (returned is_zero_grad) past = true ∧
  count_returned is_opt_step past = S (count_returned is_sched_step past).

End Traces.

(** ** A concrete world, used to run the definitions

    Objects are numbers, floats are rationals.  The library state is the
    number of calls answered so far, which also serves as the identity of
    the next fresh object; the call numbered [fail_at] (if any) raises. *)
Module Demo.

#[export] Instance demo_types : PyTypes := {| obj := nat; float := Q |}.

Definition answer (fail_at : option nat) (c : Call) (w : nat)
  : (exn + resp c) * nat :=
  if decide (fail_at = Some w) then (inl (LibraryError w), S w) else
  (match c return exn + resp c with
   | is_main_process _ => inr true
   | accelerator_prepare _ m o tl el => inr (m, o, tl, el)
   | iterate x => inr [x * 10 + 1; x * 10 + 2]%nat
   | model_sample _ _ _ _ _ => inr (w, 0%nat)
   | stats_fn_call _ _ => inr {["kl" := w]}
   | batch_decode _ _ _ => inr ["first"; "second"]
   | model_loss _ _ => inr (w, {["loss" := w]})
   | QVModel_new _ _ | Accelerator_new _ | model_parameters _ | AdamW_new _ _
   | rampup_decay _ _ _ _ | tokenizer_call _ _ _ _ _ _
   | Clock_new | create_train_loader _ _ _ | create_eval_loader _ _ _
   | model_beta _ | torch_vstack _ | accelerator_gather _ _
   | reward_fn_call _ _ | torch_tensor _ | tensor_mean _
   | wandb_Table _ _ => inr w
   | _ => inr ()
   end, S w).

Definition demo_environ : gmap string string :=
  <["DEBUG" := "1"]> {["WORLD_SIZE" := "2"]}.

Definition demo_int (s : string) : option Z :=
  if String.eqb s "2" then Some 2 else None.

Definition demo_world (fail_at : option nat) : Externals :=
  {| W := nat;
     handler := answer fail_at;
     fdiv := λ a b, if Qeq_bool b 0 then None else Some (Qdiv a b);
     py_int := demo_int;
     format_2f := λ _, "0.00";
     to_dict := λ _, 0%nat;
     environ := demo_environ |}.

Definition demo_train : TrainConfig :=
  {| epochs := 2; eval_interval := 3; batch_size := 8; gen_size := 32;
     learning_rate_init := Qmake 1 1000; learning_rate_target := Qmake 1 10000;
     lr_ramp_steps := 10; lr_decay_steps := 100; project_name := "demo" |}.

Definition demo_config : Config :=
  {| train := demo_train;
     method := {| steps_for_target_q_sync := 2; method_settings := 0%nat |} |}.

Definition demo_hooks : Hooks :=
  {| train_store := 1%nat; eval_pipeline := 2%nat; reward_fn := 3%nat;
     stats_fn := Some 4%nat |}.

Definition demo_tokenizer : Tokenizer :=
  {| tok := 5%nat; bos_token := "<s>"; eos_token := "</s>";
     eos_token_id := 50256 |}.

Definition demo_globals : Globals := {| WORLD_SIZE := 2; LOCAL_RANK := 0 |}.

(** The object a successful constructor call leaves, and a run of [learn]
    on it. *)
Definition demo_init (fail_at : option nat) (tk : option Tokenizer)
    (train_mode_arg : bool) : @Out _ (demo_world fail_at) ILQLModel :=
  @__init__ _ (demo_world fail_at) demo_globals demo_hooks demo_config
    6%nat tk 7%nat train_mode_arg true 100%nat.

Definition demo_self (tk : option Tokenizer) : ILQLModel :=
  {| config := demo_config; train_mode := true; hooks := demo_hooks;
     model := 100%nat; max_length := 32; tokenizer := tk;
     logit_mask := 7%nat; accelerator := 101%nat;
     opt := Some 107%nat; scheduler := Some 108%nat |}.

Definition demo_learn (fail_at : option nat) (tk : option Tokenizer)
  : @Out _ (demo_world fail_at) ILQLModel :=
  @learn _ (demo_world fail_at) (demo_self tk) true 200%nat.

(** The world in which no call raises. *)
#[export] Instance demo_externals : Externals := demo_world None.

(** An object with a tokenizer, its construction and its training run. *)
Definition built : ILQLModel := demo_self (Some demo_tokenizer).
Definition init_out : Out ILQLModel :=
  demo_init None (Some demo_tokenizer) true.
Definition run_trace : list Event :=
  tr (demo_learn None (Some demo_tokenizer)).

(** An object without a tokenizer and its training run. *)
Definition plain : ILQLModel := demo_self None.
Definition plain_trace : list Event := tr (demo_learn None None).

(** One evaluation pass, and the dictionary it leaves. *)
Definition eval_out : Out (gmap string obj) :=
  evaluate built 201%nat ∅ true 300%nat.
Definition eval_logs : gmap string obj :=
  match res eval_out with inr logs => logs | inl _ => ∅ end.

(** A training run in which the call numbered 230 raises. *)
Definition failing_world : Externals := demo_world (Some 230%nat).
Definition failing_run : @Out _ failing_world ILQLModel :=
  demo_learn (Some 230%nat) None.

End Demo.

(** ** Further observations of a run *)
Section Observed.
Context `{PT : PyTypes} `{EX : !Externals}.

Definition is_setup_call (c : Call) : bool :=
  match c with
  | Clock_new | create_train_loader _ _ _ | create_eval_loader _ _ _
  | accelerator_prepare _ _ _ _ _ => true
  | _ => false
  end.
Definition is_prepare (c : Call) : bool :=
  match c with accelerator_prepare _ _ _ _ _ => true | _ => false end.
Definition is_iterate (c : Call) : bool :=
  match c with iterate _ => true | _ => false end.
Definition is_backward (c : Call) : bool :=
  match c with accelerator_backward _ _ => true | _ => false end.
Definition is_model_eval (c : Call) : bool :=
  match c with model_eval _ => true | _ => false end.
Definition is_sampling (c : Call) : bool :=
  match c with model_beta _ | model_sample _ _ _ _ _ => true | _ => false end.
Definition is_print (c : Call) : bool :=
  match c with print_str _ | print_obj _ => true | _ => false end.
Definition is_AdamW (c : Call) : bool :=
  match c with AdamW_new _ _ => true | _ => false end.
Definition is_rampup_decay (c : Call) : bool :=
  match c with rampup_decay _ _ _ _ => true | _ => false end.
Definition is_optimizer_call (c : Call) : bool :=
  match c with
  | model_parameters _ | AdamW_new _ _ | rampup_decay _ _ _ _ => true
  | _ => false
  end.

(** Lines 80-137, on what [accelerator.prepare] answered. *)
Definition epochs_loop (self : ILQLModel) (p : obj * obj * obj * obj)
  : M Z :=
  foldM (epoch_loop (prepared self p.1.1.1 p.1.1.2) p.1.2 p.2)
        (range (epochs (train (config self)))) 0.

(** The batches that a returned [iterate] answered. *)
Definition iterate_answer (ev : Event) : option (list obj) :=
  match ev_call ev as c return exn + resp c → option (list obj) with
  | iterate _ => λ r, match r with inr l => Some l | inl _ => None end
  | _ => λ _, None
  end (ev_resp ev).

(** Every event that [m] may produce under the gradient mode [g]
    satisfies [C g]. *)
Definition emits_under {A} (C : bool → Event → Prop) (m : M A) : Prop :=
  ∀ g w ev, ev ∈ tr (m g w) → C g ev.

(** Gradients are disabled for sampling, and for nothing else. *)
Definition grad_as_called (g : bool) (ev : Event) : Prop :=
  ev_grad ev = if is_sampling (ev_call ev) then false else g.

(** What is tabulated and printed: the table has the columns [samples] and
    [reward] and at most 16 rows; decoding, tabulating and printing text
    need a tokenizer, and printing needs [DEBUG]. *)
Definition bounded_report (self : ILQLModel) (ev : Event) : Prop :=
  (∀ columns rows, ev_call ev = wandb_Table columns rows →
     columns = ["samples"; "reward"] ∧ (length rows ≤ 16)%nat) ∧
  (is_print (ev_call ev) → env_flag "DEBUG" = true) ∧
  (is_text_report (ev_call ev) → is_Some (tokenizer self)).

(** The last two calls decoded samples to [texts] and listed the items
    of the tensor of rewards: [pairs] is [list(zip(texts, rewards))]. *)
Definition decoded_pairs (past : list Event) (pairs : list (string * obj))
  : Prop :=
  ∃ past0 g1 g2 tk samples rewards (texts : list string) (items : list obj),
    past = past0 ++ [Ev g1 (batch_decode tk samples true) (inr texts);
                     Ev g2 (iterate rewards) (inr items)] ∧
    pairs = zip texts items.

(** The rows of a table are the first 16 of the pairs just decoded, and
    what is printed after the table was built are the first 10 of the same
    pairs, one entry per pair. *)
Definition reports_pairs (past : list Event) (ev : Event) : Prop :=
  (∀ columns rows, ev_call ev = wandb_Table columns rows →
     ∃ pairs, decoded_pairs past pairs ∧ rows = take 16 pairs) ∧
  (∀ s, ev_call ev = print_str s →
     ∃ pairs past1 g3 table,
       past = past1 ++ [Ev g3 (wandb_Table ["samples"; "reward"]
                                 (take 16 pairs)) (inr table)] ∧
       decoded_pairs past1 pairs ∧
       s = String.concat newline (debug_line <$> take 10 pairs)).

Definition is_table (c : Call) : bool :=
  match c with wandb_Table _ _ => true | _ => false end.
Definition is_print_str (c : Call) : bool :=
  match c with print_str _ => true | _ => false end.

(** The batch whose loss is computed. *)
Definition loss_batch (ev : Event) : option obj :=
  match ev_call ev with model_loss _ batch => Some batch | _ => None end.

(** The batches whose loss was computed, in this order. *)
Definition loss_batches (t : list Event) : list obj := omap loss_batch t.

(** So far [steps] optimizer steps have completed and [count] calls [p]
    have returned. *)
Definition counted (p : Call → bool) (steps count : Z) (past : list Event)
  : Prop :=
  opt_steps_of past = steps ∧ Z.of_nat (count_returned p past) = count.

(** The loss that a returned [model.loss] answered. *)
Definition loss_of (ev : Event) : option obj :=
  match ev_call ev as c return exn + resp c → option obj with
  | model_loss _ _ =>
      λ r, match r with inr out => Some out.1 | inl _ => None end
  | _ => λ _, None
  end (ev_resp ev).

(** The loss computed last. *)
Definition last_loss (past : list Event) : option obj :=
  last (omap loss_of past).

(** [accelerator.backward] is called on the loss computed last, right
    after it was computed or after its statistics were sent, and
    [opt.step()] is called exactly when [backward] has just returned. *)
Definition backward_on_loss (self : ILQLModel) (past : list Event)
    (ev : Event) : Prop :=
  (∀ a l, ev_call ev = accelerator_backward a l →
     a = accelerator self ∧ last_loss past = Some l ∧
     (just_after (returned is_loss) past = true ∨
      just_after2 (returned is_loss) (returned is_log) past = true)) ∧
  (is_opt_step (ev_call ev) ↔ just_after (returned is_backward) past = true).

(** [backward] has not just returned. *)
Definition no_backward (past : list Event) : Prop :=
  just_after (returned is_backward) past = false.

(** The loss [l] has just been computed. *)
Definition loss_fresh (l : obj) (past : list Event) : Prop :=
  last_loss past = Some l ∧ just_after (returned is_loss) past = true.

(** The loss [l] has just been computed, and its statistics sent or not. *)
Definition loss_ready (l : obj) (past : list Event) : Prop :=
  last_loss past = Some l ∧
  (just_after (returned is_loss) past = true ∨
   just_after2 (returned is_loss) (returned is_log) past = true).

(** The dictionary sent to the tracker. *)
Definition logged (ev : Event) : option (gmap string obj) :=
  match ev_call ev with accelerator_log _ d => Some d | _ => None end.

(** The dictionaries sent to the tracker, in this order. *)
Definition logs_sent (t : list Event) : list (gmap string obj) :=
  omap logged t.

(** The keys of [d1] are keys of [d2]. *)
Definition keys_kept (d1 d2 : gmap string obj) : Prop := dom d1 ⊆ dom d2.

(** A dictionary is sent only with every key of those sent before it. *)
Definition log_keeps_keys (past : list Event) (ev : Event) : Prop :=
  ∀ d, logged ev = Some d → Forall (λ d', keys_kept d' d) (logs_sent past).

(** The keys of every dictionary sent so far are keys of [logs]. *)
Definition keys_within (logs : gmap string obj) (past : list Event) : Prop :=
  Forall (λ d', keys_kept d' logs) (logs_sent past).

(** When [m] raises, no call [p] has returned in it. *)
Definition fails_before {A} (p : Call → bool) (m : M A) : Prop :=
  ∀ g w e ev, res (m g w) = inl e → ev ∈ tr (m g w) → returned p ev = false.

(** Every call is issued before any optimizer step has completed, and is
    not a synchronisation. *)
Definition before_first_step (past : list Event) (ev : Event) : Prop :=
  opt_steps_of past = 0 ∧ is_sync (ev_call ev) = false.

(** What a returned [accelerator.prepare] answered. *)
Definition prepare_answer (ev : Event) : option (obj * obj * obj * obj) :=
  match ev_call ev as c return exn + resp c → option (obj * obj * obj * obj)
  with
  | accelerator_prepare _ _ _ _ _ =>
      λ r, match r with inr p => Some p | inl _ => None end
  | _ => λ _, None
  end (ev_resp ev).

(** The call is made on what [accelerator.prepare] answered, the model
    and the optimizer of [p], and on the schedule and the accelerator of
    the object; it is not another [accelerator.prepare]. *)
Definition on_prepared (self : ILQLModel) (p : obj * obj * obj * obj)
    (ev : Event) : Prop :=
  match ev_call ev with
  | model_loss m _ | model_eval m | model_train m | model_beta m
  | model_sample m _ _ _ _ | sync_target_q_heads m => m = p.1.1.1
  | opt_step o | opt_zero_grad o => o = p.1.1.2
  | scheduler_step s => scheduler self = Some s
  | accelerator_log a _ | accelerator_backward a _ | accelerator_gather a _
  | is_main_process a => a = accelerator self
  | accelerator_prepare _ _ _ _ _ => False
  | _ => True
  end.

(** The exceptions of [m] that no library call raised are in [R]. *)
Definition raises_only {A} (R : exn → Prop) (m : M A) : Prop :=
  ∀ g w e, res (m g w) = inl e →
    (∃ ev, ev ∈ tr (m g w) ∧ failed ev = Some e) ∨ R e.

End Observed.

(** ** Further concrete objects, for the edge cases *)
Module Cases.
Import Demo.

Definition train_with (n_epochs interval : Z) (rate : Q) : TrainConfig :=
  {| epochs := n_epochs; eval_interval := interval; batch_size := 8;
     gen_size := 32; learning_rate_init := rate;
     learning_rate_target := Qmake 1 10000; lr_ramp_steps := 10;
     lr_decay_steps := 100; project_name := "demo" |}.

Definition object_with (tc : TrainConfig) (sync : Z) : ILQLModel :=
  {| config := {| train := tc;
                  method := {| steps_for_target_q_sync := sync;
                               method_settings := 0%nat |} |};
     train_mode := true; hooks := demo_hooks; model := 100%nat;
     max_length := 32; tokenizer := None; logit_mask := 7%nat;
     accelerator := 101%nat; opt := Some 107%nat;
     scheduler := Some 108%nat |}.

(** [eval_interval] is 0. *)
Definition never_evaluating : ILQLModel :=
  object_with (train_with 2 0 (Qmake 1 1000)) 2.

(** [steps_for_target_q_sync] is 0. *)
Definition never_synchronising : ILQLModel :=
  object_with (train_with 2 3 (Qmake 1 1000)) 0.

(** [epochs] is 0. *)
Definition without_epochs : ILQLModel :=
  object_with (train_with 0 3 (Qmake 1 1000)) 2.

(** The initial learning rate is 0. *)
Definition zero_rate_config : Config :=
  {| train := train_with 2 3 0; method := method demo_config |}.

(** The object that the constructor leaves with [train_mode] false. *)
Definition eval_mode_self : ILQLModel :=
  {| config := demo_config; train_mode := false; hooks := demo_hooks;
     model := 100%nat; max_length := 32; tokenizer := None;
     logit_mask := 7%nat; accelerator := 101%nat; opt := None;
     scheduler := None |}.

(** What [accelerator.prepare] answers in the run of [built], and the
    event of that call. *)
Definition prepare_answered : @obj demo_types * @obj demo_types
                              * @obj demo_types * @obj demo_types :=
  (100, 107, 201, 202)%nat.
Definition prepare_event : @Event demo_types :=
  Ev true
     (@accelerator_prepare demo_types 101%nat 100%nat 107%nat 201%nat
        202%nat)
     (inr prepare_answered).

(** One epoch on the loaders 201 and 202. *)
Definition epoch_out : Out Z :=
  epoch_loop built 201%nat 202%nat 0 0 true 300%nat.

(** [eval_interval] is 1: every step is preceded by a pass and followed
    by a call of the tracker. *)
Definition often_evaluating : ILQLModel :=
  object_with (train_with 2 1 (Qmake 1 1000)) 2.

(** One epoch of it on the loaders 201 and 202. *)
Definition epoch_twice : Out Z :=
  epoch_loop often_evaluating 201%nat 202%nat 0 0 true 300%nat.

(** An evaluation pass in which the call numbered 305, the second
    [model.sample], raises. *)
Definition failing_pass
  : @Out _ (demo_world (Some 305%nat)) (gmap string obj) :=
  @evaluate _ (demo_world (Some 305%nat)) built 202%nat ∅ true 300%nat.

(** The world of [Demo] with another environment. *)
Definition world_with (env : gmap string string) : Externals :=
  {| W := nat;
     handler := answer None;
     fdiv := λ a b, if Qeq_bool b 0 then None else Some (Qdiv a b);
     py_int := demo_int;
     format_2f := λ _, "0.00";
     to_dict := λ _, 0%nat;
     environ := env |}.

(** Nothing is set in the environment. *)
Definition bare_world : Externals := world_with ∅.

(** [WORLD_SIZE] is set to something that is not a number. *)
Definition odd_world : Externals := world_with {["WORLD_SIZE" := "two"]}.

(** A world in which every loader and every tensor has 20 items and 20
    texts are decoded. *)
Definition answer_many (c : Call) (w : nat) : (exn + resp c) * nat :=
  (match c return exn + resp c with
   | iterate _ => inr (seq 1 20)
   | batch_decode _ _ _ => inr (replicate 20 "text")
   | other => (answer None other w).1
   end, S w).

Definition wordy_world : Externals :=
  {| W := nat;
     handler := answer_many;
     fdiv := λ a b, if Qeq_bool b 0 then None else Some (Qdiv a b);
     py_int := demo_int;
     format_2f := λ _, "0.00";
     to_dict := λ _, 0%nat;
     environ := demo_environ |}.

(** The training run of [built] in that world. *)
Definition wordy_run : @Out _ wordy_world ILQLModel :=
  @learn _ wordy_world built true 200%nat.

Definition single_process : Globals := {| WORLD_SIZE := 1; LOCAL_RANK := 0 |}.

End Cases.

(** * Proofs *)

Section Logic.
Context `{PT : PyTypes} `{EX : !Externals}.

(** ** The monad *)

Lemma bind_inl {A B} (m : M A) (f : A → M B) g w e :
  res (m g w) = inl e →
  (m ≫= f) g w = mkOut (inl e) (tr (m g w)) (world (m g w)).
Proof. intros E. unfold mbind, M_bind, bind. cbv zeta. by rewrite E. Qed.

Lemma bind_inr {A B} (m : M A) (f : A → M B) g w a :
  res (m g w) = inr a →
  (m ≫= f) g w =
  mkOut (res (f a g (world (m g w))))
        (tr (m g w) ++ tr (f a g (world (m g w))))
        (world (f a g (world (m g w)))).
Proof. intros E. unfold mbind, M_bind, bind. cbv zeta. by rewrite E. Qed.

Lemma call_success c g w (a : resp c) :
  res (call c g w) = inr a → tr (call c g w) = [Ev g c (inr a)].
Proof. unfold call. simpl. by intros ->. Qed.

Lemma call_tr c g w : tr (call c g w) = [Ev g c (res (call c g w))].
Proof. reflexivity. Qed.

Lemma runs_intro {A} (m : M A) g w a :
  res (m g w) = inr a → runs m g w a (tr (m g w)) (world (m g w)).
Proof. unfold runs. destruct (m g w); simpl. by intros ->. Qed.

Lemma runs_ret_inv {A} (a b : A) g w t w' :
  runs (ret a) g w b t w' → b = a ∧ t = [].
Proof. unfold runs, ret. by intros [= -> <- _]. Qed.

Lemma runs_call_inv c g w (a : resp c) t w' :
  runs (call c) g w a t w' → t = [Ev g c (inr a)].
Proof.
  unfold runs, call. cbv zeta. destruct (handler c w) as [r w0]. simpl.
  by intros [= -> <- _].
Qed.

Lemma runs_bind_inv {A B} (m : M A) (f : A → M B) g w b t w'' :
  runs (m ≫= f) g w b t w'' →
  ∃ a t1 w' t2,
    runs m g w a t1 w' ∧ runs (f a) g w' b t2 w'' ∧ t = t1 ++ t2.
Proof.
  unfold runs. intros E. destruct (res (m g w)) as [e|a] eqn:Em.
  - by rewrite (bind_inl _ _ _ _ _ Em) in E.
  - rewrite (bind_inr _ _ _ _ _ Em) in E. simplify_eq.
    exists a, (tr (m g w)), (world (m g w)), (tr (f a g (world (m g w)))).
    split; [by apply runs_intro|]. split; [|done].
    destruct (f a g (world (m g w))); simpl in *. by subst.
Qed.

Lemma runs_with_no_grad_inv {A} (m : M A) g w a t w' :
  runs (with_no_grad m) g w a t w' → runs m false w a t w'.
Proof. done. Qed.

Lemma runs_getattr_inv {A} name (o : option A) g w a t w' :
  runs (getattr name o) g w a t w' → o = Some a ∧ t = [].
Proof.
  destruct o as [x|]; simpl; [|by unfold runs, raise].
  intros [-> ->]%runs_ret_inv. done.
Qed.

Lemma runs_py_mod_inv a b g w r t w' :
  runs (py_mod a b) g w r t w' → b ≠ 0 ∧ r = a `mod` b ∧ t = [].
Proof.
  unfold py_mod. case_decide; [by unfold runs, raise|].
  intros [-> ->]%runs_ret_inv. done.
Qed.

(** ** Properties of every event of a trace *)

Lemma app_eq_split {A} (a b t1 t2 : list A) (x : A) :
  a ++ b = t1 ++ x :: t2 →
  (∃ c, a = t1 ++ x :: c ∧ t2 = c ++ b) ∨
  (∃ c, t1 = a ++ c ∧ b = c ++ x :: t2).
Proof.
  revert t1. induction a as [|y a IH]; intros t1 E; simpl in *.
  - right. by exists t1.
  - destruct t1 as [|z t1]; simpl in *; simplify_eq.
    + left. by exists a.
    + destruct (IH _ H0) as [[c [-> ->]]|[c [-> ->]]]; [left|right]; by exists c.
Qed.

Section Safe.
Variable φ : list Event → Event → Prop.

Lemma safe_nil pre : safe φ pre [].
Proof. intros [|??] ?? E; discriminate. Qed.

Lemma safe_app pre t t' :
  safe φ pre t → safe φ (pre ++ t) t' → safe φ pre (t ++ t').
Proof.
  intros S1 S2 t1 ev t2 E.
  destruct (app_eq_split _ _ _ _ _ E) as [[c [-> ->]]|[c [-> ->]]].
  - by eapply S1.
  - rewrite app_assoc. by eapply S2.
Qed.

Lemma safe_one pre ev : φ pre ev → safe φ pre [ev].
Proof.
  intros Hφ t1 ev' t2 E. destruct t1 as [|? [|??]]; simplify_eq/=.
  by rewrite app_nil_r.
Qed.

Lemma safe_cons pre ev t :
  φ pre ev → safe φ (pre ++ [ev]) t → safe φ pre (ev :: t).
Proof. intros. apply (safe_app pre [ev]); [by apply safe_one|done]. Qed.

Lemma triple_ret {A} (P : list Event → Prop) (a : A)
    (Q : A → list Event → Prop) :
  (∀ pre, P pre → Q a pre) → triple φ P (ret a) Q.
Proof.
  intros HQ pre g w HP. split; [apply safe_nil|].
  simpl. intros a' [= <-]. rewrite app_nil_r. auto.
Qed.

Lemma triple_raise {A} P e (Q : A → list Event → Prop) : triple φ P (raise e) Q.
Proof. intros pre g w HP. split; [apply safe_nil|]. discriminate. Qed.

Lemma triple_bind {A B} P (m : M A) (f : A → M B) R Q :
  triple φ P m R → (∀ a, triple φ (R a) (f a) Q) → triple φ P (m ≫= f) Q.
Proof.
  intros Hm Hf pre g w HP. destruct (Hm pre g w HP) as [S1 Q1].
  destruct (res (m g w)) as [e|a] eqn:E.
  - rewrite (bind_inl _ _ _ _ _ E). simpl. split; [done|discriminate].
  - rewrite (bind_inr _ _ _ _ _ E). simpl.
    destruct (Hf a _ g (world (m g w)) (Q1 a eq_refl)) as [S2 Q2].
    split; [by apply safe_app|]. intros b Hb. rewrite app_assoc. auto.
Qed.

Lemma triple_call P c (Q : resp c → list Event → Prop) :
  (∀ pre g r, P pre → φ pre (Ev g c r)) →
  (∀ pre g a, P pre → Q a (pre ++ [Ev g c (inr a)])) →
  triple φ P (call c) Q.
Proof.
  intros Hφ HQ pre g w HP. split.
  - rewrite call_tr. apply safe_one. auto.
  - intros a Ha. rewrite (call_success _ _ _ _ Ha). auto.
Qed.

Lemma triple_conseq {A} (P P' : list Event → Prop) (m : M A)
    (Q Q' : A → list Event → Prop) :
  (∀ pre, P' pre → P pre) → (∀ a t, Q a t → Q' a t) →
  triple φ P m Q → triple φ P' m Q'.
Proof.
  intros HP HQ Hm pre g w HP'. destruct (Hm pre g w (HP _ HP')) as [S1 Q1].
  split; [done|]. intros a Ha. auto.
Qed.

Lemma triple_pure {A} (ψ : Prop) (P : list Event → Prop) (m : M A) Q :
  (ψ → triple φ P m Q) → triple φ (λ t, ψ ∧ P t) m Q.
Proof. intros Hm pre g w [Hψ HP]. by apply Hm. Qed.

Lemma triple_foldM {S A} (I : S → list Event → Prop) (f : S → A → M S) l s :
  (∀ s x, triple φ (I s) (f s x) I) → triple φ (I s) (foldM f l s) I.
Proof.
  intros Hf. revert s. induction l as [|x l IH]; intros s; simpl.
  - by apply triple_ret.
  - eapply triple_bind; [apply Hf|]. intros s'. apply IH.
Qed.

Lemma triple_getattr {A} P name (o : option A) :
  triple φ P (getattr name o) (λ a t, o = Some a ∧ P t).
Proof.
  destruct o as [a|]; simpl; [|apply triple_raise].
  apply triple_ret. auto.
Qed.

Lemma triple_py_mod P a b :
  triple φ P (py_mod a b) (λ r t, (b ≠ 0 ∧ r = a `mod` b) ∧ P t).
Proof.
  unfold py_mod. case_decide; [apply triple_raise|].
  apply triple_ret. auto.
Qed.

End Safe.

(** Events that a property does not look at. *)
Lemma safe_all φ pre t :
  (∀ past ev, ev ∈ t → φ past ev) → safe φ pre t.
Proof.
  intros Hall t1 ev t2 ->. apply Hall. set_solver.
Qed.

End Logic.

(** ** Facts about the observations *)
Section Observations.
Context `{PT : PyTypes} `{EX : !Externals}.

Lemma opt_steps_of_app t t' :
  opt_steps_of (t ++ t') = opt_steps_of t + opt_steps_of t'.
Proof.
  unfold opt_steps_of, count_returned.
  rewrite List.filter_app, length_app. lia.
Qed.

Lemma opt_steps_of_snoc t ev :
  opt_steps_of (t ++ [ev]) =
  opt_steps_of t + (if returned is_sched_step ev then 1 else 0).
Proof.
  rewrite opt_steps_of_app. f_equal. unfold opt_steps_of, count_returned.
  simpl. by destruct (returned is_sched_step ev).
Qed.

Lemma just_after_snoc p t ev : just_after p (t ++ [ev]) = p ev.
Proof. unfold just_after. by rewrite reverse_snoc. Qed.

Lemma just_after2_snoc p q t ev :
  just_after2 p q (t ++ [ev]) = just_after p t && q ev.
Proof.
  unfold just_after2, just_after. rewrite reverse_snoc.
  by destruct (reverse t).
Qed.

Lemma mode_of_snoc t ev :
  mode_of (t ++ [ev]) =
  match ev_call ev with
  | model_train _ => Some true
  | model_eval _ => Some false
  | _ => mode_of t
  end.
Proof. unfold mode_of. by rewrite foldl_app. Qed.

(** *** Rules for [emits] *)

Lemma emits_ret {A} C (a : A) : emits C (ret a).
Proof. intros g w ev Hev. simpl in Hev. set_solver. Qed.

Lemma emits_raise {A} C e : emits C (raise (A := A) e).
Proof. intros g w ev Hev. simpl in Hev. set_solver. Qed.

Lemma emits_call (C : Event → Prop) c :
  (∀ g r, C (Ev g c r)) → emits C (call c).
Proof.
  intros HC g w ev Hev. rewrite call_tr in Hev.
  apply list_elem_of_singleton in Hev as ->. apply HC.
Qed.

Lemma emits_bind {A B} C (m : M A) (f : A → M B) :
  emits C m → (∀ a, emits C (f a)) → emits C (m ≫= f).
Proof.
  intros Hm Hf g w ev Hev. destruct (res (m g w)) as [e|a] eqn:E.
  - rewrite (bind_inl _ _ _ _ _ E) in Hev. by eapply Hm.
  - rewrite (bind_inr _ _ _ _ _ E) in Hev. simpl in Hev.
    apply elem_of_app in Hev as [Hev|Hev]; [by eapply Hm|by eapply Hf].
Qed.

Lemma emits_with_no_grad {A} C (m : M A) : emits C m → emits C (with_no_grad m).
Proof. intros Hm g w. apply Hm. Qed.

Lemma emits_foldM {S A} C (f : S → A → M S) l s :
  (∀ s x, emits C (f s x)) → emits C (foldM f l s).
Proof.
  intros Hf. revert s. induction l as [|x l IH]; intros s; simpl.
  - apply emits_ret.
  - apply emits_bind; auto.
Qed.

Lemma emits_getattr {A} C name (o : option A) : emits C (getattr name o).
Proof. destruct o; [apply emits_ret|apply emits_raise]. Qed.

Lemma emits_py_mod C a b : emits C (py_mod a b).
Proof. unfold py_mod. case_decide; [apply emits_raise|apply emits_ret]. Qed.

Lemma emits_safe {A} (C : Event → Prop) φ (m : M A) pre g w :
  emits C m → (∀ past ev, C ev → φ past ev) → safe φ pre (tr (m g w)).
Proof.
  intros Hm HC. apply safe_all. intros past ev Hev. apply HC. by eapply Hm.
Qed.

End Observations.

(** Proves [emits C m] for straight-line code, loops and branches. *)
Ltac emits_step :=
  first
    [ apply emits_ret | apply emits_raise | apply emits_getattr
    | apply emits_py_mod | apply emits_with_no_grad
    | apply emits_foldM; intros ??
    | apply emits_bind; [|intros ?]
    | match goal with
      | |- emits ?C (call ?c) =>
          apply (emits_call C c); intros ??; simpl; try done
      | |- emits _ (if decide ?P then _ else _) => destruct (decide P)
      | |- emits _ (if ?b then _ else _) => destruct b eqn:?
      | |- emits _ (match ?x with _ => _ end) => destruct x eqn:?
      end ].

(** Inverts the hypotheses [runs m ...] along the structure of [m]. *)
Ltac runs_inv :=
  repeat match goal with
  | H : runs (mbind _ _) _ _ _ _ _ |- _ =>
      let H' := fresh "R" in
      apply runs_bind_inv in H as (? & ? & ? & ? & H & H' & ->)
  | H : runs (ret _) _ _ _ _ _ |- _ => apply runs_ret_inv in H as [-> ->]
  | H : runs (call ?c) ?g ?w ?a ?t ?w' |- _ =>
      apply (runs_call_inv c g w a t w') in H as ->
  | H : runs (with_no_grad _) _ _ _ _ _ |- _ =>
      apply runs_with_no_grad_inv in H
  | H : runs (getattr _ _) _ _ _ _ _ |- _ =>
      apply runs_getattr_inv in H as [? ->]
  | H : runs (py_mod _ _) _ _ _ _ _ |- _ =>
      apply runs_py_mod_inv in H as (? & ? & ->)
  end.

(** Answers of type [unit] are [()]. *)
Ltac unit_resp :=
  repeat match goal with
  | u : unit |- _ => destruct u
  | u : resp ?c |- _ =>
      let T := eval cbv in (resp c) in
      match T with unit => destruct u end
  end.

Section Evaluate.
Context `{PT : PyTypes} `{EX : !Externals}.

Lemma evaluate_emits self el logs :
  emits (λ ev, is_eval_call (ev_call ev)) (evaluate self el logs).
Proof.
  unfold evaluate, sample_all, sample_one, main_process_report.
  repeat emits_step.
Qed.

Lemma sample_loop_runs self ps acc g w all t w' :
  runs (foldM (sample_one self) ps acc) g w all t w' →
  ∃ outs, length outs = length ps ∧ t = sample_events self ps outs ∧
          all = acc ++ ((λ o : obj * (obj * obj), o.2.1) <$> outs).
Proof.
  revert acc w t. induction ps as [|p ps IH]; intros acc w t Hr; simpl in Hr.
  - runs_inv. exists []. by rewrite app_nil_r.
  - unfold sample_one at 2 in Hr. runs_inv.
    destruct (IH _ _ _ R) as (outs & Hlen & -> & ->).
    eexists ((_, _) :: outs). simpl. rewrite Hlen, <- !app_assoc. done.
Qed.

Lemma main_process_report_runs self samples logs g w logs' t w' :
  runs (main_process_report self samples logs) g w logs' t w' →
  ∃ rewards_list rewards reward rest,
    t = reward_events self g samples rewards_list rewards reward ++ rest ∧
    logs' !! "reward" = Some reward.
Proof.
  unfold main_process_report. intros Hr. runs_inv.
  do 4 eexists. split; [by simpl|]. apply lookup_insert_eq.
Qed.

Lemma evaluate_runs self el logs g w logs' t w' :
  runs (evaluate self el logs) g w logs' t w' →
  ∃ ps outs stacked gathered main report,
    t = pass_events self el g ps outs stacked gathered main report ∧
    length outs = length ps ∧
    if main : bool
    then ∃ w1 w2,
           runs (main_process_report self gathered logs) g w1 logs' report w2
    else report = [] ∧ logs' = logs.
Proof.
  unfold evaluate, sample_all, pass_events. intros Hr. runs_inv.
  apply sample_loop_runs in R0 as (outs & Hlen & -> & ->).
  unit_resp.
  eexists _, outs, _, _, _, _. split; [|split; [done|]].
  - simpl. rewrite <- !app_assoc. simpl. done.
  - simpl. destruct x12; runs_inv; eauto.
Qed.

Lemma evaluation_pass_last self t0 pass :
  evaluation_pass self pass →
  just_after (returned is_model_train) (t0 ++ pass) = true.
Proof.
  intros (mdl & o & el & logs & g & w & logs' & w' & Hr).
  apply evaluate_runs in Hr as (? & ? & ? & ? & ? & ? & -> & _).
  unfold pass_events. by rewrite app_assoc, just_after_snoc.
Qed.

Lemma evaluation_pass_on_any self p pass :
  evaluation_pass_on self p pass → evaluation_pass self pass.
Proof.
  intros (logs & g & w & logs' & w' & Hr).
  by exists p.1.1.1, p.1.1.2, p.2, logs, g, w, logs', w'.
Qed.

End Evaluate.

(** The rule of [call], with the call read off the goal. *)
Ltac apply_triple_call :=
  match goal with
  | |- triple ?φ ?P (call ?c) ?Q => apply (triple_call φ P c Q)
  end.

(** ** The shape of the loop, once for all properties *)
Section LoopSchema.
Context `{PT : PyTypes} `{EX : !Externals}.
Variable φ : list Event → Event → Prop.
Variable self : ILQLModel.
Let k := eval_interval (train (config self)).
Let ks := steps_for_target_q_sync (method (config self)).

(** What is known of the past at the points of an iteration whose counter
    is [n]: at its start, before the loss, after the loss, after the
    statistics were sent (or not), after [opt.step()], after
    [opt.zero_grad()], after [scheduler.step()]. *)
Variables at_start before_loss after_loss after_log after_opt after_zero
  after_sched : Z → list Event → Prop.

Hypothesis setup_ok : ∀ c,
  match c with
  | Clock_new | create_train_loader _ _ _ | create_eval_loader _ _ _
  | accelerator_prepare _ _ _ _ _ => True
  | _ => False
  end →
  triple φ (at_start 0) (call c) (λ _, at_start 0).
Hypothesis iterate_ok : ∀ n x,
  triple φ (at_start n) (call (iterate x)) (λ _, at_start n).
Hypothesis evaluate_ok : ∀ n mdl o el logs,
  k ≠ 0 → Z.divide k n →
  triple φ (at_start n) (evaluate (prepared self mdl o) el logs)
    (λ _, before_loss n).
Hypothesis skip_ok : ∀ n past,
  k ≠ 0 → ¬ Z.divide k n → at_start n past → before_loss n past.
Hypothesis loss_ok : ∀ n mdl batch,
  triple φ (before_loss n) (call (model_loss mdl batch)) (λ _, after_loss n).
Hypothesis log_ok : ∀ n logs,
  k ≠ 0 → Z.divide k n →
  triple φ (after_loss n) (call (accelerator_log (accelerator self) logs))
    (λ _, after_log n).
Hypothesis no_log_ok : ∀ n past,
  k ≠ 0 → ¬ Z.divide k n → after_loss n past → after_log n past.
Hypothesis backward_ok : ∀ n loss,
  triple φ (after_log n) (call (accelerator_backward (accelerator self) loss))
    (λ _, after_log n).
Hypothesis opt_step_ok : ∀ n o,
  triple φ (after_log n) (call (opt_step o)) (λ _, after_opt n).
Hypothesis zero_grad_ok : ∀ n o,
  triple φ (after_opt n) (call (opt_zero_grad o)) (λ _, after_zero n).
Hypothesis sched_step_ok : ∀ n s,
  scheduler self = Some s →
  triple φ (after_zero n) (call (scheduler_step s)) (λ _, after_sched n).
Hypothesis sync_ok : ∀ n mdl,
  ks ≠ 0 → Z.divide ks (n + 1) →
  triple φ (after_sched n) (call (sync_target_q_heads mdl))
    (λ _, at_start (n + 1)).
Hypothesis no_sync_ok : ∀ n past,
  ks ≠ 0 → ¬ Z.divide ks (n + 1) → after_sched n past → at_start (n + 1) past.

Lemma train_step_schema mdl o el (st : Z * gmap string obj) batch :
  triple φ (at_start st.1) (train_step (prepared self mdl o) el st batch)
    (λ st', at_start st'.1).
Proof using All.
  destruct st as [n logs]. unfold train_step. cbn [fst snd].
  change (config (prepared self mdl o)) with (config self).
  change (accelerator (prepared self mdl o)) with (accelerator self).
  fold k ks.
  eapply triple_bind; [apply triple_py_mod|]. intros r.
  apply triple_pure. intros [Hk ->].
  eapply triple_bind with (R := λ _, before_loss n).
  { destruct (decide (n `mod` k = 0)) as [Hm|Hm].
    - apply evaluate_ok; [done|]. by apply Z.mod_divide.
    - apply triple_ret. intros pre. apply skip_ok; [done|].
      by intros ?%Z.mod_divide. }
  intros logs1.
  eapply triple_bind; [apply loss_ok|]. intros out.
  eapply triple_bind; [apply triple_py_mod|]. intros r.
  apply triple_pure. intros [_ ->].
  eapply triple_bind with (R := λ _, after_log n).
  { destruct (decide (n `mod` k = 0)) as [Hm|Hm].
    - eapply triple_bind; [apply log_ok; [done|by apply Z.mod_divide]|].
      intros ?. by apply triple_ret.
    - apply triple_ret. intros pre. apply no_log_ok; [done|].
      by intros ?%Z.mod_divide. }
  intros logs2.
  eapply triple_bind; [apply backward_ok|]. intros ?.
  eapply triple_bind; [apply triple_getattr|]. intros o1.
  apply triple_pure. intros _.
  eapply triple_bind; [apply opt_step_ok|]. intros ?.
  eapply triple_bind; [apply triple_getattr|]. intros o2.
  apply triple_pure. intros _.
  eapply triple_bind; [apply zero_grad_ok|]. intros ?.
  eapply triple_bind; [apply triple_getattr|]. intros s.
  apply triple_pure. intros Hs.
  eapply triple_bind; [by apply sched_step_ok|]. intros ?.
  eapply triple_bind; [apply triple_py_mod|]. intros r.
  apply triple_pure. intros [Hks ->].
  eapply triple_bind with (R := λ _, at_start (n + 1)).
  { destruct (decide ((n + 1) `mod` ks = 0)) as [Hm|Hm].
    - apply sync_ok; [done|]. by apply Z.mod_divide.
    - apply triple_ret. intros pre. apply no_sync_ok; [done|].
      by intros ?%Z.mod_divide. }
  intros ?. by apply triple_ret.
Qed.

Lemma epoch_loop_schema mdl o tl el n epoch :
  triple φ (at_start n) (epoch_loop (prepared self mdl o) tl el n epoch)
    at_start.
Proof using All.
  unfold epoch_loop.
  eapply triple_bind; [apply iterate_ok|]. intros batches.
  eapply triple_bind.
  { apply (triple_foldM _ (λ st : Z * gmap string obj, at_start st.1)
             _ _ (n, ∅)).
    apply train_step_schema. }
  intros st. by apply triple_ret.
Qed.

Lemma learn_schema :
  triple φ (at_start 0) (learn self) (λ _ past, ∃ n, at_start n past).
Proof using All.
  unfold learn.
  eapply triple_bind; [by apply setup_ok|]. intros timer.
  eapply triple_bind; [by apply setup_ok|]. intros tl.
  eapply triple_bind; [by apply setup_ok|]. intros el.
  eapply triple_bind; [apply triple_getattr|]. intros o.
  apply triple_pure. intros _.
  eapply triple_bind; [by apply setup_ok|]. intros p.
  eapply triple_bind.
  { apply (triple_foldM _ at_start). intros n epoch.
    apply epoch_loop_schema. }
  intros n. apply triple_ret. eauto.
Qed.

End LoopSchema.

(** ** Code whose calls all keep an invariant *)
Section Invariant.
Context `{PT : PyTypes} `{EX : !Externals}.

Lemma emits_triple {A} (C : Event → Prop) φ (I : list Event → Prop) (m : M A) :
  emits C m →
  (∀ past ev, C ev → I past → φ past ev ∧ I (past ++ [ev])) →
  triple φ I m (λ _, I).
Proof.
  intros Hm Hstep pre g w Hpre.
  assert (∀ t, (∀ ev, ev ∈ t → C ev) → ∀ pre, I pre →
               safe φ pre t ∧ I (pre ++ t)) as Hall.
  { clear pre Hpre. induction t as [|ev t IH]; intros HC pre Hpre.
    - rewrite app_nil_r. split; [apply safe_nil|done].
    - assert (C ev) as Hev by (apply HC; constructor).
      assert (∀ ev', ev' ∈ t → C ev') as Ht
        by (intros; apply HC; by constructor).
      destruct (Hstep pre ev Hev Hpre) as [Hφ HI].
      destruct (IH Ht _ HI) as [Hs HI'].
      split; [by apply safe_cons|]. by rewrite cons_middle, app_assoc. }
  destruct (Hall (tr (m g w)) (Hm g w) pre Hpre) as [Hs HI].
  split; [done|]. by intros _ _.
Qed.

End Invariant.

(** ** Events that do not step the scheduler *)
Section NoSteps.
Context `{PT : PyTypes} `{EX : !Externals}.

Lemma opt_steps_of_none t :
  (∀ ev, ev ∈ t → is_sched_step (ev_call ev) = false) → opt_steps_of t = 0.
Proof.
  induction t as [|ev t IH]; intros Hall; [done|].
  change (ev :: t) with ([ev] ++ t).
  rewrite opt_steps_of_app, IH by (intros; apply Hall; by constructor).
  unfold opt_steps_of, count_returned, returned. simpl.
  rewrite Hall by constructor. done.
Qed.

End NoSteps.

(** ** When the statistics are sent to the tracker *)
Section LogSchedule.
Context `{PT : PyTypes} `{EX : !Externals}.
Variable self : ILQLModel.

Lemma no_log_due_not_due n past :
  no_log_due self n past → ¬ log_due self past.
Proof. intros [<- Hn] [Hj Hd]. by apply Hn. Qed.

Lemma event_not_log n past ev :
  is_log (ev_call ev) = false → no_log_due self n past →
  log_iff_due self past ev.
Proof.
  intros Hl Hn. unfold log_iff_due. rewrite Hl. split; [done|].
  intros Hd. by apply (no_log_due_not_due _ _ Hn).
Qed.

Lemma event_no_log n past ev :
  is_log (ev_call ev) = false → is_loss (ev_call ev) = false →
  is_sched_step (ev_call ev) = false →
  no_log_due self n past →
  log_iff_due self past ev ∧ no_log_due self n (past ++ [ev]).
Proof.
  intros Hg Hl Hs Hn. split; [by eapply event_not_log|].
  destruct Hn as [Hn _]. split.
  - rewrite opt_steps_of_snoc. unfold returned. rewrite Hs. simpl. lia.
  - rewrite just_after_snoc. unfold returned. by rewrite Hl.
Qed.

Lemma call_no_log n c :
  is_log c = false → is_loss c = false → is_sched_step c = false →
  triple (log_iff_due self) (no_log_due self n) (call c)
    (λ _, no_log_due self n).
Proof.
  intros Hg Hl Hs. apply triple_call.
  - intros pre g r Hn. by apply (event_no_log n pre (Ev g c r)).
  - intros pre g a Hn. by apply (event_no_log n pre (Ev g c (inr a))).
Qed.

Lemma learn_log_schedule :
  triple (log_iff_due self) (no_log_due self 0) (learn self)
    (λ _ past, ∃ n, no_log_due self n past).
Proof.
  apply learn_schema with (before_loss := no_log_due self)
    (after_loss := loss_computed) (after_log := no_log_due self)
    (after_opt := no_log_due self) (after_zero := no_log_due self)
    (after_sched := λ n, no_log_due self (n + 1)).
  - intros c Hc. apply call_no_log; by destruct c.
  - intros. by apply call_no_log.
  - intros n mdl o el logs _ _.
    apply emits_triple with (C := λ ev, is_eval_call (ev_call ev));
      [apply evaluate_emits|].
    intros past ev Hev. apply event_no_log; revert Hev; by destruct (ev_call ev).
  - done.
  - intros n mdl batch. apply_triple_call.
    + intros pre g r Hn. by apply (event_not_log n).
    + intros pre g ? [Hn _]. split.
      * rewrite opt_steps_of_snoc. simpl. lia.
      * by rewrite just_after_snoc.
  - intros n logs Hk Hdiv. apply_triple_call.
    + intros pre g r [Hn Hj]. unfold log_iff_due, log_due. simpl.
      by rewrite Hn.
    + intros pre g ? [Hn Hj]. split.
      * rewrite opt_steps_of_snoc. simpl. lia.
      * by rewrite just_after_snoc.
  - intros n past _ Hdiv [Hn Hj]. by split.
  - intros. by apply call_no_log.
  - intros. by apply call_no_log.
  - intros. by apply call_no_log.
  - intros n s _. apply_triple_call.
    + intros pre g r Hn. by apply (event_not_log n).
    + intros pre g ? [Hn _]. split.
      * rewrite opt_steps_of_snoc. simpl. lia.
      * by rewrite just_after_snoc.
  - intros. by apply call_no_log.
  - done.
Qed.

End LogSchedule.

(** ** When the target heads are synchronised *)
Section SyncSchedule.
Context `{PT : PyTypes} `{EX : !Externals}.
Variable self : ILQLModel.
Let ks := steps_for_target_q_sync (method (config self)).

Lemma no_sync_due_not_due n past :
  no_sync_due self n past → ¬ sync_due self past.
Proof. intros [<- Hn] [Hj Hd]. by apply Hn. Qed.

Lemma event_not_sync n past ev :
  is_sync (ev_call ev) = false → no_sync_due self n past →
  sync_iff_due self past ev.
Proof.
  intros Hy Hn. unfold sync_iff_due. rewrite Hy. split; [done|].
  intros Hd. by apply (no_sync_due_not_due _ _ Hn).
Qed.

Lemma event_no_sync n past ev :
  is_sync (ev_call ev) = false → is_sched_step (ev_call ev) = false →
  no_sync_due self n past →
  sync_iff_due self past ev ∧ no_sync_due self n (past ++ [ev]).
Proof.
  intros Hy Hs Hn. split; [by eapply event_not_sync|].
  destruct Hn as [Hn _]. split.
  - rewrite opt_steps_of_snoc. unfold returned. rewrite Hs. simpl. lia.
  - rewrite just_after_snoc. unfold returned. by rewrite Hs.
Qed.

Lemma call_no_sync n c :
  is_sync c = false → is_sched_step c = false →
  triple (sync_iff_due self) (no_sync_due self n) (call c) (λ _, no_sync_due self n).
Proof.
  intros Hy Hs. apply triple_call.
  - intros pre g r Hn. by apply (event_no_sync n pre (Ev g c r)).
  - intros pre g a Hn. by apply (event_no_sync n pre (Ev g c (inr a))).
Qed.

Lemma learn_sync_schedule :
  triple (sync_iff_due self) (no_sync_due self 0) (learn self)
    (λ _ past, ∃ n, no_sync_due self n past).
Proof.
  apply learn_schema with (before_loss := no_sync_due self)
    (after_loss := no_sync_due self)
    (after_log := no_sync_due self) (after_opt := no_sync_due self)
    (after_zero := no_sync_due self) (after_sched := step_completed).
  - intros c Hc. apply call_no_sync; by destruct c.
  - intros. by apply call_no_sync.
  - intros n mdl o el logs _ _.
    apply emits_triple with (C := λ ev, is_eval_call (ev_call ev));
      [apply evaluate_emits|].
    intros past ev Hev. apply event_no_sync; revert Hev; by destruct (ev_call ev).
  - done.
  - intros. by apply call_no_sync.
  - intros. by apply call_no_sync.
  - done.
  - intros. by apply call_no_sync.
  - intros. by apply call_no_sync.
  - intros. by apply call_no_sync.
  - intros n s _. apply_triple_call.
    + intros pre g r Hn. by apply (event_not_sync n).
    + intros pre g ? [Hn _]. split.
      * rewrite opt_steps_of_snoc. simpl. lia.
      * by rewrite just_after_snoc.
  - intros n mdl Hks Hdiv. apply_triple_call.
    + intros pre g r [Hn Hj]. unfold sync_iff_due, sync_due. simpl.
      fold ks. by rewrite Hn.
    + intros pre g ? [Hn Hj]. split.
      * rewrite opt_steps_of_snoc. simpl. lia.
      * by rewrite just_after_snoc.
  - intros n past _ Hdiv [Hn Hj]. by split.
Qed.

End SyncSchedule.

Section SyncScheduleClaim.
Context `{PT : PyTypes} `{EX : !Externals}.

(** C2. In every run of [learn], [model.sync_target_q_heads()] is called
    exactly at the points where [scheduler.step()] has just returned and
    the number of optimizer steps made so far (the incremented counter) is
    a multiple of [steps_for_target_q_sync]: every such call stands at such
    a point, whatever follows such a point is that call, and [learn] does
    not return at such a point. *)
Theorem learn_syncs_when_due (self : ILQLModel) (g : bool) (w : W) :
  safe (sync_iff_due self) [] (tr (learn self g w)) ∧
  (∀ self', res (learn self g w) = inr self' →
          ¬ sync_due self (tr (learn self g w))).
Proof.
  destruct (learn_sync_schedule self [] g w) as [Hs Hq]; [by split|].
  split; [done|]. intros self' Hr.
  destruct (Hq self' Hr) as [n Hn]. by eapply no_sync_due_not_due.
Qed.

End SyncScheduleClaim.

(** ** The model is in training mode when the loss is computed *)
Section TrainingMode.
Context `{PT : PyTypes} `{EX : !Externals}.
Variable self : ILQLModel.

Lemma mode_of_keep t ev :
  is_mode_switch (ev_call ev) = false → mode_of (t ++ [ev]) = mode_of t.
Proof. rewrite mode_of_snoc. by destruct (ev_call ev). Qed.

Lemma call_keeps_mode (I : list Event → Prop) c :
  is_loss c = false → is_mode_switch c = false →
  (∀ past ev, is_mode_switch (ev_call ev) = false → I past → I (past ++ [ev])) →
  triple loss_in_training_mode I (call c) (λ _, I).
Proof.
  intros Hl Hm HI. apply triple_call.
  - intros pre g r _. unfold loss_in_training_mode. simpl. by rewrite Hl.
  - intros pre g a Hpre. by apply HI.
Qed.

Lemma training_keep n past ev :
  is_mode_switch (ev_call ev) = false →
  training n past → training n (past ++ [ev]).
Proof. unfold training. intros Hm <-. by apply mode_of_keep. Qed.

Lemma training_from_first_keep n past ev :
  is_mode_switch (ev_call ev) = false →
  training_from_first n past → training_from_first n (past ++ [ev]).
Proof.
  intros Hm [->|Ht]; [by left|right]. by apply (training_keep 0).
Qed.

Lemma learn_training_mode :
  triple loss_in_training_mode (training_from_first 0) (learn self)
    (λ _ _, True).
Proof.
  eapply triple_conseq; [done| |
    apply learn_schema with (self := self) (at_start := training_from_first)
      (before_loss := training) (after_loss := training)
    (after_log := training)
      (after_opt := training) (after_zero := training)
      (after_sched := training)]; [done|..].
  - intros c Hc. apply call_keeps_mode;
      [by destruct c|by destruct c|apply training_from_first_keep].
  - intros. apply call_keeps_mode; [done..|apply training_from_first_keep].
  - intros n mdl o el logs _ _ pre g w _. split.
    + eapply emits_safe; [apply evaluate_emits|].
      intros past ev. unfold loss_in_training_mode. by destruct (ev_call ev).
    + intros logs' Hr%runs_intro.
      apply evaluate_runs in Hr as (? & ? & ? & ? & ? & ? & -> & _).
      unfold training, pass_events. by rewrite app_assoc, mode_of_snoc.
  - intros n past _ Hn [->|Ht]; [|done]. destruct Hn. apply Z.divide_0_r.
  - intros n mdl batch. apply_triple_call.
    + by intros pre g r Ht _.
    + intros pre g ? Ht. by apply training_keep.
  - intros. apply call_keeps_mode; [done..|apply training_keep].
  - done.
  - intros. apply call_keeps_mode; [done..|apply training_keep].
  - intros. apply call_keeps_mode; [done..|apply training_keep].
  - intros. apply call_keeps_mode; [done..|apply training_keep].
  - intros. apply call_keeps_mode; [done..|apply training_keep].
  - intros. eapply triple_conseq;
      [done| |apply call_keeps_mode; [done..|apply (training_keep n)]].
    intros ? t Ht. by right.
  - intros n past _ _ Ht. by right.
Qed.

End TrainingMode.

Section TrainingModeClaim.
Context `{PT : PyTypes} `{EX : !Externals}.

(** C9. In every run of [learn], whenever [model.loss(batch)] is called the
    last mode switch of the model was [model.train()]; and every
    evaluation pass begins with [model.eval()] and ends with
    [model.train()]. *)
Theorem learn_loss_in_training_mode (self : ILQLModel) (g : bool) (w : W) :
  safe loss_in_training_mode [] (tr (learn self g w)) ∧
  ∀ pass, evaluation_pass self pass →
    ∃ mdl g' middle,
      pass = Ev g' (model_eval mdl) (inr ()) :: middle
             ++ [Ev g' (model_train mdl) (inr ())] ∧
      mode_of pass = Some true.
Proof.
  split.
  - apply (learn_training_mode self [] g w). by left.
  - intros pass (mdl & o & el & logs & g' & w0 & logs' & w' & Hr).
    apply evaluate_runs in Hr as (? & ? & ? & ? & ? & ? & -> & _).
    unfold pass_events. eexists mdl, g', _. split; [done|].
    by rewrite mode_of_snoc.
Qed.

End TrainingModeClaim.

(** ** The scheduler steps once per optimizer step *)
Section SchedulerSteps.
Context `{PT : PyTypes} `{EX : !Externals}.
Variable self : ILQLModel.

Lemma count_returned_snoc p t ev :
  count_returned p (t ++ [ev]) =
  (count_returned p t + (if returned p ev then 1 else 0))%nat.
Proof.
  unfold count_returned. rewrite List.filter_app, length_app. simpl.
  by destruct (returned p ev).
Qed.

Lemma just_after_excl p q t :
  (∀ ev, p ev = true → q ev = false) →
  just_after p t = true → just_after q t = false.
Proof. unfold just_after. destruct (reverse t); [done|]. auto. Qed.

Lemma just_after2_last p q t :
  just_after2 p q t = true → just_after q t = true.
Proof.
  unfold just_after2, just_after. destruct (reverse t) as [|? [|??]]; try done.
  by intros [_ ?]%andb_true_iff.
Qed.

Lemma returned_excl p q :
  (∀ c, p c = true → q c = false) →
  ∀ ev, returned p ev = true → returned q ev = false.
Proof.
  intros Hpq ev [Hp _]%andb_true_iff. unfold returned. by rewrite (Hpq _ Hp).
Qed.

Lemma opt_not_zero ev :
  returned is_opt_step ev = true → returned is_zero_grad ev = false.
Proof. apply returned_excl. by intros []. Qed.

Lemma zero_not_opt ev :
  returned is_zero_grad ev = true → returned is_opt_step ev = false.
Proof. apply returned_excl. by intros []. Qed.

Lemma event_at_idle n past ev :
  is_sched_step (ev_call ev) = false →
  idle n past → sched_follows_opt self past ev.
Proof.
  intros Hs (Hjo & Hjz & Hc). unfold sched_follows_opt.
  rewrite Hjo, Hjz, Hs. split; [|done]. intros s E. by rewrite E in Hs.
Qed.

Lemma event_idle n past ev :
  is_opt_step (ev_call ev) = false → is_zero_grad (ev_call ev) = false →
  is_sched_step (ev_call ev) = false →
  idle n past → sched_follows_opt self past ev ∧ idle n (past ++ [ev]).
Proof.
  intros Ho Hz Hs Hn. split; [by eapply event_at_idle|].
  destruct Hn as (Hjo & Hjz & Hc).
  unfold idle. rewrite !just_after_snoc, !count_returned_snoc.
  unfold returned. rewrite Ho, Hz, Hs. simpl. split; [done|]. split; [done|lia].
Qed.

Lemma call_idle n c :
  is_opt_step c = false → is_zero_grad c = false → is_sched_step c = false →
  triple (sched_follows_opt self) (idle n) (call c) (λ _, idle n).
Proof.
  intros Ho Hz Hs. apply triple_call.
  - intros pre g r Hn. by apply (event_idle n pre (Ev g c r)).
  - intros pre g a Hn. by apply (event_idle n pre (Ev g c (inr a))).
Qed.

Lemma learn_scheduler_steps :
  triple (sched_follows_opt self) (idle 0) (learn self)
    (λ _ past, ∃ n, idle n past).
Proof.
  apply learn_schema with (before_loss := idle) (after_loss := idle)
    (after_log := idle)
    (after_opt := stepped) (after_zero := zeroed) (after_sched := idle).
  - intros c Hc. apply call_idle; by destruct c.
  - intros. by apply call_idle.
  - intros n mdl o el logs _ _.
    apply emits_triple with (C := λ ev, is_eval_call (ev_call ev));
      [apply evaluate_emits|].
    intros past ev Hev. apply event_idle; revert Hev; by destruct (ev_call ev).
  - done.
  - intros. by apply call_idle.
  - intros. by apply call_idle.
  - done.
  - intros. by apply call_idle.
  - intros n o. apply_triple_call.
    + intros pre g r Hn. by apply (event_at_idle n).
    + intros pre g ? (Hjo & Hjz & Hc). split.
      * by rewrite just_after_snoc.
      * rewrite !count_returned_snoc. simpl. lia.
  - intros n o. apply_triple_call.
    + intros pre g r [Hjo Hc]. unfold sched_follows_opt. simpl.
      rewrite Hjo, (just_after_excl _ _ _ opt_not_zero Hjo). done.
    + intros pre g ? [Hjo Hc]. split.
      * by rewrite just_after2_snoc, Hjo.
      * rewrite !count_returned_snoc. simpl. lia.
  - intros n s Hs. apply_triple_call.
    + intros pre g r [Hj2 Hc]. unfold sched_follows_opt. simpl.
      pose proof (just_after2_last _ _ _ Hj2) as Hjz.
      rewrite Hj2, Hjz, (just_after_excl _ _ _ zero_not_opt Hjz).
      split; [|done]. by intros s' [= <-].
    + intros pre g ? [Hj2 Hc]. unfold idle.
      rewrite !just_after_snoc, !count_returned_snoc. simpl.
      split; [done|]. split; [done|lia].
  - intros n mdl _ _.
    exact (call_idle (n + 1) (sync_target_q_heads mdl) eq_refl eq_refl eq_refl).
  - done.
Qed.

End SchedulerSteps.

(** ** The constructor *)
Section Constructor.
Context `{PT : PyTypes} `{EX : !Externals}.

Lemma runs_py_truediv_inv a b g w r t w' :
  runs (py_truediv a b) g w r t w' → fdiv a b = Some r ∧ t = [].
Proof.
  unfold py_truediv. destruct (fdiv a b); [|by unfold runs, raise].
  intros [-> ->]%runs_ret_inv. done.
Qed.

Lemma init_runs globals hks cfg gpt tk mask tm g w self t w' :
  runs (__init__ globals hks cfg gpt tk mask tm) g w self t w' →
  ∃ mdl acc main,
    if tm : bool then
      ∃ params o ratio s,
        fdiv (learning_rate_target (train cfg))
             (learning_rate_init (train cfg)) = Some ratio ∧
        t = init_head globals cfg gpt g mdl acc main ++
            init_optimizer cfg g mdl params o ratio s ∧
        self = {| config := cfg; train_mode := true; hooks := hks;
                  model := mdl; max_length := gen_size (train cfg);
                  tokenizer := tk; logit_mask := mask; accelerator := acc;
                  opt := Some o; scheduler := Some s |}
    else
      t = init_head globals cfg gpt g mdl acc main ∧
      self = {| config := cfg; train_mode := false; hooks := hks;
                model := mdl; max_length := gen_size (train cfg);
                tokenizer := tk; logit_mask := mask; accelerator := acc;
                opt := None; scheduler := None |}.
Proof.
  unfold __init__, init_head, init_optimizer. intros Hr. runs_inv.
  destruct tm; runs_inv;
    repeat match goal with
    | H : runs (py_truediv _ _) _ _ _ _ _ |- _ =>
        apply runs_py_truediv_inv in H as [? ->]
    | H : runs (if ?b then _ else _) _ _ _ _ _ |- _ => destruct b
    end; runs_inv; unit_resp; simpl;
    match goal with
    | |- context [Ev _ (is_main_process _) (inr ?m)] => eexists _, _, m
    end; simpl; eauto 10.
Qed.

End Constructor.

Section ConstructorClaims.
Context `{PT : PyTypes} `{EX : !Externals}.

Lemma emits_py_truediv C a b : emits C (py_truediv a b).
Proof. unfold py_truediv. destruct (fdiv a b); [apply emits_ret|apply emits_raise]. Qed.

Lemma init_emits globals hks cfg gpt tk mask tm :
  emits (λ ev, is_init_call (ev_call ev) ∧
               (is_barrier (ev_call ev) →
                1 < WORLD_SIZE globals ∧
                ev_call ev = distributed_barrier [LOCAL_RANK globals]))
        (__init__ globals hks cfg gpt tk mask tm).
Proof.
  unfold __init__. repeat (first [apply emits_py_truediv|emits_step]).
  all: split; [done|]; try done.
Qed.

Lemma learn_result self g w self' t w' :
  runs (learn self) g w self' t w' → ∃ mdl o, self' = prepared self mdl o.
Proof. unfold learn. intros Hr. runs_inv. eauto. Qed.

(** C3. On an object that the constructor returned, and on that object
    after [learn] has returned, [get_components] raises nothing, calls
    nothing and returns a dictionary whose keys are exactly [model], [opt]
    and [scheduler], bound to [self.model], [self.opt] and
    [self.scheduler], when [train_mode] is true, and the single key [model],
    bound to [self.model], when it is false. *)
Theorem get_components_keys globals hks cfg gpt tk mask tm g w self t w' :
  runs (__init__ globals hks cfg gpt tk mask tm) g w self t w' →
  ∀ self1,
    (self1 = self ∨ ∃ g1 w1 t1 w1', runs (learn self) g1 w1 self1 t1 w1') →
    ∀ g2 w2, ∃ d,
      get_components self1 g2 w2 = mkOut (inr d) [] w2 ∧
      d !! "model" = Some (model self1) ∧
      if tm
      then dom d = ({["model"; "opt"; "scheduler"]} : gset string) ∧
           d !! "opt" = opt self1 ∧ d !! "scheduler" = scheduler self1
      else dom d = ({["model"]} : gset string).
Proof.
  intros Hr self1 Hself1 g2 w2.
  assert (train_mode self1 = tm ∧
          if tm then is_Some (opt self1) ∧ is_Some (scheduler self1)
          else True) as [Htm Hopt].
  { apply init_runs in Hr as (mdl & acc & main & Hr).
    destruct tm.
    - destruct Hr as (params & o & ratio & s & _ & _ & ->).
      destruct Hself1 as [->|(g1 & w1 & t1 & w1' & (m1 & o1 & ->)%learn_result)];
        simpl; eauto.
    - destruct Hr as [_ ->].
      destruct Hself1 as [->|(g1 & w1 & t1 & w1' & (m1 & o1 & ->)%learn_result)];
        simpl; eauto. }
  unfold get_components. rewrite Htm. destruct tm.
  - destruct Hopt as [[o ->] [s ->]]. simpl.
    eexists. split; [done|]. split; [done|]. split; [|done].
    rewrite !dom_insert_L, dom_singleton_L. set_solver.
  - eexists. split; [done|]. split; [apply lookup_singleton_eq|].
    by rewrite dom_singleton_L.
Qed.

(** C8. On an object constructed with a tokenizer, [tokenize] is one call
    of the tokenizer: on the texts, each with [bos_token] before it and
    [eos_token] after it, with [max_length] equal to [config.train.gen_size],
    truncation and padding requested, and PyTorch tensors ("pt") as return
    type; what the tokenizer answers is returned unchanged. *)
Theorem tokenize_calls_tokenizer globals hks cfg gpt tk mask tm g w self t w' :
  runs (__init__ globals hks cfg gpt (Some tk) mask tm) g w self t w' →
  ∀ texts g1 w1,
    tokenize self texts g1 w1 =
    call (tokenizer_call (tok tk)
            ((λ x, bos_token tk +:+ x +:+ eos_token tk) <$> texts)
            (gen_size (train cfg)) true true "pt") g1 w1.
Proof.
  intros Hr texts g1 w1.
  apply init_runs in Hr as (mdl & acc & main & Hr).
  destruct tm.
  - by destruct Hr as (params & o & ratio & s & _ & _ & ->).
  - by destruct Hr as [_ ->].
Qed.


End ConstructorClaims.

(** ** What an evaluation pass reports *)
Section Reward.
Context `{PT : PyTypes} `{EX : !Externals}.

(** C7. An evaluation pass that completes stacks the samples of this
    process, gathers them across processes into one tensor, and asks
    whether this is the main process.  On the main process,
    [reward_fn] is applied to the gathered tensor, its result is made a
    tensor whose [mean()] is stored in [logs] under ["reward"]; on any
    other process nothing is computed and [logs] is unchanged.  The
    iteration then sends to the tracker [logs] updated with the statistics
    of the loss: under ["reward"] the tracker receives that mean, unless
    the statistics of the loss have a key of that name. *)
Theorem evaluation_logs_mean_reward (self : ILQLModel) (el : obj) (g : bool) :
  (∀ logs w logs' t w',
     runs (evaluate self el logs) g w logs' t w' →
     ∃ ps outs stacked gathered main report,
       t = pass_events self el g ps outs stacked gathered main report ∧
       length outs = length ps ∧
       if main : bool
       then ∃ rewards_list rewards reward rest,
              report = reward_events self g gathered rewards_list rewards
                         reward ++ rest ∧
              logs' !! "reward" = Some reward
       else report = [] ∧ logs' = logs) ∧
  (∀ n logs batch w st' t w',
     runs (train_step self el (n, logs) batch) g w st' t w' →
     Z.divide (eval_interval (train (config self))) n →
     ∃ logs1 pass w0 w1 loss stats rest,
       runs (evaluate self el logs) g w0 logs1 pass w1 ∧
       t = pass
           ++ Ev g (model_loss (model self) batch) (inr (loss, stats))
           :: Ev g (accelerator_log (accelerator self) (stats ∪ logs1))
                (inr ())
           :: rest ∧
       (stats !! "reward" = None →
        (stats ∪ logs1) !! "reward" = logs1 !! "reward")).
Proof.
  split.
  - intros logs w logs' t w' Hr.
    apply evaluate_runs in Hr
      as (ps & outs & stacked & gathered & main & report & -> & Hlen & Hm).
    exists ps, outs, stacked, gathered, main, report.
    split; [done|]. split; [done|]. destruct main; [|done].
    destruct Hm as (w1 & w2 & Hm).
    by apply main_process_report_runs in Hm.
  - intros n logs batch w st' t w' Hr Hdiv. unfold train_step in Hr.
    cbn [fst snd] in Hr. runs_inv. subst.
    assert (n `mod` eval_interval (train (config self)) = 0) as Hm
      by (by apply Z.mod_divide).
    rewrite Hm in *. simpl in *. runs_inv. unit_resp.
    match goal with
    | H : runs (evaluate _ _ _) _ ?w0 ?l ?p ?w1 |- _ =>
        exists l, p, w0, w1
    end.
    match goal with
    | |- context [Ev _ (model_loss _ _) (inr ?out)] => destruct out as [loss stats]
    end.
    eexists loss, stats, _. split; [done|]. split.
    + simpl. done.
    + intros Hs. by apply lookup_union_r.
Qed.
End Reward.

(** ** Without a tokenizer *)
Section NoTokenizer.
Context `{PT : PyTypes} `{EX : !Externals}.

Lemma bind_call_first {B} c (f : resp c → M B) g w :
  ∃ rest, tr ((call c ≫= f) g w) = Ev g c (handler c w).1 :: rest.
Proof.
  destruct (res (call c g w)) as [e|a] eqn:E.
  - rewrite (bind_inl _ _ _ _ _ E). simpl. eauto.
  - rewrite (bind_inr _ _ _ _ _ E). simpl. eauto.
Qed.

Lemma env_flag_set key : env_flag key = true → is_Some (environ !! key).
Proof. unfold env_flag. destruct (environ !! key); [eauto|done]. Qed.

Lemma bind_call_then {B} c (f : resp c → M B) g w a :
  res (call c g w) = inr a →
  tr ((call c ≫= f) g w) =
  Ev g c (inr a) :: tr (f a g (world (call c g w))).
Proof.
  intros E. rewrite (bind_inr _ _ _ _ _ E). simpl in *. by rewrite E.
Qed.

Lemma evaluate_no_text self el logs :
  tokenizer self = None →
  emits (λ ev, loader_eos_zero ev ∧ no_text_report ev)
        (evaluate self el logs).
Proof.
  intros Htk. unfold evaluate, sample_all, sample_one, main_process_report.
  rewrite Htk. unfold loader_eos_zero, no_text_report.
  repeat emits_step.
  all: split; [done|]; split; [done|]; try done.
  intros _. split; [done|]. by apply env_flag_set.
Qed.

Lemma learn_no_text self :
  tokenizer self = None →
  emits (λ ev, loader_eos_zero ev ∧ no_text_report ev) (learn self).
Proof.
  intros Htk. unfold learn, epoch_loop, train_step. rewrite Htk.
  repeat first
    [ apply evaluate_no_text; done
    | emits_step ].
  all: split; [|by split]; try done.
  by intros store bsize eos [= _ _ <-].
Qed.

(** C10. On an object without a tokenizer, [learn] creates the training
    loader with [eos_token_id] 0 (its first call after the timer is made),
    and in the whole run decodes no sample to text, builds no table and
    prints no text; the only printing is that of the gathered samples as
    they are, which happens only when the environment variable [DEBUG] is
    set. *)
Theorem learn_without_tokenizer (self : ILQLModel) (g : bool) (w : W) :
  tokenizer self = None →
  (∀ ev, ev ∈ tr (learn self g w) → loader_eos_zero ev ∧ no_text_report ev) ∧
  (∀ timer, res (call Clock_new g w) = inr timer →
     ∃ r rest,
       tr (learn self g w) =
       Ev g Clock_new (inr timer)
       :: Ev g (create_train_loader (train_store (hooks self))
                  (batch_size (train (config self))) 0) r
       :: rest).
Proof.
  intros Htk. split; [by apply learn_no_text|].
  intros timer E. unfold learn. rewrite Htk.
  match goal with
  | |- context [tr ((call Clock_new ≫= ?f) g w)] =>
      pose proof (bind_call_then Clock_new f g w timer E) as H1
  end.
  cbv beta zeta in H1.
  match type of H1 with
  | _ = _ :: tr ((call ?c ≫= ?f2) g ?w1) =>
      destruct (bind_call_first c f2 g w1) as [rest E2]
  end.
  eexists _, rest. etransitivity; [exact H1|]. f_equal. exact E2.
Qed.

End NoTokenizer.

(** ** Errors propagate *)
Section Errors.
Context `{PT : PyTypes} `{EX : !Externals}.

Lemma faithful_ret {A} (a : A) : faithful (ret a).
Proof. intros g w. unfold propagates. simpl. constructor. Qed.

Lemma faithful_raise {A} e :
  raised_by_interpreter e = true → faithful (raise (A := A) e).
Proof.
  intros He g w. unfold propagates. simpl. right. split; [by rewrite He|constructor].
Qed.

Lemma faithful_call c : faithful (call c).
Proof.
  intros g w. unfold propagates. rewrite call_tr.
  destruct (res (call c g w)) as [e|a] eqn:E.
  - left. exists [], (Ev g c (inl e)). split; [done|]. split; [constructor|done].
  - repeat constructor.
Qed.

Lemma faithful_bind {A B} (m : M A) (f : A → M B) :
  faithful m → (∀ a, faithful (f a)) → faithful (m ≫= f).
Proof.
  intros Hm Hf g w. specialize (Hm g w). unfold propagates in *.
  destruct (res (m g w)) as [e|a] eqn:E.
  - by rewrite (bind_inl _ _ _ _ _ E).
  - rewrite (bind_inr _ _ _ _ _ E). simpl.
    specialize (Hf a g (world (m g w))). unfold propagates in Hf.
    destruct (res (f a g (world (m g w)))) as [e|b].
    + destruct Hf as [(t & ev & -> & Ht & Hev)|[He Ht]].
      * left. exists (tr (m g w) ++ t), ev. rewrite app_assoc.
        split; [done|]. split; [by apply Forall_app|done].
      * right. split; [done|by apply Forall_app].
    + by apply Forall_app.
Qed.

Lemma faithful_with_no_grad {A} (m : M A) : faithful m → faithful (with_no_grad m).
Proof. intros Hm g w. apply Hm. Qed.

Lemma faithful_foldM {S A} (f : S → A → M S) l s :
  (∀ s x, faithful (f s x)) → faithful (foldM f l s).
Proof.
  intros Hf. revert s. induction l as [|x l IH]; intros s; simpl.
  - apply faithful_ret.
  - apply faithful_bind; auto.
Qed.

Lemma faithful_getattr {A} name (o : option A) : faithful (getattr name o).
Proof. destruct o; [apply faithful_ret|by apply faithful_raise]. Qed.

Lemma faithful_py_mod a b : faithful (py_mod a b).
Proof.
  unfold py_mod. case_decide; [by apply faithful_raise|apply faithful_ret].
Qed.

Lemma faithful_py_truediv a b : faithful (py_truediv a b).
Proof.
  unfold py_truediv.
  destruct (fdiv a b); [apply faithful_ret|by apply faithful_raise].
Qed.

Lemma propagates_failed {A} (o : Out A) ev e :
  propagates o → ev ∈ tr o → failed ev = Some e →
  res o = inl e ∧ last (tr o) = Some ev.
Proof.
  unfold propagates.
  assert (∀ t, Forall (λ ev, succeeded ev) t → ev ∈ t → failed ev = None)
    as Hok.
  { intros t Ht Hev. rewrite Forall_forall in Ht. specialize (Ht _ Hev).
    unfold succeeded, failed in *. by destruct (ev_resp ev). }
  intros Ho Hev He. destruct (res o) as [e'|a].
  - destruct Ho as [(t & ev' & E & Ht & He')|[_ Ht]].
    + rewrite E in Hev |- *. apply elem_of_app in Hev as [Hev|Hev].
      * rewrite (Hok _ Ht Hev) in He. done.
      * apply list_elem_of_singleton in Hev as ->.
        rewrite last_snoc. split; [congruence|done].
    + rewrite (Hok _ Ht Hev) in He. done.
  - rewrite (Hok _ Ho Hev) in He. done.
Qed.

End Errors.

Ltac faithful_step :=
  first
    [ apply faithful_ret | apply faithful_getattr | apply faithful_py_mod
    | apply faithful_py_truediv
    | match goal with |- faithful (call ?c) => exact (faithful_call c) end
    | apply faithful_raise; reflexivity
    | apply faithful_with_no_grad
    | apply faithful_foldM; intros ??
    | apply faithful_bind; [|intros ?]
    | match goal with
      | |- faithful (if decide ?P then _ else _) => destruct (decide P)
      | |- faithful (if ?b then _ else _) => destruct b
      | |- faithful (match ?x with _ => _ end) => destruct x
      end ].

Section ErrorsClaim.
Context `{PT : PyTypes} `{EX : !Externals}.

Lemma init_faithful globals hks cfg gpt tk mask tm :
  faithful (__init__ globals hks cfg gpt tk mask tm).
Proof. unfold __init__. repeat faithful_step. Qed.

Lemma tokenize_faithful self texts : faithful (tokenize self texts).
Proof. unfold tokenize. repeat faithful_step. Qed.

Lemma get_components_faithful self : faithful (get_components self).
Proof. unfold get_components. repeat faithful_step. Qed.

Lemma learn_faithful self : faithful (learn self).
Proof.
  unfold learn, epoch_loop, train_step, evaluate, sample_all, sample_one,
    main_process_report.
  repeat faithful_step.
Qed.

(** C6. In every run of the constructor, [tokenize], [get_components] and
    [learn], an exception raised by a library call ends the run at that
    call and is the exception the caller gets, unchanged; an exception the
    caller gets is either such a one or one that the interpreter raises
    while it evaluates this file ([ZeroDivisionError], [AttributeError],
    [TypeError]), never one defined by this module; and when the run
    returns, every call has returned. *)
Theorem errors_propagate :
  (∀ globals hks cfg gpt tk mask tm g w,
     propagates (__init__ globals hks cfg gpt tk mask tm g w) ∧
     stops_at_failure (__init__ globals hks cfg gpt tk mask tm g w)) ∧
  (∀ self texts g w,
     propagates (tokenize self texts g w) ∧
     stops_at_failure (tokenize self texts g w)) ∧
  (∀ self g w,
     propagates (get_components self g w) ∧
     stops_at_failure (get_components self g w)) ∧
  (∀ self g w,
     propagates (learn self g w) ∧ stops_at_failure (learn self g w)).
Proof.
  assert (∀ A (m : M A), faithful m →
            ∀ g w, propagates (m g w) ∧ stops_at_failure (m g w)) as Hall.
  { intros A m Hm g w. split; [apply Hm|].
    intros ev e. apply propagates_failed, Hm. }
  split; [|split; [|split]]; intros; apply Hall.
  - apply init_faithful.
  - apply tokenize_faithful.
  - apply get_components_faithful.
  - apply learn_faithful.
Qed.

End ErrorsClaim.

(** ** Running [learn] call by call *)
Section Stepping.
Context `{PT : PyTypes} `{EX : !Externals}.

Lemma bind_call {B} c (f : resp c → M B) g w :
  (call c ≫= f) g w =
  match (handler c w).1 with
  | inl e => mkOut (inl e) [Ev g c (inl e)] (handler c w).2
  | inr a =>
      mkOut (res (f a g (handler c w).2))
            (Ev g c (inr a) :: tr (f a g (handler c w).2))
            (world (f a g (handler c w).2))
  end.
Proof.
  unfold mbind, M_bind, bind, call. cbv zeta. simpl.
  by destruct (handler c w) as [[e|a] w1].
Qed.

Lemma learn_cases self g w :
  (∃ e, res (learn self g w) = inl e ∧
        (length (tr (learn self g w)) ≤ 4)%nat ∧
        (∀ ev, ev ∈ tr (learn self g w) →
           is_setup_call (ev_call ev) ∧
           (is_prepare (ev_call ev) → failed ev = Some e)) ∧
        (Forall (λ ev, succeeded ev) (tr (learn self g w)) →
         e = AttributeError "opt" ∧ opt self = None ∧
         length (tr (learn self g w)) = 3%nat)) ∨
  (∃ timer tl el o p w1,
     opt self = Some o ∧
     tr (learn self g w) =
       setup_events self g timer tl el o p ++ tr (epochs_loop self p g w1) ∧
     res (learn self g w) =
       match res (epochs_loop self p g w1) with
       | inl e => inl e
       | inr _ => inr (prepared self p.1.1.1 p.1.1.2)
       end).
Proof.
  unfold learn. rewrite (bind_call Clock_new).
  destruct (handler Clock_new w) as [[e|timer] w1]; simpl.
  { left. exists e. split; [done|]. split; [simpl; lia|]. split.
    - apply Forall_forall. by repeat constructor.
    - intros Hs. by inversion Hs. }
  rewrite (bind_call (create_train_loader _ _ _)).
  destruct (handler (create_train_loader _ _ _) w1) as [[e|tl] w2]; simpl.
  { left. exists e. split; [done|]. split; [simpl; lia|]. split.
    - apply Forall_forall. by repeat constructor.
    - intros Hs. inversion Hs as [|?? _ Hs']. by inversion Hs'. }
  rewrite (bind_call (create_eval_loader _ _ _)).
  destruct (handler (create_eval_loader _ _ _) w2) as [[e|el] w3]; simpl.
  { left. exists e. split; [done|]. split; [simpl; lia|]. split.
    - apply Forall_forall. by repeat constructor.
    - intros Hs. inversion Hs as [|?? _ Hs']. inversion Hs' as [|?? _ Hs''].
      by inversion Hs''. }
  destruct (opt self) as [o|] eqn:Ho; simpl.
  2: { left. exists (AttributeError "opt"). split; [done|].
       split; [simpl; lia|]. split; [|done].
       apply Forall_forall. by repeat constructor. }
  change (ret o ≫= ?f) with (f o). cbv beta.
  rewrite (bind_call (accelerator_prepare _ _ _ _ _)).
  destruct (handler (accelerator_prepare _ _ _ _ _) w3) as [[e|p] w4]; simpl.
  { left. exists e. split; [done|]. split; [simpl; lia|]. split.
    - apply Forall_forall. by repeat constructor.
    - intros Hs. inversion Hs as [|?? _ Hs']. inversion Hs' as [|?? _ Hs''].
      inversion Hs'' as [|?? _ Hs3]. by inversion Hs3. }
  right. exists timer, tl, el, o, p, w4. split; [done|].
  unfold epochs_loop.
  destruct (res (foldM _ _ _ g w4)) as [e|n] eqn:E.
  - rewrite (bind_inl _ _ _ _ _ E). done.
  - rewrite (bind_inr _ _ _ _ _ E). simpl. by rewrite app_nil_r.
Qed.

End Stepping.

Section Steps.
Context `{PT : PyTypes} `{EX : !Externals}.

Lemma bind_ret {A B} (a : A) (f : A → M B) g w : (ret a ≫= f) g w = f a g w.
Proof. unfold mbind, M_bind, bind, ret. simpl. by destruct (f a g w). Qed.

Lemma bind_raise {A B} e (f : A → M B) g w :
  (raise e ≫= f) g w = mkOut (inl e) [] w.
Proof. done. Qed.

Lemma emits_getattr_bind {A B} C name (o : option A) (f : A → M B) :
  (∀ a, o = Some a → emits C (f a)) → emits C (getattr name o ≫= f).
Proof.
  intros Hf g w ev. destruct o as [a|]; unfold getattr.
  - rewrite (bind_ret a). by apply Hf.
  - rewrite (bind_raise (AttributeError name)). simpl.
    by intros ?%elem_of_nil.
Qed.

End Steps.

(** Runs the next step of the goal, a call in both of its outcomes. *)
Ltac step :=
  match goal with
  | |- context [(call ?c ≫= _) _ _] =>
      rewrite (bind_call c);
      destruct (handler c _) as [[?|?] ?]; simpl
  | |- context [(ret ?a ≫= _) _ _] => rewrite (bind_ret a); simpl
  | |- context [(raise ?e ≫= _) _ _] => rewrite (bind_raise e); simpl
  | |- context [if decide ?P then _ else _] => destruct (decide P)
  | |- context [if ?b then _ else _] => is_var b; destruct b
  end.

(** Closes a goal about a run whose events are all known. *)
Ltac known_run :=
  eexists; split; [done|]; split;
  [apply Forall_forall; by repeat constructor|];
  intros ?; first [by decompose_Forall_hyps | done | by split].

(** ** The batches a run trains on *)
Section Batches.
Context `{PT : PyTypes} `{EX : !Externals}.

Lemma loss_batches_app t t' :
  loss_batches (t ++ t') = loss_batches t ++ loss_batches t'.
Proof. apply omap_app. Qed.

Lemma loss_batches_none t :
  (∀ ev, ev ∈ t → is_loss (ev_call ev) = false) → loss_batches t = [].
Proof.
  induction t as [|ev t IH]; intros Hall; [done|].
  unfold loss_batches in *. simpl.
  assert (loss_batch ev = None) as ->.
  { specialize (Hall ev (list_elem_of_here _ _)).
    unfold loss_batch. by destruct (ev_call ev). }
  apply IH. intros ev' Hev. apply Hall. by constructor.
Qed.

Lemma evaluate_no_loss self el logs g w :
  loss_batches (tr (evaluate self el logs g w)) = [] ∧
  opt_steps_of (tr (evaluate self el logs g w)) = 0.
Proof.
  split.
  - apply loss_batches_none. intros ev Hev%evaluate_emits.
    revert Hev. by destruct (ev_call ev).
  - apply opt_steps_of_none. intros ev Hev%evaluate_emits.
    revert Hev. by destruct (ev_call ev).
Qed.

Lemma runs_tr {A} (m : M A) g w a t w' :
  runs m g w a t w' → tr (m g w) = t ∧ res (m g w) = inr a.
Proof. unfold runs. by intros ->. Qed.

Lemma train_step_one_batch self el st batch g w st' t w' :
  runs (train_step self el st batch) g w st' t w' →
  loss_batches t = [batch] ∧ opt_steps_of t = 1 ∧ st'.1 = st.1 + 1.
Proof.
  unfold train_step. intros Hr. runs_inv.
  repeat match goal with
  | H : runs (if decide ?P then _ else _) _ _ _ _ _ |- _ =>
      destruct (decide P); runs_inv
  end.
  all: try match goal with
       | H : runs (evaluate _ _ _) _ _ _ _ _ |- _ =>
           apply runs_tr in H as [<- _]
       end.
  all: rewrite ?loss_batches_app, ?opt_steps_of_app;
    rewrite ?(proj1 (evaluate_no_loss _ _ _ _ _)),
            ?(proj2 (evaluate_no_loss _ _ _ _ _)); done.
Qed.

Lemma train_steps_batches self el batches st g w st' t w' :
  runs (foldM (train_step self el) batches st) g w st' t w' →
  loss_batches t = batches ∧
  opt_steps_of t = Z.of_nat (length batches) ∧
  st'.1 = st.1 + Z.of_nat (length batches).
Proof.
  revert st w t. induction batches as [|b bs IH]; intros st w t Hr;
    simpl in Hr; runs_inv.
  - split; [done|]. split; [done|]. simpl. lia.
  - match goal with
    | H : runs (train_step _ _ _ _) _ _ _ _ _ |- _ =>
        apply train_step_one_batch in H as (Hl & Hn & Hs)
    end.
    match goal with
    | H : runs (foldM _ _ _) _ _ _ _ _ |- _ =>
        apply IH in H as (Hl' & Hn' & Hs')
    end.
    rewrite loss_batches_app, opt_steps_of_app, Hl, Hl', Hn, Hn', Hs', Hs.
    split; [done|]. simpl length. lia.
Qed.

Lemma epoch_loop_batches self tl el n epoch g w n' t w' :
  runs (epoch_loop self tl el n epoch) g w n' t w' →
  ∃ (batches : list obj) rest,
    t = Ev g (iterate tl) (inr batches) :: rest ∧
    loss_batches rest = batches ∧
    opt_steps_of rest = Z.of_nat (length batches) ∧
    n' = n + Z.of_nat (length batches).
Proof.
  unfold epoch_loop. intros Hr. runs_inv.
  match goal with
  | H : runs (foldM _ _ _) _ _ _ _ _ |- _ =>
      apply train_steps_batches in H as (Hl & Hn & Hs)
  end.
  eexists _, _. split; [simpl; by rewrite app_nil_r|]. done.
Qed.

Lemma epochs_batches self tl el epochs n g w n' t w' :
  runs (foldM (epoch_loop self tl el) epochs n) g w n' t w' →
  ∃ bss : list (list obj),
    length bss = length epochs ∧
    Forall (λ bs : list obj, Ev g (iterate tl) (inr bs) ∈ t) bss ∧
    loss_batches t = concat bss ∧
    opt_steps_of t = Z.of_nat (length (concat bss)) ∧
    n' = n + Z.of_nat (length (concat bss)).
Proof.
  revert n w t. induction epochs as [|epoch epochs IH]; intros n w t Hr;
    simpl in Hr; runs_inv.
  - exists []. simpl. repeat split; [constructor|lia].
  - match goal with
    | H : runs (epoch_loop _ _ _ _ _) _ _ _ _ _ |- _ =>
        apply epoch_loop_batches in H
          as (bs & rest & -> & Hl & Hn & ->)
    end.
    match goal with
    | H : runs (foldM _ _ _) _ _ _ _ _ |- _ =>
        apply IH in H as (bss & Hlen & Hall & Hl' & Hn' & ->)
    end.
    exists (bs :: bss). split; [simpl; congruence|]. split.
    { constructor; [by constructor|].
      eapply Forall_impl; [exact Hall|]. intros bs' Hbs. simpl in Hbs.
      apply elem_of_cons. right. apply elem_of_app. by right. }
    rewrite loss_batches_app, opt_steps_of_app.
    change (loss_batches (Ev g (iterate tl) (inr bs) :: rest))
      with (loss_batches rest).
    change (opt_steps_of (Ev g (iterate tl) (inr bs) :: rest))
      with (opt_steps_of rest).
    rewrite Hl, Hl', Hn, Hn'. simpl concat. rewrite length_app.
    split; [done|]. lia.
Qed.

Lemma length_range n : length (range n) = Z.to_nat n.
Proof. unfold range. by rewrite length_fmap, length_seq. Qed.

Lemma learn_batches (self self' : ILQLModel) g w t w' :
  runs (learn self) g w self' t w' →
  ∃ timer tl el o p (bss : list (list obj)),
    t = setup_events self g timer tl el o p ++ drop 4 t ∧
    length bss = Z.to_nat (epochs (train (config self))) ∧
    Forall (λ bs : list obj, Ev g (iterate p.1.2) (inr bs) ∈ t) bss ∧
    loss_batches t = concat bss ∧
    opt_steps_of t = Z.of_nat (length (concat bss)).
Proof.
  unfold learn. intros Hr. runs_inv.
  match goal with
  | H : runs (foldM _ _ _) _ _ _ _ _ |- _ =>
      apply epochs_batches in H as (bss & Hlen & Hall & Hl & Hn & _)
  end.
  rewrite length_range in Hlen.
  eexists _, _, _, _, _, bss. split; [by simpl|].
  split; [done|]. split.
  { eapply Forall_impl; [exact Hall|]. intros bs Hbs. simpl in Hbs |- *.
    rewrite app_nil_r. do 4 (apply elem_of_cons; right). done. }
  simpl. rewrite app_nil_r. split; [done|].
  match goal with
  | |- opt_steps_of (?a :: ?b :: ?c :: ?d :: ?t0) = _ =>
      change (opt_steps_of (a :: b :: c :: d :: t0)) with (opt_steps_of t0)
  end.
  done.
Qed.

End Batches.

(** ** When evaluation runs *)
Section EvalSchedule.
Context `{PT : PyTypes} `{EX : !Externals}.
Variable self : ILQLModel.
Variable p : obj * obj * obj * obj.
Let k := eval_interval (train (config self)).

Lemma since_setup_app past t :
  since_setup self p past → since_setup self p (past ++ t).
Proof.
  intros (g & timer & tl & el & o & rest & ->).
  exists g, timer, tl, el, o, (rest ++ t). by rewrite app_assoc.
Qed.

Lemma call_keeps_step n c :
  is_loss c = false → is_sched_step c = false → is_model_train c = false →
  triple (eval_iff_due self) (at_step_on self p n) (call c)
    (λ _, at_step_on self p n).
Proof.
  intros Hl Hs Ht. apply triple_call.
  - intros pre g r _. unfold eval_iff_due. simpl. by rewrite Hl.
  - intros pre g a [Hp [Hn Hj]]. split; [by apply since_setup_app|]. split.
    + rewrite opt_steps_of_snoc. unfold returned. simpl. rewrite Hs. simpl. lia.
    + rewrite just_after_snoc. unfold returned. simpl. by rewrite Ht.
Qed.

Lemma evaluate_eval_schedule n logs :
  Z.divide k n →
  triple (eval_iff_due self) (at_step_on self p n)
    (evaluate (prepared self p.1.1.1 p.1.1.2) p.2 logs)
    (λ _, at_loss self p n).
Proof.
  intros Hdiv pre g w [Hp [Hn Hj]]. split.
  - eapply emits_safe; [apply evaluate_emits|].
    intros past ev. unfold eval_iff_due. by destruct (ev_call ev).
  - intros logs' Hr. split; [by apply since_setup_app|]. split.
    + rewrite opt_steps_of_app, (opt_steps_of_none (tr _)); [lia|].
      intros ev Hev%evaluate_emits. revert Hev. by destruct (ev_call ev).
    + split; [|done]. intros _. eexists pre, _. split; [done|].
      exists logs, g, w, logs'. eexists. by apply runs_intro.
Qed.

(** Lines 85-137 on the prepared model and evaluation loader. *)
Lemma train_step_eval_schedule (st : Z * gmap string obj) batch :
  triple (eval_iff_due self) (at_step_on self p st.1)
    (train_step (prepared self p.1.1.1 p.1.1.2) p.2 st batch)
    (λ st', at_step_on self p st'.1).
Proof.
  destruct st as [n logs]. unfold train_step. cbn [fst snd].
  change (config (prepared self p.1.1.1 p.1.1.2)) with (config self).
  fold k.
  eapply triple_bind; [apply triple_py_mod|]. intros r.
  apply triple_pure. intros [Hk ->].
  eapply triple_bind with (R := λ _, at_loss self p n).
  { destruct (decide (n `mod` k = 0)) as [Hm|Hm].
    - apply evaluate_eval_schedule. by apply Z.mod_divide.
    - apply triple_ret. intros pre [Hp [<- Hj]].
      split; [done|]. split; [done|]. split.
      + by intros ?%Z.mod_divide.
      + intros (t0 & pass & -> & Hpass%evaluation_pass_on_any).
        by rewrite (evaluation_pass_last _ _ _ Hpass) in Hj. }
  intros logs1.
  eapply triple_bind with (R := λ _, at_step_on self p n).
  { apply_triple_call.
    - intros pre g r (Hp & Hn & Hd) _. exists p. split; [done|].
      by rewrite Hn.
    - intros pre g ? (Hp & Hn & _).
      split; [by apply since_setup_app|]. split.
      + rewrite opt_steps_of_snoc. simpl. lia.
      + by rewrite just_after_snoc. }
  intros out.
  eapply triple_bind; [apply triple_py_mod|]. intros r.
  apply triple_pure. intros [_ ->].
  eapply triple_bind with (R := λ _, at_step_on self p n).
  { destruct (decide (n `mod` k = 0)); [|by apply triple_ret].
    eapply triple_bind; [by apply call_keeps_step|].
    intros ?. by apply triple_ret. }
  intros logs2.
  eapply triple_bind; [by apply call_keeps_step|]. intros ?.
  eapply triple_bind; [apply triple_getattr|]. intros o1.
  apply triple_pure. intros _.
  eapply triple_bind; [by apply call_keeps_step|]. intros ?.
  eapply triple_bind; [apply triple_getattr|]. intros o2.
  apply triple_pure. intros _.
  eapply triple_bind; [by apply call_keeps_step|]. intros ?.
  eapply triple_bind; [apply triple_getattr|]. intros s.
  apply triple_pure. intros _.
  eapply triple_bind with (R := λ _, at_step_on self p (n + 1)).
  { apply_triple_call.
    - intros pre g ? _ Hl. destruct Hl.
    - intros pre g ? [Hp [Hn Hj]].
      split; [by apply since_setup_app|]. split.
      + rewrite opt_steps_of_snoc. simpl. lia.
      + by rewrite just_after_snoc. }
  intros ?.
  eapply triple_bind; [apply triple_py_mod|]. intros r.
  apply triple_pure. intros _.
  eapply triple_bind with (R := λ _, at_step_on self p (n + 1)).
  { destruct (decide (r = 0)); [by apply call_keeps_step|by apply triple_ret]. }
  intros ?. by apply triple_ret.
Qed.

(** Lines 80-137. *)
Lemma epochs_loop_eval_schedule :
  triple (eval_iff_due self) (at_step_on self p 0) (epochs_loop self p)
    (at_step_on self p).
Proof.
  unfold epochs_loop. apply (triple_foldM _ (at_step_on self p)).
  intros n epoch. unfold epoch_loop.
  eapply triple_bind; [by apply call_keeps_step|]. intros batches.
  eapply triple_bind.
  { apply (triple_foldM _
             (λ st : Z * gmap string obj, at_step_on self p st.1) _ _ (n, ∅)).
    apply train_step_eval_schedule. }
  intros st. by apply triple_ret.
Qed.

End EvalSchedule.

Section EvalScheduleRun.
Context `{PT : PyTypes} `{EX : !Externals}.

Lemma setup_events_no_loss self g timer tl el o p ev :
  ev ∈ setup_events self g timer tl el o p → is_loss (ev_call ev) = false.
Proof.
  revert ev. apply Forall_forall. unfold setup_events. by repeat constructor.
Qed.

Lemma learn_eval_schedule self g w :
  safe (eval_iff_due self) [] (tr (learn self g w)).
Proof.
  destruct (learn_cases self g w)
    as [(e & _ & _ & Hall & _)|(timer & tl & el & o & p & w1 & _ & -> & _)].
  - apply safe_all. intros past ev Hev Hl. destruct (Hall ev Hev) as [Hs _].
    revert Hs Hl. by destruct (ev_call ev).
  - apply safe_app.
    + apply safe_all. intros past ev Hev%setup_events_no_loss.
      unfold eval_iff_due. by rewrite Hev.
    + apply (epochs_loop_eval_schedule self p). split; [|by split].
      exists g, timer, tl, el, o, []. by rewrite app_nil_r.
Qed.

End EvalScheduleRun.

Section EvalScheduleClaim.
Context `{PT : PyTypes} `{EX : !Externals}.

(** C1. In every run of [learn], whenever the loss of a training batch is
    computed, the set-up of lines 70-78 has completed and an evaluation
    pass (lines 86-122) has just been completed if and only if the number
    [n] of optimizer steps made so far is a multiple of [eval_interval];
    in particular one has, before the first optimizer step.  The pass is
    one on the model and the evaluation loader that [accelerator.prepare]
    answered for the model and the loader of [eval_pipeline]: it switches
    that model to evaluation mode, asks that loader for its batches, draws
    one sample per batch with gradients disabled, stacks and gathers them,
    reports into [logs], and switches back to training mode.  The
    dictionary [logs] is sent to the tracker in the same iterations:
    [accelerator.log] is called exactly when the loss has just been
    computed at a counter that is a multiple of [eval_interval]. *)
Theorem learn_evaluates_when_due (self : ILQLModel) (g : bool) (w : W) :
  safe (eval_iff_due self) [] (tr (learn self g w)) ∧
  safe (λ past ev, is_loss (ev_call ev) → opt_steps_of past = 0 →
                   ∃ p, since_setup self p past ∧ ends_with_pass self p past)
       [] (tr (learn self g w)) ∧
  safe (log_iff_due self) [] (tr (learn self g w)) ∧
  ∀ p pass, evaluation_pass_on self p pass →
    ∃ g ps outs stacked gathered main report,
      pass = pass_events (prepared self p.1.1.1 p.1.1.2) p.2 g ps outs
               stacked gathered main report ∧
      length outs = length ps.
Proof.
  pose proof (learn_eval_schedule self g w) as Hs.
  split; [done|]. split; [|split].
  - intros t1 ev t2 E Hl Hn.
    destruct (Hs t1 ev t2 E Hl) as (p & Hp & Hdue & _).
    exists p. split; [done|].
    apply Hdue. simpl in Hn |- *. rewrite Hn. apply Z.divide_0_r.
  - by apply (learn_log_schedule self [] g w).
  - intros p pass (logs & g' & w0 & logs' & w' & Hr).
    apply evaluate_runs in Hr
      as (ps & outs & stacked & gathered & main & report & -> & Hlen & _).
    by exists g', ps, outs, stacked, gathered, main, report.
Qed.

End EvalScheduleClaim.

(** ** How a run ends *)
Section Leaves.
Context `{PT : PyTypes} `{EX : !Externals}.

Lemma leaves_ret {A} (P : list Event → Prop) (a : A)
    (Q : A → list Event → Prop) E :
  (∀ pre, P pre → Q a pre) → leaves P (ret a) Q E.
Proof. intros HQ pre g w HP. simpl. rewrite app_nil_r. auto. Qed.

Lemma leaves_bind {A B} P (m : M A) (f : A → M B) R Q E :
  leaves P m R E → (∀ a, leaves (R a) (f a) Q E) → leaves P (m ≫= f) Q E.
Proof.
  intros Hm Hf pre g w HP. specialize (Hm pre g w HP).
  destruct (res (m g w)) as [e|a] eqn:Hres.
  - by rewrite (bind_inl _ _ _ _ _ Hres).
  - rewrite (bind_inr _ _ _ _ _ Hres). simpl. rewrite app_assoc.
    by apply Hf.
Qed.

Lemma leaves_call P c (Q : resp c → list Event → Prop) E :
  (∀ pre g e, P pre → E (pre ++ [Ev g c (inl e)])) →
  (∀ pre g a, P pre → Q a (pre ++ [Ev g c (inr a)])) →
  leaves P (call c) Q E.
Proof.
  intros HE HQ pre g w HP. unfold call. cbv zeta.
  destruct (handler c w) as [[e|a] w1]; simpl; auto.
Qed.

Lemma leaves_foldM {S A} (I : S → list Event → Prop) (f : S → A → M S) l s
    E :
  (∀ s x, leaves (I s) (f s x) I E) → leaves (I s) (foldM f l s) I E.
Proof.
  intros Hf. revert s. induction l as [|x l IH]; intros s; simpl.
  - by apply leaves_ret.
  - eapply leaves_bind; [apply Hf|]. intros s'. apply IH.
Qed.

Lemma leaves_getattr_bind {A B} P name (o : option A) (f : A → M B) Q E :
  (o = None → ∀ pre, P pre → E pre) →
  (∀ a, o = Some a → leaves P (f a) Q E) →
  leaves P (getattr name o ≫= f) Q E.
Proof.
  intros HE Hf pre g w HP. destruct o as [a|]; unfold getattr.
  - rewrite (bind_ret a). by apply Hf.
  - rewrite (bind_raise (AttributeError name)). simpl. rewrite app_nil_r.
    by apply HE.
Qed.

Lemma leaves_py_mod_bind {B} P a b (f : Z → M B) Q E :
  (b = 0 → ∀ pre, P pre → E pre) →
  (b ≠ 0 → leaves P (f (a `mod` b)) Q E) →
  leaves P (py_mod a b ≫= f) Q E.
Proof.
  intros HE Hf pre g w HP. unfold py_mod. destruct (decide (b = 0)).
  - rewrite (bind_raise ZeroDivisionError). simpl. rewrite app_nil_r.
    by apply HE.
  - rewrite (bind_ret (a `mod` b)). by apply Hf.
Qed.

(** Code whose events all keep [I] ends in [I], however it ends. *)
Lemma leaves_emits {A} (C : Event → Prop) (I : list Event → Prop) (m : M A) :
  emits C m → (∀ past ev, C ev → I past → I (past ++ [ev])) →
  leaves I m (λ _, I) I.
Proof.
  intros Hm Hstep pre g w Hpre.
  assert (∀ t, (∀ ev, ev ∈ t → C ev) → ∀ pre, I pre → I (pre ++ t)) as Hall.
  { clear pre Hpre. induction t as [|ev t IH]; intros HC pre Hpre.
    - by rewrite app_nil_r.
    - rewrite cons_middle, app_assoc. apply IH.
      + intros ev' Hev. apply HC. by constructor.
      + apply Hstep; [|done]. apply HC. constructor. }
  specialize (Hall (tr (m g w)) (Hm g w) pre Hpre).
  by destruct (res (m g w)).
Qed.

Lemma leaves_conseq {A} (P : list Event → Prop) (m : M A)
    (Q : A → list Event → Prop) (E E' : list Event → Prop) :
  (∀ t, E t → E' t) → leaves P m Q E → leaves P m Q E'.
Proof.
  intros HE Hm pre g w HP. specialize (Hm pre g w HP).
  destruct (res (m g w)); auto.
Qed.

End Leaves.

(** The rule of [call], with the call read off the goal. *)
Ltac apply_leaves_call :=
  match goal with
  | |- leaves ?P (call ?c) ?Q ?E => apply (leaves_call P c Q E)
  end.

(** ** No optimizer step is left open *)
Section StepsFinish.
Context `{PT : PyTypes} `{EX : !Externals}.
Variable self : ILQLModel.

Lemma between_finished past : between_steps past → step_finished self past.
Proof. intros [Ho Hz]. by split. Qed.

Lemma event_between past ev :
  is_opt_step (ev_call ev) = false → is_zero_grad (ev_call ev) = false →
  between_steps (past ++ [ev]).
Proof.
  intros Ho Hz. unfold between_steps, returned.
  by rewrite !just_after_snoc, Ho, Hz.
Qed.

Lemma failed_finished past g c e :
  step_finished self (past ++ [Ev g c (inl e)]).
Proof.
  split; [|intros _]; rewrite just_after_snoc; unfold returned; simpl;
    apply andb_false_r.
Qed.

Lemma call_between c :
  is_opt_step c = false → is_zero_grad c = false →
  leaves between_steps (call c) (λ _, between_steps) (step_finished self).
Proof.
  intros Ho Hz. apply_leaves_call.
  - intros pre g e _. by apply between_finished, event_between.
  - intros pre g a _. by apply event_between.
Qed.

Ltac apply_call_between :=
  match goal with
  | |- leaves _ (call ?c) _ _ => apply (call_between c)
  end.

Lemma evaluate_between self0 el logs :
  leaves between_steps (evaluate self0 el logs) (λ _, between_steps)
    (step_finished self).
Proof.
  eapply leaves_conseq; [apply between_finished|].
  apply leaves_emits with (C := λ ev, is_eval_call (ev_call ev));
    [apply evaluate_emits|].
  intros past ev Hev _. apply event_between; revert Hev;
    by destruct (ev_call ev).
Qed.

(** Lines 85-137: once [opt.step()] has returned, [opt.zero_grad()] is
    called, and once that has returned, [scheduler.step()], unless the
    object has no schedule. *)
Lemma train_step_finishes self0 el (st : Z * gmap string obj) batch :
  scheduler self0 = scheduler self →
  leaves between_steps (train_step self0 el st batch) (λ _, between_steps)
    (step_finished self).
Proof.
  intros Hsched. unfold train_step.
  apply leaves_py_mod_bind; [intros _ pre; apply between_finished|intros _].
  eapply leaves_bind with (R := λ _, between_steps).
  { destruct (decide _); [apply evaluate_between|by apply leaves_ret]. }
  intros logs1.
  eapply leaves_bind with (R := λ _, between_steps);
    [by apply_call_between|]. intros out.
  apply leaves_py_mod_bind; [intros _ pre; apply between_finished|intros _].
  eapply leaves_bind with (R := λ _, between_steps).
  { destruct (decide _); [|by apply leaves_ret].
    eapply leaves_bind with (R := λ _, between_steps);
    [by apply_call_between|].
    intros ?. by apply leaves_ret. }
  intros logs2.
  eapply leaves_bind with (R := λ _, between_steps);
    [by apply_call_between|]. intros ?.
  apply leaves_getattr_bind; [intros _ pre; apply between_finished|].
  intros o1 Ho1.
  eapply leaves_bind
    with (R := λ _ past, just_after (returned is_opt_step) past = true).
  { apply_leaves_call.
    - intros pre g e _. apply failed_finished.
    - intros pre g ? _. by rewrite just_after_snoc. }
  intros ?.
  apply leaves_getattr_bind; [intros Hn; by rewrite Ho1 in Hn|].
  intros o2 _.
  eapply leaves_bind
    with (R := λ _ past, just_after (returned is_opt_step) past = false ∧
                         just_after (returned is_zero_grad) past = true).
  { apply_leaves_call.
    - intros pre g e _. apply failed_finished.
    - intros pre g ? _. split; by rewrite just_after_snoc. }
  intros ?.
  apply leaves_getattr_bind.
  { intros Hn pre [Ho Hz]. split; [done|].
    rewrite <- Hsched, Hn. by intros [? [=]]. }
  intros s Hs.
  eapply leaves_bind with (R := λ _, between_steps).
  { apply_leaves_call.
    - intros pre g e _. apply failed_finished.
    - intros pre g ? _. by apply event_between. }
  intros ?.
  apply leaves_py_mod_bind; [intros _ pre; apply between_finished|intros _].
  eapply leaves_bind with (R := λ _, between_steps).
  { destruct (decide _); [by apply_call_between|by apply leaves_ret]. }
  intros ?. by apply leaves_ret.
Qed.

Lemma learn_finishes :
  leaves between_steps (learn self) (λ _, between_steps) (step_finished self).
Proof.
  unfold learn.
  eapply leaves_bind with (R := λ _, between_steps);
    [by apply_call_between|]. intros timer.
  eapply leaves_bind with (R := λ _, between_steps);
    [by apply_call_between|]. intros tl.
  eapply leaves_bind with (R := λ _, between_steps);
    [by apply_call_between|]. intros el.
  apply leaves_getattr_bind; [intros _ pre; apply between_finished|].
  intros o _.
  eapply leaves_bind with (R := λ _, between_steps);
    [by apply_call_between|]. intros p.
  eapply leaves_bind with (R := λ _, between_steps);
    [|intros ?; by apply leaves_ret].
  apply (leaves_foldM (λ _ : Z, between_steps)). intros n epoch.
  unfold epoch_loop.
  eapply leaves_bind with (R := λ _, between_steps);
    [by apply_call_between|]. intros batches.
  eapply leaves_bind with (R := λ _, between_steps);
    [|intros ?; by apply leaves_ret].
  apply (leaves_foldM (λ _ : Z * gmap string obj, between_steps)).
  intros st batch. by apply train_step_finishes.
Qed.

Lemma learn_step_finished g w : step_finished self (tr (learn self g w)).
Proof.
  pose proof (learn_finishes [] g w) as Hl. simpl in Hl.
  destruct (res (learn self g w)).
  - by apply Hl.
  - by apply between_finished, Hl.
Qed.

End StepsFinish.

Section SchedulerClaim.
Context `{PT : PyTypes} `{EX : !Externals}.

(** C4. A constructor call with [train_mode] true that returns has built,
    in this order, an AdamW optimizer over [model.parameters()] with
    learning rate [learning_rate_init], and a [rampup_decay] schedule over
    that optimizer with [lr_ramp_steps], [lr_decay_steps] and the ratio
    [learning_rate_target / learning_rate_init], and stored them as
    [self.opt] and [self.scheduler].  In every run of [learn],
    [scheduler.step()] is called on [self.scheduler], right after
    [opt.step()] and [opt.zero_grad()] have returned, and once per
    optimizer step: a returned [opt.step()] is followed by
    [opt.zero_grad()], which is followed by [scheduler.step()]; these
    calls are made, for no run ends right after an [opt.step()] that
    returned, nor, on an object with a schedule, right after an
    [opt.zero_grad()] that returned.  When [learn] returns, both were
    called equally often: once for every batch that the prepared training
    loader served, in each of the [epochs] epochs. *)
Theorem scheduler_built_and_stepped :
  (∀ globals hks cfg gpt tk mask g w self t w',
     runs (__init__ globals hks cfg gpt tk mask true) g w self t w' →
     ∃ mdl acc main params o ratio s,
       fdiv (learning_rate_target (train cfg))
            (learning_rate_init (train cfg)) = Some ratio ∧
       t = init_head globals cfg gpt g mdl acc main ++
           [Ev g (model_parameters mdl) (inr params);
            Ev g (AdamW_new params (learning_rate_init (train cfg))) (inr o);
            Ev g (rampup_decay (lr_ramp_steps (train cfg))
                    (lr_decay_steps (train cfg)) ratio o) (inr s)] ∧
       model self = mdl ∧ opt self = Some o ∧ scheduler self = Some s) ∧
  (∀ self g w,
     safe (sched_follows_opt self) [] (tr (learn self g w)) ∧
     step_finished self (tr (learn self g w)) ∧
     ∀ self', res (learn self g w) = inr self' →
       count_returned is_sched_step (tr (learn self g w)) =
       count_returned is_opt_step (tr (learn self g w)) ∧
       ∃ timer tl el o p (bss : list (list obj)),
         tr (learn self g w) =
           setup_events self g timer tl el o p ++
           drop 4 (tr (learn self g w)) ∧
         length bss = Z.to_nat (epochs (train (config self))) ∧
         Forall (λ bs : list obj,
                   Ev g (iterate p.1.2) (inr bs) ∈ tr (learn self g w))
                bss ∧
         count_returned is_sched_step (tr (learn self g w)) =
         length (concat bss)).
Proof.
  split.
  - intros * Hr. apply init_runs in Hr
      as (mdl & acc & main & params & o & ratio & s & Hdiv & -> & ->).
    by exists mdl, acc, main, params, o, ratio, s.
  - intros self g w.
    destruct (learn_scheduler_steps self [] g w) as [Hs Hq]; [done|].
    split; [done|]. split; [apply learn_step_finished|].
    intros self' Hr. split.
    + destruct (Hq self' Hr) as (n & _ & _ & Hc). by simpl in Hc.
    + destruct (learn_batches self self' g w _ _ (runs_intro _ _ _ _ Hr))
        as (timer & tl & el & o & p & bss & E & Hlen & Hall & _ & Hn).
      exists timer, tl, el, o, p, bss.
      split; [done|]. split; [done|]. split; [done|].
      unfold opt_steps_of in Hn. by apply Nat2Z.inj.
Qed.

End SchedulerClaim.

(** * The theorems on concrete runs *)
Module Runs.
Import Demo.

(** The first loss of the run (event 23) follows an evaluation pass, at
    counter 0: the events 5 to 22, on the model 100 and the loader 202
    that [accelerator.prepare] answered at event 3. *)
Lemma learn_evaluates_when_due_witness :
  ∃ ev p, run_trace !! 23%nat = Some ev ∧ is_loss (ev_call ev) ∧
          opt_steps_of (take 23 run_trace) = 0 ∧
          since_setup built p (take 23 run_trace) ∧
          ends_with_pass built p (take 23 run_trace).
Proof.
  assert (∃ p, since_setup built p (take 23 run_trace) ∧
               ends_with_pass built p (take 23 run_trace))
    as (p & Hp & Hpass).
  { eapply (proj1 (proj2 (@learn_evaluates_when_due _ demo_externals built
                            true 200%nat))
              (take 23 run_trace) _ (drop 24 run_trace)).
    - vm_compute. reflexivity.
    - exact I.
    - vm_compute. reflexivity. }
  eexists _, p. split; [vm_compute; reflexivity|].
  split; [exact I|]. split; [vm_compute; reflexivity|].
  split; [exact Hp|exact Hpass].
Defined.

(** The prepared evaluation loader is 202, and the pass asked it for its
    batches (event 6). *)
Example first_pass_on_eval_loader :
  ∀ p, since_setup built p (take 23 run_trace) →
       p = (100, 107, 201, 202)%nat ∧
       run_trace !! 6%nat =
         Some (Ev true (iterate p.2) (inr [2021; 2022]%nat)).
Proof.
  intros p (g & timer & tl & el & o & rest & E).
  assert (take 23 run_trace !! 3%nat =
          Some (Ev g (accelerator_prepare (accelerator built) (model built)
                        o tl el) (inr p))) as E3 by (by rewrite E).
  assert (prepare_answer <$> take 23 run_trace !! 3%nat =
          Some (Some p)) as Ep by (by rewrite E3).
  vm_compute in Ep. injection Ep as <-. split; [done|].
  vm_compute. reflexivity.
Qed.

(** The statistics are sent right after that loss (event 24), and not
    after the second one (event 29 is followed by [backward]). *)
Example log_after_first_loss :
  ∃ ev, run_trace !! 24%nat = Some ev ∧ is_log (ev_call ev) ∧
        log_due built (take 24 run_trace) ∧
        ¬ log_due built (take 30 run_trace).
Proof.
  eexists. split; [vm_compute; reflexivity|]. split; [exact I|].
  destruct (@learn_log_schedule _ demo_externals built [] true 200%nat)
    as [Hs _]; [by split|].
  split.
  - eapply (Hs (take 24 run_trace) _ (drop 25 run_trace)).
    + vm_compute. reflexivity.
    + exact I.
  - intros Hd.
    eapply (Hs (take 30 run_trace) _ (drop 31 run_trace)) in Hd.
    2: { vm_compute. reflexivity. }
    exact Hd.
Qed.

(** The second loss (event 29, counter 1, interval 3) does not. *)
Example second_loss_without_pass :
  ∃ ev, run_trace !! 29%nat = Some ev ∧ is_loss (ev_call ev) ∧
        ∀ p, ¬ ends_with_pass built p (take 29 run_trace).
Proof.
  eexists. split; [vm_compute; reflexivity|]. split; [exact I|].
  intros p (t0 & pass & E & Hp%evaluation_pass_on_any).
  pose proof (evaluation_pass_last built t0 pass Hp) as Hlast.
  rewrite <- E in Hlast. vm_compute in Hlast. discriminate.
Qed.

(** Event 34 of the run is the synchronisation due after the second
    optimizer step (interval 2). *)
Lemma learn_syncs_when_due_witness :
  ∃ ev, run_trace !! 34%nat = Some ev ∧ is_sync (ev_call ev) ∧
        sync_due built (take 34 run_trace).
Proof.
  eexists. split; [vm_compute; reflexivity|]. split; [exact I|].
  eapply (proj1 (@learn_syncs_when_due _ demo_externals built true 200%nat)
            (take 34 run_trace) _ (drop 35 run_trace)).
  - vm_compute. reflexivity.
  - exact I.
Defined.

(** No synchronisation is due after the first step. *)
Example no_sync_after_first_step :
  ∃ ev, run_trace !! 29%nat = Some ev ∧ ¬ is_sync (ev_call ev) ∧
        ¬ sync_due built (take 29 run_trace).
Proof.
  eexists. split; [vm_compute; reflexivity|]. split; [by intros []|].
  intros Hd.
  destruct (@learn_sync_schedule _ demo_externals built [] true 200%nat)
    as [Hs _]; [by split|].
  eapply (Hs (take 29 run_trace) _ (drop 30 run_trace)) in Hd.
  2: { vm_compute. reflexivity. }
  exact Hd.
Qed.

(** Both losses of the first epoch are computed in training mode. *)
Lemma learn_loss_in_training_mode_witness :
  mode_of (take 23 run_trace) = Some true ∧
  mode_of (take 29 run_trace) = Some true.
Proof.
  split.
  - eapply (proj1 (@learn_loss_in_training_mode _ demo_externals built true 200%nat)
              (take 23 run_trace) _ (drop 24 run_trace)).
    + vm_compute. reflexivity.
    + exact I.
  - eapply (proj1 (@learn_loss_in_training_mode _ demo_externals built true 200%nat)
              (take 29 run_trace) _ (drop 30 run_trace)).
    + vm_compute. reflexivity.
    + exact I.
Defined.

(** The constructor run of [init_out] returns [built]. *)
Lemma init_out_runs :
  runs (__init__ demo_globals demo_hooks demo_config 6%nat
          (Some demo_tokenizer) 7%nat true)
       true 100%nat built (tr init_out) (world init_out).
Proof. vm_compute. reflexivity. Defined.

(** Event 28 of the training run is the first [scheduler.step()], on the
    schedule the constructor stored, right after [opt.step()] and
    [opt.zero_grad()]; the run ends with no step left open, and has
    stepped the schedule once per batch that the training loader
    served. *)
Lemma scheduler_built_and_stepped_witness :
  (∃ mdl acc main params o ratio s,
     fdiv (learning_rate_target demo_train) (learning_rate_init demo_train)
     = Some ratio ∧
     tr init_out =
       init_head demo_globals demo_config 6%nat true mdl acc main ++
       [Ev true (model_parameters mdl) (inr params);
        Ev true (AdamW_new params (learning_rate_init demo_train)) (inr o);
        Ev true (rampup_decay 10 100 ratio o) (inr s)] ∧
     model built = mdl ∧ opt built = Some o ∧ scheduler built = Some s) ∧
  (∃ ev, run_trace !! 28%nat = Some ev ∧ is_sched_step (ev_call ev) ∧
         sched_follows_opt built (take 28 run_trace) ev) ∧
  step_finished built run_trace ∧
  count_returned is_sched_step run_trace =
    count_returned is_opt_step run_trace ∧
  ∃ timer tl el o p (bss : list (list obj)),
    run_trace = setup_events built true timer tl el o p ++ drop 4 run_trace ∧
    length bss = Z.to_nat (epochs (train (config built))) ∧
    Forall (λ bs : list obj, Ev true (iterate p.1.2) (inr bs) ∈ run_trace)
      bss ∧
    count_returned is_sched_step run_trace = length (concat bss).
Proof.
  destruct (@scheduler_built_and_stepped _ demo_externals)
    as [Hinit Hlearn].
  destruct (Hlearn built true 200%nat) as (Hsafe & Hfin & Hret).
  destruct (Hret built eq_refl) as [Hcount Hbatches].
  split; [|split; [|split; [|split]]].
  - exact (Hinit demo_globals demo_hooks demo_config 6%nat
             (Some demo_tokenizer) 7%nat true 100%nat built (tr init_out)
             (world init_out) init_out_runs).
  - eexists. split; [vm_compute; reflexivity|]. split; [exact I|].
    apply (Hsafe (take 28 run_trace) _ (drop 29 run_trace)).
    vm_compute. reflexivity.
  - exact Hfin.
  - exact Hcount.
  - exact Hbatches.
Defined.

Example run_trace_scheduler_steps :
  count_returned is_sched_step run_trace = 4%nat ∧
  (ev_call <$> run_trace !! 26%nat) = Some (opt_step 107%nat) ∧
  (ev_call <$> run_trace !! 27%nat) = Some (opt_zero_grad 107%nat) ∧
  (ev_call <$> run_trace !! 28%nat) = Some (scheduler_step 108%nat).
Proof. vm_compute. repeat split; reflexivity. Qed.

Lemma get_components_keys_witness :
  ∃ d, get_components built true 0%nat = mkOut (inr d) [] 0%nat ∧
       d !! "model" = Some 100%nat ∧
       dom d = ({["model"; "opt"; "scheduler"]} : gset string) ∧
       d !! "opt" = Some 107%nat ∧ d !! "scheduler" = Some 108%nat.
Proof.
  exact (@get_components_keys _ demo_externals
           demo_globals demo_hooks demo_config 6%nat (Some demo_tokenizer)
           7%nat true true 100%nat built (tr init_out) (world init_out)
           init_out_runs built (or_introl eq_refl) true 0%nat).
Defined.

Lemma tokenize_calls_tokenizer_witness :
  tokenize built ["Hello"; "world"] true 0%nat =
  call (tokenizer_call 5%nat ["<s>Hello</s>"; "<s>world</s>"] 32
          true true "pt") true 0%nat.
Proof.
  exact (@tokenize_calls_tokenizer _ demo_externals
           demo_globals demo_hooks demo_config 6%nat demo_tokenizer
           7%nat true true 100%nat built (tr init_out) (world init_out)
           init_out_runs ["Hello"; "world"] true 0%nat).
Defined.


(** With [WORLD_SIZE] at most 1 the constructor seeds the generator
    instead. *)
Example single_process_no_barrier :
  barriers (tr (__init__ {| WORLD_SIZE := 1; LOCAL_RANK := 0 |} demo_hooks
                  demo_config 6%nat None 7%nat true true 100%nat)) = [].
Proof. vm_compute. reflexivity. Qed.

(** The evaluation pass [eval_out] returns [eval_logs]. *)
Lemma eval_out_runs :
  runs (evaluate built 201%nat ∅) true 300%nat eval_logs (tr eval_out)
       (world eval_out).
Proof. vm_compute. reflexivity. Defined.

Lemma evaluation_logs_mean_reward_witness :
  ∃ ps outs stacked gathered main report,
    tr eval_out =
      pass_events built 201%nat true ps outs stacked gathered main report ∧
    length outs = length ps ∧
    if main : bool
    then ∃ rewards_list rewards reward rest,
           report = reward_events built true gathered rewards_list rewards
                      reward ++ rest ∧
           eval_logs !! "reward" = Some reward
    else report = [] ∧ eval_logs = ∅.
Proof.
  exact (proj1 (@evaluation_logs_mean_reward _ demo_externals built
                  201%nat true)
           ∅ 300%nat eval_logs (tr eval_out) (world eval_out) eval_out_runs).
Defined.

(** In that pass the answer of [mean()] (event 11) is what [logs] holds
    under ["reward"]. *)
Example eval_out_reward :
  ∃ rewards reward,
    tr eval_out !! 11%nat = Some (Ev true (tensor_mean rewards) (inr reward)) ∧
    eval_logs !! "reward" = Some reward.
Proof. eexists _, _. split; vm_compute; reflexivity. Qed.

Lemma learn_without_tokenizer_witness :
  (∀ ev, ev ∈ plain_trace → loader_eos_zero ev ∧ no_text_report ev) ∧
  (∀ timer, res (call Clock_new true 200%nat) = inr timer →
     ∃ r rest,
       plain_trace =
       Ev true Clock_new (inr timer)
       :: Ev true (create_train_loader 1%nat 8 0) r :: rest).
Proof.
  exact (@learn_without_tokenizer _ demo_externals plain true 200%nat
           eq_refl).
Defined.

(** With [DEBUG] set, that run prints the gathered samples (event 18);
    the run with a tokenizer decodes them and builds a table instead. *)
Example plain_trace_prints :
  ∃ ev, plain_trace !! 18%nat = Some ev ∧ is_print_obj (ev_call ev) ∧
        length (List.filter (λ ev, is_text_report (ev_call ev)) run_trace)
        = 6%nat.
Proof.
  eexists. split; [vm_compute; reflexivity|]. split; [exact I|].
  vm_compute. reflexivity.
Qed.

Lemma errors_propagate_witness :
  ∃ ev, tr failing_run !! 30%nat = Some ev ∧
        failed ev = Some (LibraryError 230%nat) ∧
        res failing_run = inl (LibraryError 230%nat) ∧
        last (tr failing_run) = Some ev.
Proof.
  eexists. split; [vm_compute; reflexivity|].
  split; [vm_compute; reflexivity|].
  apply (proj2 (proj2 (proj2 (proj2 (@errors_propagate _ failing_world)))
                  plain true 200%nat)).
  - apply (list_elem_of_lookup_2 _ 30%nat). vm_compute. reflexivity.
  - vm_compute. reflexivity.
Defined.

(** A zero [eval_interval] ends [learn] at the first batch, before any
    loss is computed; a zero [steps_for_target_q_sync] ends it after the
    first optimizer step. *)
Example zero_eval_interval :
  let cfg := {| train := {| epochs := 2; eval_interval := 0; batch_size := 8;
                            gen_size := 32;
                            learning_rate_init := Qmake 1 1000;
                            learning_rate_target := Qmake 1 10000;
                            lr_ramp_steps := 10; lr_decay_steps := 100;
                            project_name := "demo" |};
                method := method demo_config |} in
  let self := {| config := cfg; train_mode := true; hooks := demo_hooks;
                 model := 100%nat; max_length := 32; tokenizer := None;
                 logit_mask := 7%nat; accelerator := 101%nat;
                 opt := Some 107%nat; scheduler := Some 108%nat |} in
  res (learn self true 200%nat) = inl ZeroDivisionError ∧
  length (tr (learn self true 200%nat)) = 5%nat.
Proof. vm_compute. split; reflexivity. Qed.

End Runs.

(** * Further properties *)

Section ZeroEvalInterval.
Context `{PT : PyTypes} `{EX : !Externals}.
Variable self : ILQLModel.
Hypothesis interval_zero : eval_interval (train (config self)) = 0.

Lemma train_step_zero_interval el st batch g w :
  train_step self el st batch g w = mkOut (inl ZeroDivisionError) [] w.
Proof.
  unfold train_step, py_mod. rewrite interval_zero.
  by destruct (decide (0 = 0)).
Qed.

Lemma epoch_loop_zero_interval tl el n epoch g w :
  epoch_loop self tl el n epoch g w =
  mkOut match (handler (iterate tl) w).1 with
        | inl e => inl e
        | inr [] => inr n
        | inr (_ :: _) => inl ZeroDivisionError
        end
        [Ev g (iterate tl) (handler (iterate tl) w).1]
        (handler (iterate tl) w).2.
Proof.
  unfold epoch_loop. rewrite (bind_call (iterate tl)).
  destruct (handler (iterate tl) w) as [[e|[|b bs]] w1]; simpl; [done|done|].
  unfold mbind, M_bind, bind. cbv zeta.
  by rewrite train_step_zero_interval.
Qed.

Lemma epochs_zero_interval tl el l n g w :
  (∀ ev, ev ∈ tr (foldM (epoch_loop self tl el) l n g w) →
     ev_call ev = iterate tl) ∧
  (∀ t1 g' x b bs t2,
     tr (foldM (epoch_loop self tl el) l n g w) =
       t1 ++ Ev g' (iterate x) (inr (b :: bs)) :: t2 →
     t2 = [] ∧
     res (foldM (epoch_loop self tl el) l n g w) = inl ZeroDivisionError).
Proof.
  revert n w. induction l as [|epoch l IH]; intros n w; simpl.
  { split; [by intros ? ?%elem_of_nil|]. intros [|??] *; discriminate. }
  unfold mbind, M_bind, bind. cbv zeta.
  rewrite epoch_loop_zero_interval. simpl.
  destruct (handler (iterate tl) w) as [[e|[|b bs]] w1]; simpl.
  - split; [by intros ev ->%list_elem_of_singleton|].
    intros [|?[|??]] *; discriminate.
  - destruct (IH n w1) as [IH1 IH2]. split.
    + intros ev [->|Hev]%elem_of_cons; [done|auto].
    + intros [|ev0 t1] g' x b bs t2 E.
      * by apply (f_equal (λ t, head t ≫= iterate_answer)) in E.
      * injection E as _ E. by eapply IH2.
  - split; [by intros ev ->%list_elem_of_singleton|].
    intros [|?[|??]] * E; simplify_eq/=. done.
Qed.

End ZeroEvalInterval.

Section ZeroEvalIntervalLearn.
Context `{PT : PyTypes} `{EX : !Externals}.

(** X2. With [eval_interval] 0 the first batch that a loader yields ends the
    run with [ZeroDivisionError], before anything is evaluated or trained:
    the run only sets up and asks the loader for batches. *)
Theorem learn_zero_eval_interval (self : ILQLModel) (g : bool) (w : W) :
  eval_interval (train (config self)) = 0 →
  (∀ ev, ev ∈ tr (learn self g w) →
     is_setup_call (ev_call ev) || is_iterate (ev_call ev)) ∧
  (∀ t1 g' x b bs t2,
     tr (learn self g w) = t1 ++ Ev g' (iterate x) (inr (b :: bs)) :: t2 →
     t2 = [] ∧ res (learn self g w) = inl ZeroDivisionError).
Proof.
  intros Hk.
  destruct (learn_cases self g w)
    as [(e & He & _ & Hc & _)|(timer & tl & el & o & p & w1 & Ho & Ht & Hr)].
  - split.
    + intros ev Hev. destruct (Hc ev Hev) as [Hs _].
      by destruct (is_setup_call (ev_call ev)).
    + intros t1 g' x b bs t2 E.
      destruct (Hc (Ev g' (iterate x) (inr (b :: bs)))) as [[] _].
      rewrite E. apply elem_of_app. right. constructor.
  - destruct (epochs_zero_interval (prepared self p.1.1.1 p.1.1.2) Hk
                p.1.2 p.2 (range (epochs (train (config self)))) 0 g w1)
      as [H1 H2].
    fold (epochs_loop self p) in H1, H2. split.
    + intros ev. rewrite Ht. intros [Hev|Hev]%elem_of_app.
      * revert ev Hev. apply Forall_forall. by repeat constructor.
      * by rewrite (H1 ev Hev).
    + intros t1 g' x b bs t2 E. rewrite Ht in E.
      apply app_eq_split in E as [(c & E & ->)|(c & -> & E)].
      * exfalso. unfold setup_events in E.
        destruct t1 as [|? [|? [|? [|? [|??]]]]]; simplify_eq/=.
      * destruct (H2 _ _ _ _ _ _ E) as [-> Hz]. by rewrite Hr, Hz.
Qed.

End ZeroEvalIntervalLearn.

Section RaisesOnly.
Context `{PT : PyTypes} `{EX : !Externals}.
Variable R : exn → Prop.

Lemma raises_only_ret {A} (a : A) : raises_only R (ret a).
Proof. intros g w e. discriminate. Qed.

Lemma raises_only_raise {A} e : R e → raises_only R (raise (A := A) e).
Proof. intros He g w e' [= <-]. by right. Qed.

Lemma raises_only_call c : raises_only R (call c).
Proof.
  intros g w e He. left. exists (Ev g c (inl e)).
  rewrite call_tr, He. split; [constructor|done].
Qed.

Lemma raises_only_bind {A B} (m : M A) (f : A → M B) :
  raises_only R m → (∀ a, raises_only R (f a)) → raises_only R (m ≫= f).
Proof.
  intros Hm Hf g w e. destruct (res (m g w)) as [e'|a] eqn:E.
  - rewrite (bind_inl _ _ _ _ _ E). simpl. intros [= <-]. by apply Hm.
  - rewrite (bind_inr _ _ _ _ _ E). simpl. intros He.
    destruct (Hf a _ _ _ He) as [(ev & Hev & Hf')|Hr]; [left|by right].
    exists ev. split; [|done]. apply elem_of_app. by right.
Qed.

Lemma raises_only_with_no_grad {A} (m : M A) :
  raises_only R m → raises_only R (with_no_grad m).
Proof. intros Hm g w. apply Hm. Qed.

Lemma raises_only_foldM {S A} (f : S → A → M S) l s :
  (∀ s x, raises_only R (f s x)) → raises_only R (foldM f l s).
Proof.
  intros Hf. revert s. induction l as [|x l IH]; intros s; simpl.
  - apply raises_only_ret.
  - apply raises_only_bind; auto.
Qed.

Lemma raises_only_getattr {A} name (o : option A) :
  is_Some o → raises_only R (getattr name o).
Proof. intros [a ->]. apply raises_only_ret. Qed.

Lemma raises_only_py_mod a b :
  (b = 0 → R ZeroDivisionError) → raises_only R (py_mod a b).
Proof.
  intros Hb. unfold py_mod. case_decide.
  - apply raises_only_raise. auto.
  - apply raises_only_ret.
Qed.

End RaisesOnly.

Ltac raises_only_step :=
  first
    [ apply raises_only_ret
    | apply raises_only_getattr; simpl; by eauto
    | apply raises_only_py_mod; by auto
    | match goal with
      | |- raises_only ?R (call ?c) => exact (raises_only_call R c)
      end
    | apply raises_only_with_no_grad
    | apply raises_only_foldM; intros ??
    | apply raises_only_bind; [|intros ?]
    | match goal with
      | |- raises_only _ (if decide ?P then _ else _) => destruct (decide P)
      | |- raises_only _ (if ?b then _ else _) => destruct b
      | |- raises_only _ (match ?x with _ => _ end) => destruct x
      end ].

Section LearnRaises.
Context `{PT : PyTypes} `{EX : !Externals}.

Lemma learn_raises_only self :
  is_Some (opt self) → is_Some (scheduler self) →
  raises_only
    (λ e, e = ZeroDivisionError ∧
          (eval_interval (train (config self)) = 0 ∨
           steps_for_target_q_sync (method (config self)) = 0))
    (learn self).
Proof.
  intros Ho Hs.
  unfold learn, epoch_loop, train_step, evaluate, sample_all, sample_one,
    main_process_report.
  repeat raises_only_step.
Qed.

Lemma learn_raises_how (self : ILQLModel) (g : bool) (w : W) (e : exn) :
  is_Some (opt self) → is_Some (scheduler self) →
  res (learn self g w) = inl e →
  (∃ t ev, tr (learn self g w) = t ++ [ev] ∧
           Forall (λ ev, succeeded ev) t ∧ failed ev = Some e) ∨
  (e = ZeroDivisionError ∧
   (eval_interval (train (config self)) = 0 ∨
    steps_for_target_q_sync (method (config self)) = 0) ∧
   Forall (λ ev, succeeded ev) (tr (learn self g w))).
Proof.
  intros Ho Hs He.
  pose proof (learn_faithful self g w) as Hp. unfold propagates in Hp.
  rewrite He in Hp. destruct Hp as [Hp|[_ Hall]]; [by left|].
  destruct (learn_raises_only self Ho Hs g w e He)
    as [(ev & Hev & Hf)|[-> Hz]]; [|by right].
  rewrite Forall_forall in Hall. specialize (Hall ev Hev).
  unfold succeeded, failed in *. by destruct (ev_resp ev).
Qed.

(** X1. On an object that has an optimizer and a schedule, a run of [learn]
    that raises either raises what its last library call raised, every
    call before it having returned, or raises [ZeroDivisionError] with
    every call having returned, and then one of [eval_interval] and
    [steps_for_target_q_sync] is 0. *)
Theorem learn_raises (self : ILQLModel) (g : bool) (w : W) (e : exn) :
  is_Some (opt self) → is_Some (scheduler self) →
  res (learn self g w) = inl e →
  (∃ t ev, tr (learn self g w) = t ++ [ev] ∧
           Forall (λ ev, succeeded ev) t ∧ failed ev = Some e) ∨
  (e = ZeroDivisionError ∧
   (eval_interval (train (config self)) = 0 ∨
    steps_for_target_q_sync (method (config self)) = 0) ∧
   Forall (λ ev, succeeded ev) (tr (learn self g w))).
Proof. apply learn_raises_how. Qed.

End LearnRaises.

Section ZeroSyncInterval.
Context `{PT : PyTypes} `{EX : !Externals}.
Variable self : ILQLModel.
Hypothesis interval_zero : steps_for_target_q_sync (method (config self)) = 0.

Lemma event_before_first_step past ev :
  is_sync (ev_call ev) = false → is_sched_step (ev_call ev) = false →
  opt_steps_of past = 0 →
  before_first_step past ev ∧ opt_steps_of (past ++ [ev]) = 0.
Proof.
  intros Hy Hs Hn. split; [done|].
  rewrite opt_steps_of_snoc. unfold returned. rewrite Hs. simpl. lia.
Qed.

Lemma call_before_first_step c :
  is_sync c = false → is_sched_step c = false →
  triple before_first_step (λ past, opt_steps_of past = 0) (call c)
    (λ _ past, opt_steps_of past = 0).
Proof.
  intros Hy Hs. apply triple_call.
  - intros pre g r Hn. by apply (event_before_first_step pre (Ev g c r)).
  - intros pre g a Hn.
    by apply (event_before_first_step pre (Ev g c (inr a))).
Qed.

Lemma learn_before_first_step :
  triple before_first_step (λ past, opt_steps_of past = 0) (learn self)
    (λ _ past, ∃ _ : Z, opt_steps_of past = 0).
Proof.
  apply learn_schema
       with (at_start := λ _ past, opt_steps_of past = 0)
            (before_loss := λ _ past, opt_steps_of past = 0)
            (after_loss := λ _ past, opt_steps_of past = 0)
            (after_log := λ _ past, opt_steps_of past = 0)
            (after_opt := λ _ past, opt_steps_of past = 0)
            (after_zero := λ _ past, opt_steps_of past = 0)
            (after_sched := λ _ _, True).
  - intros c Hc. apply call_before_first_step; by destruct c.
  - intros. by apply call_before_first_step.
  - intros n mdl o el logs _ _.
    apply emits_triple with (C := λ ev, is_eval_call (ev_call ev));
      [apply evaluate_emits|].
    intros past ev Hev.
    apply event_before_first_step; revert Hev; by destruct (ev_call ev).
  - done.
  - intros. by apply call_before_first_step.
  - intros. by apply call_before_first_step.
  - done.
  - intros. by apply call_before_first_step.
  - intros. by apply call_before_first_step.
  - intros. by apply call_before_first_step.
  - intros n s _. apply_triple_call; [|done].
    intros pre g r Hn. by split.
  - intros n mdl Hks. by destruct Hks.
  - intros n past Hks. by destruct Hks.
Qed.

End ZeroSyncInterval.

Section ZeroSyncIntervalLearn.
Context `{PT : PyTypes} `{EX : !Externals}.

(** X3. With [steps_for_target_q_sync] 0, no run of [learn] completes more than
    one optimizer step or synchronises the target heads; a run that
    completes one, on an object with an optimizer and a schedule, ends
    right after it with [ZeroDivisionError]. *)
Theorem learn_zero_sync_interval (self : ILQLModel) (g : bool) (w : W) :
  steps_for_target_q_sync (method (config self)) = 0 →
  opt_steps_of (tr (learn self g w)) ≤ 1 ∧
  (∀ ev, ev ∈ tr (learn self g w) → is_sync (ev_call ev) = false) ∧
  (is_Some (opt self) → is_Some (scheduler self) →
   opt_steps_of (tr (learn self g w)) = 1 →
   just_after (returned is_sched_step) (tr (learn self g w)) = true ∧
   res (learn self g w) = inl ZeroDivisionError).
Proof.
  intros Hks.
  destruct (learn_before_first_step self Hks [] g w) as [Hs Hq]; [done|].
  simpl in Hq.
  assert (tr (learn self g w) = [] ∨
          ∃ t ev, tr (learn self g w) = t ++ [ev] ∧ opt_steps_of t = 0)
    as Hlast.
  { destruct (tr (learn self g w)) as [|ev0 t0] eqn:Et using rev_ind.
    - by left.
    - right. exists t0, ev0. split; [done|].
      by destruct (Hs t0 ev0 [] eq_refl). }
  split; [|split].
  - destruct Hlast as [->|(t & ev & -> & Ht)]; [done|].
    rewrite opt_steps_of_snoc, Ht. by destruct (returned is_sched_step ev).
  - intros ev Hev. apply list_elem_of_split in Hev as (t1 & t2 & E).
    by destruct (Hs t1 ev t2 E).
  - intros Ho Hsch Hone.
    destruct Hlast as [E|(t & ev & E & Ht)]; [by rewrite E in Hone|].
    assert (returned is_sched_step ev = true) as Hret.
    { rewrite E, opt_steps_of_snoc, Ht in Hone.
      by destruct (returned is_sched_step ev). }
    split; [by rewrite E, just_after_snoc|].
    destruct (res (learn self g w)) as [e|self'] eqn:Hr.
    + destruct (learn_raises_how self g w e Ho Hsch Hr)
        as [(t' & ev' & E' & _ & Hf)|[-> _]]; [|done].
      rewrite E in E'. apply app_inj_tail in E' as [_ <-].
      unfold returned, succeeded, failed in *.
      destruct (ev_resp ev); [|done]. by rewrite andb_false_r in Hret.
    + destruct (Hq self' eq_refl) as [_ Hz]. lia.
Qed.

End ZeroSyncIntervalLearn.

Section ConstructorEdges.
Context `{PT : PyTypes} `{EX : !Externals}.

(** X7. When [learning_rate_target / learning_rate_init] cannot be computed
    (the initial learning rate is 0), a constructor call with [train_mode]
    true does not return and builds no schedule; if every library call
    returned, the optimizer was the last thing built and the exception is
    [ZeroDivisionError]. *)
Theorem init_zero_learning_rate globals hks cfg gpt tk mask g w :
  fdiv (learning_rate_target (train cfg)) (learning_rate_init (train cfg))
    = None →
  ∃ e, res (__init__ globals hks cfg gpt tk mask true g w) = inl e ∧
       (∀ ev, ev ∈ tr (__init__ globals hks cfg gpt tk mask true g w) →
          is_rampup_decay (ev_call ev) = false) ∧
       (Forall (λ ev, succeeded ev)
          (tr (__init__ globals hks cfg gpt tk mask true g w)) →
        e = ZeroDivisionError ∧
        just_after (returned is_AdamW)
          (tr (__init__ globals hks cfg gpt tk mask true g w)) = true).
Proof.
  intros Hdiv. unfold __init__, py_truediv. rewrite Hdiv.
  repeat (step; try known_run).
Qed.

End ConstructorEdges.

Section EvalModeObject.
Context `{PT : PyTypes} `{EX : !Externals}.

Lemma init_emits_no_optimizer globals hks cfg gpt tk mask :
  emits (λ ev, is_optimizer_call (ev_call ev) = false)
        (__init__ globals hks cfg gpt tk mask false).
Proof. unfold __init__. repeat emits_step. Qed.

(** X5. A constructor call with [train_mode] false issues no call that builds
    an optimizer or a schedule, whether it returns or not; when it
    returns, its calls are those of lines 28-42 and the object has neither
    [opt] nor [scheduler]. *)
Theorem init_eval_mode globals hks cfg gpt tk mask g w :
  (∀ ev, ev ∈ tr (__init__ globals hks cfg gpt tk mask false g w) →
     is_optimizer_call (ev_call ev) = false) ∧
  (∀ self t w',
     runs (__init__ globals hks cfg gpt tk mask false) g w self t w' →
     (∃ mdl acc main, t = init_head globals cfg gpt g mdl acc main) ∧
     train_mode self = false ∧ opt self = None ∧ scheduler self = None).
Proof.
  split; [apply init_emits_no_optimizer|].
  intros self t w' Hr.
  apply init_runs in Hr as (mdl & acc & main & -> & ->). eauto 10.
Qed.

Lemma learn_without_optimizer self g w :
  opt self = None →
  ∃ e, res (learn self g w) = inl e ∧
       (∀ ev, ev ∈ tr (learn self g w) →
          is_setup_call (ev_call ev) && negb (is_prepare (ev_call ev))) ∧
       (Forall (λ ev, succeeded ev) (tr (learn self g w)) →
        e = AttributeError "opt" ∧ length (tr (learn self g w)) = 3%nat).
Proof.
  intros Ho. unfold learn. rewrite Ho. simpl.
  repeat (step; try known_run).
Qed.

(** X6. On an object constructed with [train_mode] false, [learn] does not
    return: it creates the timer and the two loaders and then raises
    [AttributeError] for [opt], unless one of these three calls raised;
    [accelerator.prepare] is not reached. *)
Theorem learn_needs_train_mode globals hks cfg gpt tk mask g w self t w' :
  runs (__init__ globals hks cfg gpt tk mask false) g w self t w' →
  ∀ g1 w1,
    ∃ e, res (learn self g1 w1) = inl e ∧
         (∀ ev, ev ∈ tr (learn self g1 w1) →
            is_setup_call (ev_call ev) && negb (is_prepare (ev_call ev))) ∧
         (Forall (λ ev, succeeded ev) (tr (learn self g1 w1)) →
          e = AttributeError "opt" ∧
          length (tr (learn self g1 w1)) = 3%nat).
Proof.
  intros Hr g1 w1. apply learn_without_optimizer.
  by apply init_runs in Hr as (mdl & acc & main & _ & ->).
Qed.

(** X10. On an object constructed without a tokenizer (the default),
    [tokenize] calls nothing and raises: [AttributeError] for [bos_token]
    when there is a text, [TypeError] when there is none. *)
Theorem tokenize_without_tokenizer globals hks cfg gpt mask tm g w self t w' :
  runs (__init__ globals hks cfg gpt None mask tm) g w self t w' →
  ∀ texts g1 w1,
    tokenize self texts g1 w1 =
    mkOut (inl (if decide (texts = []) then TypeError
                else AttributeError "bos_token")) [] w1.
Proof.
  intros Hr texts g1 w1.
  assert (tokenizer self = None) as Htk.
  { apply init_runs in Hr as (mdl & acc & main & Hr). destruct tm.
    - by destruct Hr as (params & o & ratio & s & _ & _ & ->).
    - by destruct Hr as [_ ->]. }
  unfold tokenize. rewrite Htk. by destruct texts.
Qed.

End EvalModeObject.

Section NoEpochs.
Context `{PT : PyTypes} `{EX : !Externals}.

Lemma range_nonpos n : n ≤ 0 → range n = [].
Proof. intros Hn. unfold range. by replace (Z.to_nat n) with 0%nat by lia. Qed.

(** X4. With [epochs] at most 0, [learn] only sets up: it issues at most the
    four calls of lines 70-78 and, when they return, returns with the
    model and the optimizer that [accelerator.prepare] answered; no loader
    is iterated. *)
Theorem learn_no_epochs (self : ILQLModel) (g : bool) (w : W) :
  epochs (train (config self)) ≤ 0 →
  (∀ ev, ev ∈ tr (learn self g w) → is_setup_call (ev_call ev)) ∧
  (length (tr (learn self g w)) ≤ 4)%nat ∧
  (∀ o, opt self = Some o →
     Forall (λ ev, succeeded ev) (tr (learn self g w)) →
     ∃ timer tl el p,
       tr (learn self g w) = setup_events self g timer tl el o p ∧
       res (learn self g w) = inr (prepared self p.1.1.1 p.1.1.2)).
Proof.
  intros Hn.
  destruct (learn_cases self g w)
    as [(e & He & Hlen & Hc & Hs)|(timer & tl & el & o & p & w1 & Ho & Ht & Hr)].
  - split; [|split; [done|]].
    + intros ev Hev. by destruct (Hc ev Hev).
    + intros o Ho Hall. destruct (Hs Hall) as (_ & Hnone & _). congruence.
  - unfold epochs_loop in Ht, Hr. rewrite (range_nonpos _ Hn) in Ht, Hr.
    simpl in Ht, Hr. rewrite Ht.
    split; [|split; [simpl; lia|]].
    + apply Forall_forall. by repeat constructor.
    + intros o' Ho' _. assert (o' = o) as -> by congruence.
      by exists timer, tl, el, p.
Qed.

End NoEpochs.

Section EmitsUnder.
Context `{PT : PyTypes} `{EX : !Externals}.
Variable C : bool → Event → Prop.

Lemma emits_under_ret {A} (a : A) : emits_under C (ret a).
Proof. intros g w ev Hev. simpl in Hev. by apply elem_of_nil in Hev. Qed.

Lemma emits_under_raise {A} e : emits_under C (raise (A := A) e).
Proof. intros g w ev Hev. simpl in Hev. by apply elem_of_nil in Hev. Qed.

Lemma emits_under_call c :
  (∀ g r, C g (Ev g c r)) → emits_under C (call c).
Proof.
  intros HC g w ev Hev. rewrite call_tr in Hev.
  apply list_elem_of_singleton in Hev as ->. apply HC.
Qed.

Lemma emits_under_bind {A B} (m : M A) (f : A → M B) :
  emits_under C m → (∀ a, emits_under C (f a)) → emits_under C (m ≫= f).
Proof.
  intros Hm Hf g w ev Hev. destruct (res (m g w)) as [e|a] eqn:E.
  - rewrite (bind_inl _ _ _ _ _ E) in Hev. by eapply Hm.
  - rewrite (bind_inr _ _ _ _ _ E) in Hev. simpl in Hev.
    apply elem_of_app in Hev as [Hev|Hev]; [by eapply Hm|by eapply Hf].
Qed.

Lemma emits_under_foldM {S A} (f : S → A → M S) l s :
  (∀ s x, emits_under C (f s x)) → emits_under C (foldM f l s).
Proof.
  intros Hf. revert s. induction l as [|x l IH]; intros s; simpl.
  - apply emits_under_ret.
  - apply emits_under_bind; auto.
Qed.

Lemma emits_under_getattr {A} name (o : option A) :
  emits_under C (getattr name o).
Proof. destruct o; [apply emits_under_ret|apply emits_under_raise]. Qed.

Lemma emits_under_py_mod a b : emits_under C (py_mod a b).
Proof.
  unfold py_mod. case_decide; [apply emits_under_raise|apply emits_under_ret].
Qed.

(** Inside [with torch.no_grad()] the mode is [false], whatever it is
    outside. *)
Lemma emits_under_with_no_grad {A} (C' : bool → Event → Prop) (m : M A) :
  emits_under C' m → (∀ g ev, C' false ev → C g ev) →
  emits_under C (with_no_grad m).
Proof. intros Hm HC g w ev Hev. by eapply HC, Hm. Qed.

End EmitsUnder.

Ltac emits_under_step :=
  first
    [ apply emits_under_ret | apply emits_under_raise
    | apply emits_under_getattr | apply emits_under_py_mod
    | apply emits_under_foldM; intros ??
    | apply emits_under_bind; [|intros ?]
    | match goal with
      | |- emits_under ?C (call ?c) =>
          apply (emits_under_call C c); intros ??; try done
      | |- emits_under _ (if decide ?P then _ else _) => destruct (decide P)
      | |- emits_under _ (if ?b then _ else _) => destruct b eqn:?
      | |- emits_under _ (match ?x with _ => _ end) => destruct x eqn:?
      end ].

Section GradientModes.
Context `{PT : PyTypes} `{EX : !Externals}.

Lemma sample_one_grad self all prompts :
  emits_under grad_as_called (sample_one self all prompts).
Proof.
  unfold sample_one. apply emits_under_bind; [|intros ?; apply emits_under_ret].
  apply emits_under_with_no_grad
    with (C' := λ g ev, ev_grad ev = g ∧ is_sampling (ev_call ev) = true).
  - repeat emits_under_step.
  - intros g ev [Hg Hs]. unfold grad_as_called. by rewrite Hs.
Qed.

Lemma learn_grad self : emits_under grad_as_called (learn self).
Proof.
  unfold learn, epoch_loop, train_step, evaluate, sample_all,
    main_process_report.
  repeat first [apply sample_one_grad | emits_under_step].
Qed.

(** X8. In every run of [learn], [model.beta] and [model.sample] are evaluated
    with gradients disabled, and every other call, the loss and the
    optimizer step among them, with the gradient mode of the caller. *)
Theorem learn_gradient_modes (self : ILQLModel) (g : bool) (w : W) (ev : Event) :
  ev ∈ tr (learn self g w) →
  ev_grad ev = if is_sampling (ev_call ev) then false else g.
Proof. apply learn_grad. Qed.

End GradientModes.

Section ReportBounds.
Context `{PT : PyTypes} `{EX : !Externals}.

Lemma main_process_report_bounded self samples logs :
  emits (bounded_report self) (main_process_report self samples logs).
Proof.
  unfold main_process_report.
  repeat emits_step; unfold bounded_report; simpl;
    (split; [|split]); try done.
  all: intros columns rows [= <- <-]; split; [done|].
  all: rewrite length_take; lia.
Qed.

Lemma learn_bounded self : emits (bounded_report self) (learn self).
Proof.
  unfold learn, epoch_loop, train_step, evaluate, sample_all, sample_one.
  repeat first
    [ apply (main_process_report_bounded (prepared self _ _)) | emits_step ].
Qed.

Lemma event_plain past ev :
  is_table (ev_call ev) = false → is_print_str (ev_call ev) = false →
  reports_pairs past ev.
Proof.
  intros Ht Hp. split.
  - intros columns rows E. by rewrite E in Ht.
  - intros s E. by rewrite E in Hp.
Qed.

Lemma call_plain (P : list Event → Prop) c
    (Q : resp c → list Event → Prop) :
  is_table c = false → is_print_str c = false →
  (∀ pre g a, P pre → Q a (pre ++ [Ev g c (inr a)])) →
  triple reports_pairs P (call c) Q.
Proof.
  intros Ht Hp HQ. apply triple_call; [|done].
  intros pre g r _. by apply (event_plain pre (Ev g c r)).
Qed.

Lemma call_unreported (P : list Event → Prop) c :
  is_table c = false → is_print_str c = false →
  triple reports_pairs P (call c) (λ _ _, True).
Proof. intros Ht Hp. by apply call_plain. Qed.

Lemma main_process_report_pairs self samples logs :
  triple reports_pairs (λ _, True) (main_process_report self samples logs)
    (λ _ _, True).
Proof.
  unfold main_process_report.
  eapply triple_bind; [by apply call_unreported|]. intros rewards_list.
  eapply triple_bind; [by apply call_unreported|]. intros rewards.
  eapply triple_bind; [by apply call_unreported|]. intros reward.
  eapply triple_bind with (R := λ _ _, True).
  { destruct (stats_fn (hooks self)); [|by apply triple_ret].
    eapply triple_bind; [by apply call_unreported|]. intros ?.
    by apply triple_ret. }
  intros logs1.
  eapply triple_bind with (R := λ _ _, True); [|intros ?; by apply triple_ret].
  destruct (tokenizer self) as [t|].
  2: { eapply triple_bind with (R := λ _ _, True);
         [|intros ?; by apply triple_ret].
       destruct (env_flag "DEBUG"); [by apply call_unreported|by apply triple_ret]. }
  eapply triple_bind with
    (R := λ texts past, ∃ past0 g1,
            past = past0 ++ [Ev g1 (batch_decode (tok t) samples true)
                               (inr texts)]).
  { apply call_plain; [done|done|]. intros pre g texts _. by exists pre, g. }
  intros texts.
  eapply triple_bind with
    (R := λ items past, decoded_pairs past (zip texts items)).
  { apply call_plain; [done|done|].
    intros pre g items (past0 & g1 & ->).
    exists past0, g1, g, (tok t), samples, rewards, texts, items.
    by rewrite <- app_assoc. }
  intros items.
  eapply triple_bind with
    (R := λ table past, ∃ past1 g3,
            past = past1 ++ [Ev g3 (wandb_Table ["samples"; "reward"]
                                      (take 16 (zip texts items)))
                               (inr table)] ∧
            decoded_pairs past1 (zip texts items)).
  { apply_triple_call.
    - intros pre g r Hd. split.
      + intros columns rows [= <- <-]. by exists (zip texts items).
      + intros s [=].
    - intros pre g table Hd. by exists pre, g. }
  intros table.
  eapply triple_bind with (R := λ _ _, True); [|intros ?; by apply triple_ret].
  destruct (env_flag "DEBUG"); [|by apply triple_ret].
  apply_triple_call; [|done].
  intros pre g r (past1 & g3 & -> & Hd). split.
  - intros columns rows [=].
  - intros s [= <-]. by exists (zip texts items), past1, g3, table.
Qed.

Lemma evaluate_pairs self el logs :
  triple reports_pairs (λ _, True) (evaluate self el logs) (λ _ _, True).
Proof.
  unfold evaluate.
  eapply triple_bind; [by apply call_unreported|]. intros ?.
  eapply triple_bind; [by apply call_unreported|]. intros prompts_list.
  eapply triple_bind with (R := λ _ _, True).
  { apply emits_triple with (C := λ ev, is_sampling (ev_call ev) = true).
    - unfold sample_all, sample_one. repeat emits_step.
    - intros past ev Hev _. split; [|done].
      apply event_plain; by destruct (ev_call ev). }
  intros all_samples.
  eapply triple_bind; [by apply call_unreported|]. intros stacked.
  eapply triple_bind; [by apply call_unreported|]. intros samples.
  eapply triple_bind; [by apply call_unreported|]. intros main.
  eapply triple_bind with (R := λ _ _, True).
  { destruct main; [apply main_process_report_pairs|by apply triple_ret]. }
  intros logs1.
  eapply triple_bind; [by apply call_unreported|]. intros ?.
  by apply triple_ret.
Qed.

Lemma learn_pairs self :
  triple reports_pairs (λ _, True) (learn self) (λ _ _, ∃ _ : Z, True).
Proof.
  apply learn_schema
    with (at_start := λ _ _, True) (before_loss := λ _ _, True)
         (after_loss := λ _ _, True) (after_log := λ _ _, True)
         (after_opt := λ _ _, True) (after_zero := λ _ _, True)
         (after_sched := λ _ _, True).
  - intros c Hc. apply call_unreported; by destruct c.
  - intros. by apply call_unreported.
  - intros. apply evaluate_pairs.
  - done.
  - intros. by apply call_unreported.
  - intros. by apply call_unreported.
  - done.
  - intros. by apply call_unreported.
  - intros. by apply call_unreported.
  - intros. by apply call_unreported.
  - intros. by apply call_unreported.
  - intros. by apply call_unreported.
  - done.
Qed.

(** X9. In every run of [learn], a table sent to wandb has the columns
    [samples] and [reward] and its rows are the first 16 of the pairs of
    a decoded text and a reward that the two calls before it produced;
    the text printed after it joins, with newlines, one entry
    [[reward] text] for each of the first 10 of the same pairs; nothing
    is printed unless [DEBUG] is set and not empty, and text is decoded,
    tabulated or printed only with a tokenizer. *)
Theorem learn_report_bounds (self : ILQLModel) (g : bool) (w : W) :
  (∀ ev, ev ∈ tr (learn self g w) → bounded_report self ev) ∧
  safe reports_pairs [] (tr (learn self g w)).
Proof.
  split; [apply learn_bounded|].
  by apply (learn_pairs self [] g w).
Qed.

End ReportBounds.

Section Prepared.
Context `{PT : PyTypes} `{EX : !Externals}.

Lemma epochs_loop_on_prepared self p :
  emits (on_prepared self p) (epochs_loop self p).
Proof.
  unfold epochs_loop, epoch_loop, train_step, evaluate, sample_all,
    sample_one, main_process_report.
  cbn [opt scheduler model accelerator prepared].
  repeat first
    [ apply emits_getattr_bind; intros ? ?; simplify_eq | emits_step ].
Qed.

Lemma prepare_answer_Some ev p :
  prepare_answer ev = Some p →
  is_prepare (ev_call ev) = true ∧ failed ev = None.
Proof.
  destruct ev as [g c r]. unfold prepare_answer, failed. simpl.
  destruct c; try done. by destruct r.
Qed.

(** X13. Once [accelerator.prepare] has answered, [learn] works on what it
    answered: the model is evaluated, sampled, trained and synchronised
    through the prepared model, the optimizer is stepped and zeroed
    through the prepared optimizer, [prepare] is not called again, and
    these are the model and the optimizer of the object when [learn]
    returns; the schedule and the accelerator are those of the object. *)
Theorem learn_uses_prepared (self : ILQLModel) (g : bool) (w : W) t1 ev t2 p :
  tr (learn self g w) = t1 ++ ev :: t2 →
  prepare_answer ev = Some p →
  (∃ o tl el,
     opt self = Some o ∧
     ev_call ev =
       accelerator_prepare (accelerator self) (model self) o tl el ∧
     length t1 = 3%nat) ∧
  (∀ ev', ev' ∈ t2 → on_prepared self p ev') ∧
  (∀ self', res (learn self g w) = inr self' →
     self' = prepared self p.1.1.1 p.1.1.2).
Proof.
  intros Et Hp.
  destruct (prepare_answer_Some _ _ Hp) as [Hprep Hok].
  destruct (learn_cases self g w)
    as [(e & He & _ & Hc & _)|(timer & tl & el & o & p0 & w1 & Ho & Ht & Hr)].
  { destruct (Hc ev) as [_ Hf].
    - rewrite Et. apply elem_of_app. right. constructor.
    - rewrite Hf in Hok; [done|]. by rewrite Hprep. }
  rewrite Ht in Et.
  apply app_eq_split in Et as [(c & E & ->)|(c & -> & E)].
  - unfold setup_events in E.
    destruct t1 as [|? [|? [|? [|? [|??]]]]]; simplify_eq/=;
      try discriminate Hp.
    assert (p0 = p) as -> by (by injection Hp).
    split; [by exists o, tl, el|]. split.
    + intros ev' Hev. by eapply epochs_loop_on_prepared.
    + intros self'. rewrite Hr.
      by destruct (res (epochs_loop self p g w1)); intros [= <-].
  - exfalso.
    assert (on_prepared self p0 ev) as Hon.
    { eapply epochs_loop_on_prepared. rewrite E.
      apply elem_of_app. right. constructor. }
    unfold on_prepared in Hon. by destruct (ev_call ev).
Qed.

End Prepared.

Section BatchesTrained.
Context `{PT : PyTypes} `{EX : !Externals}.



End BatchesTrained.

Section Counting.
Context `{PT : PyTypes} `{EX : !Externals}.

Lemma div_next_due k n :
  0 < k → Z.divide k n → (n + k) / k = (n + k - 1) / k + 1.
Proof.
  intros Hk [q ->].
  transitivity (q + 1); [symmetry|].
  - apply Z.div_unique with (r := 0); lia.
  - rewrite <- (Z.div_unique (q * k + k - 1) k q (k - 1)); lia.
Qed.
Lemma div_next_not_due k n :
  0 < k → ¬ Z.divide k n → (n + k) / k = (n + k - 1) / k.
Proof.
  intros Hk Hn.
  assert (n mod k ≠ 0) as Hr
    by (intros Hm; apply Hn, Z.mod_divide; [lia|done]).
  pose proof (Z.mod_pos_bound n k Hk) as Hb.
  pose proof (Z.div_mod n k ltac:(lia)) as E.
  transitivity (n / k + 1); [symmetry|].
  - apply Z.div_unique with (r := n mod k); lia.
  - apply Z.div_unique with (r := n mod k - 1); lia.
Qed.
Lemma div_succ_due ks n :
  0 < ks → Z.divide ks (n + 1) → (n + 1) / ks = n / ks + 1.
Proof.
  intros Hk [q E].
  rewrite <- (Z.div_unique (n + 1) ks q 0) by lia.
  rewrite <- (Z.div_unique n ks (q - 1) (ks - 1)); lia.
Qed.
Lemma div_succ_not_due ks n :
  0 < ks → ¬ Z.divide ks (n + 1) → (n + 1) / ks = n / ks.
Proof.
  intros Hk Hn.
  assert ((n + 1) mod ks ≠ 0) as Hr
    by (intros Hm; apply Hn, Z.mod_divide; [lia|done]).
  pose proof (Z.mod_pos_bound (n + 1) ks Hk) as Hb.
  pose proof (Z.div_mod (n + 1) ks ltac:(lia)) as E.
  apply Z.div_unique with (r := (n + 1) mod ks - 1); lia.
Qed.

Lemma count_returned_none p t :
  (∀ ev, ev ∈ t → p (ev_call ev) = false) → count_returned p t = 0%nat.
Proof.
  induction t as [|ev t IH]; intros Hall; [done|].
  unfold count_returned, returned in *. simpl.
  rewrite (Hall ev) by constructor. simpl.
  apply IH. intros ev' Hev. apply Hall. by constructor.
Qed.

Lemma count_returned_app p t t' :
  count_returned p (t ++ t') = (count_returned p t + count_returned p t')%nat.
Proof. unfold count_returned. by rewrite List.filter_app, length_app. Qed.

Section Counted.
Variable p : Call → bool.

Lemma event_counted steps count past ev :
  is_sched_step (ev_call ev) = false → p (ev_call ev) = false →
  counted p steps count past → counted p steps count (past ++ [ev]).
Proof.
  intros Hs Hp [Hn Hc]. split.
  - rewrite opt_steps_of_snoc. unfold returned. rewrite Hs. simpl. lia.
  - rewrite count_returned_snoc. unfold returned. rewrite Hp. simpl. lia.
Qed.

Lemma call_counted steps count c :
  is_sched_step c = false → p c = false →
  triple (λ _ _, True) (counted p steps count) (call c)
    (λ _, counted p steps count).
Proof.
  intros Hs Hp. apply triple_call; [done|].
  intros pre g a. by apply event_counted.
Qed.

Lemma sched_step_counted steps count s :
  p (scheduler_step s) = false →
  triple (λ _ _, True) (counted p steps count) (call (scheduler_step s))
    (λ _, counted p (steps + 1) count).
Proof.
  intros Hp. apply_triple_call; [done|].
  intros pre g a [Hn Hc]. split.
  - rewrite opt_steps_of_snoc. simpl. lia.
  - rewrite count_returned_snoc. unfold returned. simpl. rewrite Hp.
    simpl. lia.
Qed.

End Counted.

Lemma evaluate_one_pass self el logs g w logs' t w' :
  runs (evaluate self el logs) g w logs' t w' →
  count_returned is_model_eval t = 1%nat ∧ opt_steps_of t = 0.
Proof.
  intros Hr. split.
  2: { apply runs_tr in Hr as [<- _]. apply evaluate_no_loss. }
  unfold evaluate in Hr. apply runs_bind_inv in Hr
    as (a & t1 & w1 & t2 & Hc & Hrest & ->).
  apply (runs_call_inv (model_eval (model self))) in Hc as ->.
  rewrite count_returned_app.
  match type of Hrest with
  | runs ?m _ _ _ _ _ =>
      assert (emits (λ ev, is_model_eval (ev_call ev) = false) m) as Hem
  end.
  { unfold sample_all, sample_one, main_process_report. repeat emits_step. }
  apply runs_tr in Hrest as [<- _].
  rewrite (count_returned_none is_model_eval (tr _)); [done|].
  intros ev. apply Hem.
Qed.

End Counting.

Section PassCount.
Context `{PT : PyTypes} `{EX : !Externals}.
Variable self : ILQLModel.
Let k := eval_interval (train (config self)).
Hypothesis interval_pos : 0 < k.

Lemma learn_counts_passes :
  triple (λ _ _, True)
    (counted is_model_eval 0 ((0 + k - 1) / k)) (learn self)
    (λ _ past, ∃ n, counted is_model_eval n ((n + k - 1) / k) past).
Proof using interval_pos.
  apply learn_schema
    with (at_start := λ n, counted is_model_eval n ((n + k - 1) / k))
         (before_loss := λ n, counted is_model_eval n ((n + k) / k))
         (after_loss := λ n, counted is_model_eval n ((n + k) / k))
         (after_log := λ n, counted is_model_eval n ((n + k) / k))
         (after_opt := λ n, counted is_model_eval n ((n + k) / k))
         (after_zero := λ n, counted is_model_eval n ((n + k) / k))
         (after_sched :=
            λ n, counted is_model_eval (n + 1) ((n + 1 + k - 1) / k)).
  - intros c Hc. apply call_counted; by destruct c.
  - intros. by apply call_counted.
  - intros n mdl o el logs _ Hdiv pre g w [Hn Hc].
    split; [by apply safe_all|]. intros logs' Hr.
    apply runs_intro, evaluate_one_pass in Hr as [Hone Hzero].
    split.
    + rewrite opt_steps_of_app. lia.
    + rewrite count_returned_app, Hone. fold k in Hdiv.
      rewrite (div_next_due k n interval_pos Hdiv). lia.
  - intros n past _ Hdiv [Hn Hc]. split; [done|].
    fold k in Hdiv. by rewrite (div_next_not_due k n interval_pos Hdiv).
  - intros. by apply call_counted.
  - intros. by apply call_counted.
  - done.
  - intros. by apply call_counted.
  - intros. by apply call_counted.
  - intros. by apply call_counted.
  - intros n s _. replace (n + 1 + k - 1) with (n + k) by lia.
    by apply sched_step_counted.
  - intros. by apply call_counted.
  - done.
Qed.

End PassCount.

Section SyncCount.
Context `{PT : PyTypes} `{EX : !Externals}.
Variable self : ILQLModel.
Let ks := steps_for_target_q_sync (method (config self)).
Hypothesis interval_pos : 0 < ks.

Lemma learn_counts_syncs :
  triple (λ _ _, True)
    (counted is_sync 0 (0 / ks)) (learn self)
    (λ _ past, ∃ n, counted is_sync n (n / ks) past).
Proof using interval_pos.
  apply learn_schema
    with (at_start := λ n, counted is_sync n (n / ks))
         (before_loss := λ n, counted is_sync n (n / ks))
         (after_loss := λ n, counted is_sync n (n / ks))
         (after_log := λ n, counted is_sync n (n / ks))
         (after_opt := λ n, counted is_sync n (n / ks))
         (after_zero := λ n, counted is_sync n (n / ks))
         (after_sched := λ n, counted is_sync (n + 1) (n / ks)).
  - intros c Hc. apply call_counted; by destruct c.
  - intros. by apply call_counted.
  - intros n mdl o el logs _ _.
    apply emits_triple with (C := λ ev, is_eval_call (ev_call ev));
      [apply evaluate_emits|].
    intros past ev Hev Hc. split; [done|].
    apply event_counted; [| |done]; revert Hev; by destruct (ev_call ev).
  - done.
  - intros. by apply call_counted.
  - intros. by apply call_counted.
  - done.
  - intros. by apply call_counted.
  - intros. by apply call_counted.
  - intros. by apply call_counted.
  - intros n s _. by apply sched_step_counted.
  - intros n mdl _ Hdiv. apply_triple_call; [done|].
    intros pre g a [Hn Hc]. split.
    + rewrite opt_steps_of_snoc. simpl. lia.
    + rewrite count_returned_snoc. simpl. fold ks in Hdiv.
      rewrite (div_succ_due ks n interval_pos Hdiv). lia.
  - intros n past _ Hdiv [Hn Hc]. split; [done|].
    fold ks in Hdiv. by rewrite (div_succ_not_due ks n interval_pos Hdiv).
Qed.

End SyncCount.

Section Counts.
Context `{PT : PyTypes} `{EX : !Externals}.

(** X15. A run of [learn] that returns after [n] optimizer steps, with a
    positive [eval_interval] [k], has made ⌈n / k⌉ evaluation passes: one
    before each of the steps 0, [k], 2[k], ... *)
Theorem learn_pass_count (self self' : ILQLModel) (g : bool) (w : W) :
  0 < eval_interval (train (config self)) →
  res (learn self g w) = inr self' →
  Z.of_nat (count_returned is_model_eval (tr (learn self g w))) =
  (opt_steps_of (tr (learn self g w))
   + eval_interval (train (config self)) - 1)
  / eval_interval (train (config self)).
Proof.
  intros Hk Hr.
  destruct (learn_counts_passes self Hk [] g w) as [_ Hq].
  { split; [done|]. rewrite Z.div_small by lia. done. }
  destruct (Hq self' Hr) as (n & Hn & Hc). simpl in Hn, Hc.
  by rewrite Hn.
Qed.

(** X16. A run of [learn] that returns after [n] optimizer steps, with a
    positive [steps_for_target_q_sync] [k], has synchronised the target
    heads ⌊n / k⌋ times. *)
Theorem learn_sync_count (self self' : ILQLModel) (g : bool) (w : W) :
  0 < steps_for_target_q_sync (method (config self)) →
  res (learn self g w) = inr self' →
  Z.of_nat (count_returned is_sync (tr (learn self g w))) =
  opt_steps_of (tr (learn self g w))
  / steps_for_target_q_sync (method (config self)).
Proof.
  intros Hk Hr.
  destruct (learn_counts_syncs self Hk [] g w) as [_ Hq]; [by split|].
  destruct (Hq self' Hr) as (n & Hn & Hc). simpl in Hn, Hc.
  by rewrite Hn.
Qed.

End Counts.

Section Backward.
Context `{PT : PyTypes} `{EX : !Externals}.
Variable self : ILQLModel.

Lemma last_loss_snoc past ev :
  last_loss (past ++ [ev]) =
  match loss_of ev with Some l => Some l | None => last_loss past end.
Proof.
  unfold last_loss. rewrite omap_app. simpl.
  destruct (loss_of ev); simpl; [by rewrite last_snoc|by rewrite app_nil_r].
Qed.

Lemma loss_ready_no_backward l past : loss_ready l past → no_backward past.
Proof.
  intros [_ [Hj|Hj]]; unfold no_backward.
  - eapply just_after_excl; [|exact Hj]. apply returned_excl. by intros [].
  - apply just_after2_last in Hj.
    eapply just_after_excl; [|exact Hj]. apply returned_excl. by intros [].
Qed.

Lemma event_no_backward past ev :
  is_backward (ev_call ev) = false → is_opt_step (ev_call ev) = false →
  no_backward past →
  backward_on_loss self past ev ∧ no_backward (past ++ [ev]).
Proof.
  intros Hb Ho Hn. split.
  - split.
    + intros a l E. by rewrite E in Hb.
    + rewrite Ho, Hn. done.
  - unfold no_backward. rewrite just_after_snoc. unfold returned.
    by rewrite Hb.
Qed.

Lemma call_no_backward c :
  is_backward c = false → is_opt_step c = false →
  triple (backward_on_loss self) no_backward (call c) (λ _, no_backward).
Proof.
  intros Hb Ho. apply triple_call.
  - intros pre g r Hn. by apply (event_no_backward pre (Ev g c r)).
  - intros pre g a Hn. by apply (event_no_backward pre (Ev g c (inr a))).
Qed.

Lemma train_step_backward mdl o el st batch :
  triple (backward_on_loss self) no_backward
    (train_step (prepared self mdl o) el st batch) (λ _, no_backward).
Proof.
  destruct st as [n logs]. unfold train_step. cbn [fst snd].
  change (accelerator (prepared self mdl o)) with (accelerator self).
  eapply triple_bind; [apply triple_py_mod|]. intros r.
  apply triple_pure. intros _.
  eapply triple_bind with (R := λ _, no_backward).
  { destruct (decide (r = 0)); [|by apply triple_ret].
    apply emits_triple with (C := λ ev, is_eval_call (ev_call ev));
      [apply evaluate_emits|].
    intros past ev Hev.
    apply event_no_backward; revert Hev; by destruct (ev_call ev). }
  intros logs1.
  eapply triple_bind with (R := λ out, loss_fresh out.1).
  { apply_triple_call.
    - intros pre g r0 Hn. by apply (event_no_backward pre (Ev g _ r0)).
    - intros pre g out Hn. split.
      + rewrite last_loss_snoc. done.
      + by rewrite just_after_snoc. }
  intros out.
  eapply triple_bind; [apply triple_py_mod|]. intros r1.
  apply triple_pure. intros _.
  eapply triple_bind with (R := λ _, loss_ready out.1).
  { destruct (decide (r1 = 0)).
    2: { apply triple_ret. intros pre [Hl Hj]. split; [done|by left]. }
    eapply triple_bind with (R := λ _, loss_ready out.1);
      [|intros ?; by apply triple_ret].
    apply_triple_call.
    - intros pre g r0 [Hl Hj].
      apply (event_no_backward pre (Ev g _ r0)); [done|done|].
      apply (loss_ready_no_backward out.1). split; [done|by left].
    - intros pre g ? [Hl Hj]. split.
      + rewrite last_loss_snoc. done.
      + right. by rewrite just_after2_snoc, Hj. }
  intros logs2.
  eapply triple_bind with (R := λ _ past,
           just_after (returned is_backward) past = true).
  { apply_triple_call.
    - intros pre g r0 [Hl Hj]. split.
      + intros a l [= <- <-]. done.
      + simpl. rewrite (loss_ready_no_backward out.1 pre); [done|].
        by split.
    - intros pre g ? _. by rewrite just_after_snoc. }
  intros ?.
  eapply triple_bind; [apply triple_getattr|]. intros o1.
  apply triple_pure. intros _.
  eapply triple_bind with (R := λ _, no_backward).
  { apply_triple_call.
    - intros pre g r0 Hj. split; [done|]. simpl. by rewrite Hj.
    - intros pre g ? _. unfold no_backward. by rewrite just_after_snoc. }
  intros ?.
  eapply triple_bind; [apply triple_getattr|]. intros o2.
  apply triple_pure. intros _.
  eapply triple_bind; [by apply call_no_backward|]. intros ?.
  eapply triple_bind; [apply triple_getattr|]. intros s.
  apply triple_pure. intros _.
  eapply triple_bind; [by apply call_no_backward|]. intros ?.
  eapply triple_bind; [apply triple_py_mod|]. intros r2.
  apply triple_pure. intros _.
  eapply triple_bind with (R := λ _, no_backward).
  { destruct (decide (r2 = 0)); [by apply call_no_backward|].
    by apply triple_ret. }
  intros ?. by apply triple_ret.
Qed.

Lemma learn_backward :
  triple (backward_on_loss self) no_backward (learn self)
    (λ _, no_backward).
Proof.
  unfold learn.
  eapply triple_bind; [by apply call_no_backward|]. intros timer.
  eapply triple_bind; [by apply call_no_backward|]. intros tl.
  eapply triple_bind; [by apply call_no_backward|]. intros el.
  eapply triple_bind; [apply triple_getattr|]. intros o.
  apply triple_pure. intros _.
  eapply triple_bind; [by apply call_no_backward|]. intros p.
  eapply triple_bind with (R := λ _, no_backward);
    [|intros ?; by apply triple_ret].
  apply (triple_foldM _ (λ _ : Z, no_backward)). intros n epoch.
  unfold epoch_loop.
  eapply triple_bind; [by apply call_no_backward|]. intros batches.
  eapply triple_bind with (R := λ _, no_backward);
    [|intros ?; by apply triple_ret].
  apply (triple_foldM _ (λ _ : Z * gmap string obj, no_backward)).
  intros st batch. apply train_step_backward.
Qed.

End Backward.

Section BackwardLoss.
Context `{PT : PyTypes} `{EX : !Externals}.

(** X14. In every run of [learn], [accelerator.backward] is called on the
    loss that [model.loss] has just answered for the current batch, right
    after it or after its statistics were sent to the tracker, and
    [opt.step()] is called exactly when [backward] has just returned. *)
Theorem learn_backward_on_loss (self : ILQLModel) (g : bool) (w : W) :
  safe (backward_on_loss self) [] (tr (learn self g w)).
Proof. by apply (learn_backward self [] g w). Qed.

End BackwardLoss.

Section FailedPass.
Context `{PT : PyTypes} `{EX : !Externals}.

Lemma fails_before_bind {A B} p (m : M A) (f : A → M B) :
  emits (λ ev, p (ev_call ev) = false) m →
  (∀ a, fails_before p (f a)) → fails_before p (m ≫= f).
Proof.
  intros Hm Hf g w e ev.
  assert (∀ ev, ev ∈ tr (m g w) → returned p ev = false) as Hfirst.
  { intros ev' Hev. unfold returned. by rewrite (Hm g w ev' Hev). }
  destruct (res (m g w)) as [e'|a] eqn:E.
  - rewrite (bind_inl _ _ _ _ _ E). simpl. intros _. apply Hfirst.
  - rewrite (bind_inr _ _ _ _ _ E). simpl.
    intros He [Hev|Hev]%elem_of_app; [by apply Hfirst|by eapply Hf].
Qed.

Lemma fails_before_last {A} p c (a : A) :
  fails_before p (call c ;; ret a).
Proof.
  intros g w e ev. rewrite (bind_call c).
  destruct (handler c w) as [[e'|r] w1]; simpl; [|done].
  intros _ ->%list_elem_of_singleton. unfold returned, succeeded. simpl.
  apply andb_false_r.
Qed.

(** X17. An evaluation pass that raises has not switched the model back to
    training mode: no [model.train()] has returned in it. *)
Theorem failed_pass_stays_in_eval_mode self el logs g w e ev :
  res (evaluate self el logs g w) = inl e →
  ev ∈ tr (evaluate self el logs g w) →
  returned is_model_train ev = false.
Proof.
  revert g w e ev. change (fails_before is_model_train (evaluate self el logs)).
  unfold evaluate.
  repeat (apply fails_before_bind;
          [unfold sample_all, sample_one, main_process_report;
           by repeat emits_step|intros ?]).
  apply fails_before_last.
Qed.

End FailedPass.

Section LogsGrow.
Context `{PT : PyTypes} `{EX : !Externals}.

Lemma logs_sent_app t t' : logs_sent (t ++ t') = logs_sent t ++ logs_sent t'.
Proof. apply omap_app. Qed.

Lemma logs_sent_none t :
  (∀ ev, ev ∈ t → is_log (ev_call ev) = false) → logs_sent t = [].
Proof.
  induction t as [|ev t IH]; intros Hall; [done|].
  unfold logs_sent in *. simpl.
  assert (logged ev = None) as ->.
  { specialize (Hall ev (list_elem_of_here _ _)).
    unfold logged. by destruct (ev_call ev). }
  apply IH. intros ev' Hev. apply Hall. by constructor.
Qed.

Lemma main_process_report_keeps self samples logs g w logs' t w' :
  runs (main_process_report self samples logs) g w logs' t w' →
  keys_kept logs logs'.
Proof.
  unfold main_process_report, keys_kept. intros Hr. runs_inv.
  repeat match goal with
  | H : runs (match ?x with _ => _ end) _ _ _ _ _ |- _ =>
      destruct x; runs_inv
  end.
  all: rewrite ?dom_insert, ?dom_union; set_solver.
Qed.

Lemma evaluate_keeps self el logs g w logs' t w' :
  runs (evaluate self el logs) g w logs' t w' →
  keys_kept logs logs' ∧ logs_sent t = [].
Proof.
  intros Hr. split.
  - apply evaluate_runs in Hr
      as (ps & outs & stacked & gathered & main & report & _ & _ & Hm).
    destruct main.
    + destruct Hm as (w1 & w2 & Hm).
      by eapply main_process_report_keeps.
    + destruct Hm as [_ ->]. unfold keys_kept. set_solver.
  - apply runs_tr in Hr as [<- _]. apply logs_sent_none.
    intros ev Hev%evaluate_emits. revert Hev. by destruct (ev_call ev).
Qed.

Lemma logs_sent_snoc t ev :
  logs_sent (t ++ [ev]) =
  logs_sent t ++ match logged ev with Some d => [d] | None => [] end.
Proof. rewrite logs_sent_app. by f_equal. Qed.

Lemma keys_within_mono logs logs' past :
  keys_kept logs logs' → keys_within logs past → keys_within logs' past.
Proof.
  intros Hk Hw. eapply Forall_impl; [exact Hw|].
  intros d Hd. unfold keys_kept in *. by etrans.
Qed.

Lemma event_not_logged logs past ev :
  is_log (ev_call ev) = false → keys_within logs past →
  log_keeps_keys past ev ∧ keys_within logs (past ++ [ev]).
Proof.
  intros Hl Hk.
  assert (logged ev = None) as Hn
    by (unfold logged; by destruct (ev_call ev)).
  split.
  - intros d. by rewrite Hn.
  - unfold keys_within. by rewrite logs_sent_snoc, Hn, app_nil_r.
Qed.

Lemma call_not_logged logs c :
  is_log c = false →
  triple log_keeps_keys (keys_within logs) (call c) (λ _, keys_within logs).
Proof.
  intros Hl. apply triple_call.
  - intros pre g r Hk. by apply (event_not_logged logs pre (Ev g c r)).
  - intros pre g a Hk. by apply (event_not_logged logs pre (Ev g c (inr a))).
Qed.

Lemma evaluate_keys_within self el logs :
  triple log_keeps_keys (keys_within logs) (evaluate self el logs)
    keys_within.
Proof.
  intros pre g w Hk. split.
  - eapply emits_safe; [apply evaluate_emits|].
    intros past ev Hev. unfold log_keeps_keys, logged. revert Hev.
    cbv beta. by destruct (ev_call ev).
  - intros logs' Hr. apply runs_intro, evaluate_keeps in Hr as [Hkeep Hs].
    unfold keys_within. rewrite logs_sent_app, Hs, app_nil_r.
    by apply (keys_within_mono logs).
Qed.

Lemma train_step_keys_within self el st batch :
  triple log_keeps_keys (keys_within st.2) (train_step self el st batch)
    (λ st', keys_within st'.2).
Proof.
  destruct st as [n logs]. unfold train_step. cbn [fst snd].
  eapply triple_bind; [apply triple_py_mod|]. intros r.
  apply triple_pure. intros _.
  eapply triple_bind with (R := keys_within).
  { destruct (decide (r = 0)); [apply evaluate_keys_within|].
    by apply triple_ret. }
  intros logs1.
  eapply triple_bind; [by apply call_not_logged|]. intros out.
  eapply triple_bind; [apply triple_py_mod|]. intros r1.
  apply triple_pure. intros _.
  eapply triple_bind with (R := keys_within).
  { destruct (decide (r1 = 0)); [|by apply triple_ret].
    eapply triple_bind with (R := λ _, keys_within (out.2 ∪ logs1));
      [|intros ?; by apply triple_ret].
    assert (keys_kept logs1 (out.2 ∪ logs1)) as Hgrow.
    { unfold keys_kept. rewrite dom_union. set_solver. }
    apply_triple_call.
    - intros pre g r0 Hk d [= <-]. by apply (keys_within_mono logs1).
    - intros pre g ? Hk. unfold keys_within. rewrite logs_sent_snoc. simpl.
      apply Forall_app. split; [by apply (keys_within_mono logs1)|].
      constructor; [by unfold keys_kept|constructor]. }
  intros logs2.
  eapply triple_bind; [by apply call_not_logged|]. intros ?.
  eapply triple_bind; [apply triple_getattr|]. intros o1.
  apply triple_pure. intros _.
  eapply triple_bind; [by apply call_not_logged|]. intros ?.
  eapply triple_bind; [apply triple_getattr|]. intros o2.
  apply triple_pure. intros _.
  eapply triple_bind; [by apply call_not_logged|]. intros ?.
  eapply triple_bind; [apply triple_getattr|]. intros s.
  apply triple_pure. intros _.
  eapply triple_bind; [by apply call_not_logged|]. intros ?.
  eapply triple_bind; [apply triple_py_mod|]. intros r2.
  apply triple_pure. intros _.
  eapply triple_bind with (R := λ _, keys_within logs2).
  { destruct (decide (r2 = 0)); [by apply call_not_logged|].
    by apply triple_ret. }
  intros ?. by apply triple_ret.
Qed.

Lemma epoch_loop_keys_within self tl el n epoch :
  triple log_keeps_keys (keys_within ∅) (epoch_loop self tl el n epoch)
    (λ _ _, True).
Proof.
  unfold epoch_loop.
  eapply triple_bind; [by apply call_not_logged|]. intros batches.
  eapply triple_bind with (R := λ _ _, True); [|intros ?; by apply triple_ret].
  eapply triple_conseq; [| |apply (triple_foldM _
    (λ st : Z * gmap string obj, keys_within st.2) _ batches (n, ∅))].
  - done.
  - done.
  - intros st batch. apply train_step_keys_within.
Qed.

Lemma safe_log_keeps_keys t :
  safe log_keeps_keys [] t → StronglySorted keys_kept (logs_sent t).
Proof.
  induction t as [|ev t IH] using rev_ind; intros Hs; [constructor|].
  rewrite logs_sent_snoc. apply StronglySorted_app. split; [|split].
  - intros d1 d2 Hd1 Hd2. pose proof (Hs t ev [] eq_refl) as Hev.
    simpl in Hev.
    destruct (logged ev) as [d|] eqn:E; [|by apply elem_of_nil in Hd2].
    apply list_elem_of_singleton in Hd2 as ->.
    specialize (Hev d E). rewrite Forall_forall in Hev. by apply Hev.
  - apply IH. intros t1 ev1 t2 ->. apply (Hs t1 ev1 (t2 ++ [ev])).
    by rewrite <- app_assoc.
  - destruct (logged ev); repeat constructor.
Qed.

(** X18. Within an epoch the dictionary [logs] only gains keys: of two
    dictionaries sent to the tracker in the same epoch, whether or not the
    epoch completes, the later one has every key of the earlier one. *)
Theorem epoch_logs_keep_keys self tl el n epoch g w :
  StronglySorted keys_kept (logs_sent (tr (epoch_loop self tl el n epoch g w))).
Proof.
  apply safe_log_keeps_keys.
  destruct (epoch_loop_keys_within self tl el n epoch [] g w) as [Hs _];
    [constructor|done].
Qed.

End LogsGrow.

Section ModuleConstants.
Context `{PT : PyTypes} `{EX : !Externals}.

(** X19. Importing the module fails only with [ValueError], when [WORLD_SIZE]
    or [LOCAL_RANK] is set to something that is not an integer.  With
    [WORLD_SIZE] unset the world size is 1, and then no constructor call
    waits at a barrier: one that returns has seeded the generator with
    1000 instead. *)
Theorem import_globals_outcomes :
  (∀ e, import_globals = inl e →
     e = ValueError ∧
     ∃ key s, (key = "WORLD_SIZE" ∨ key = "LOCAL_RANK") ∧
              environ !! key = Some s ∧ py_int s = None) ∧
  (∀ gl, import_globals = inr gl →
     environ !! "WORLD_SIZE" = None →
     WORLD_SIZE gl = 1 ∧
     ∀ hks cfg gpt tk mask tm g w,
       (∀ ev, ev ∈ tr (__init__ gl hks cfg gpt tk mask tm g w) →
          is_barrier (ev_call ev) = false) ∧
       (∀ self t w',
          runs (__init__ gl hks cfg gpt tk mask tm) g w self t w' →
          t !! 3%nat = Some (Ev g (manual_seed 1000) (inr ())))).
Proof.
  split.
  - intros e. unfold import_globals, env_int.
    destruct (environ !! "WORLD_SIZE") as [s|] eqn:Ews.
    + destruct (py_int s) eqn:Es.
      * destruct (environ !! "LOCAL_RANK") as [s'|] eqn:Elr; [|done].
        destruct (py_int s') eqn:Es'; [done|].
        intros [= <-]. split; [done|]. exists "LOCAL_RANK", s'. auto.
      * intros [= <-]. split; [done|]. exists "WORLD_SIZE", s. auto.
    + destruct (environ !! "LOCAL_RANK") as [s'|] eqn:Elr; [|done].
      destruct (py_int s') eqn:Es'; [done|].
      intros [= <-]. split; [done|]. exists "LOCAL_RANK", s'. auto.
  - intros gl Hgl Hws.
    assert (WORLD_SIZE gl = 1) as Hone.
    { revert Hgl. unfold import_globals, env_int. rewrite Hws.
      destruct (environ !! "LOCAL_RANK") as [s'|]; [|by intros [= <-]].
      destruct (py_int s'); [by intros [= <-]|done]. }
    split; [done|]. intros hks cfg gpt tk mask tm g w. split.
    + intros ev Hev.
      destruct (init_emits gl hks cfg gpt tk mask tm g w ev Hev) as [_ Hb].
      destruct (is_barrier (ev_call ev)); [|done].
      destruct (Hb I) as [Hlt _]. lia.
    + intros self t w' Hr.
      apply init_runs in Hr as (mdl & acc & main & Hr).
      assert (∃ rest, t = init_head gl cfg gpt g mdl acc main ++ rest)
        as [rest ->].
      { destruct tm.
        - destruct Hr as (params & o & ratio & s & _ & -> & _). eauto.
        - destruct Hr as [-> _]. exists []. by rewrite app_nil_r. }
      unfold init_head. rewrite Hone. by destruct (decide (1 < 1)).
Qed.

End ModuleConstants.


(** * The further properties on concrete runs *)
Module Checks.
Import Demo Cases.

(** The run in which call 230 raises ends with that call and its
    exception. *)
Lemma learn_raises_witness :
  (∃ t ev, tr failing_run = t ++ [ev] ∧
           Forall (λ ev, succeeded ev) t ∧
           failed ev = Some (LibraryError 230%nat)) ∨
  (@LibraryError demo_types 230%nat = ZeroDivisionError ∧
   (eval_interval (train (config plain)) = 0 ∨
    steps_for_target_q_sync (method (config plain)) = 0) ∧
   Forall (λ ev, succeeded ev) (tr failing_run)).
Proof.
  apply (@learn_raises demo_types failing_world plain true 200%nat
           (@LibraryError demo_types 230%nat)).
  - eexists. reflexivity.
  - eexists. reflexivity.
  - vm_compute. reflexivity.
Defined.

(** With [eval_interval] 0 the run is the set-up and one request for
    batches. *)
Lemma learn_zero_eval_interval_witness :
  (∀ ev, ev ∈ tr (learn never_evaluating true 200%nat) →
     is_setup_call (ev_call ev) || is_iterate (ev_call ev)) ∧
  (∀ t1 g' x b bs t2,
     tr (learn never_evaluating true 200%nat) =
       t1 ++ Ev g' (iterate x) (inr (b :: bs)) :: t2 →
     t2 = [] ∧
     res (learn never_evaluating true 200%nat) = inl ZeroDivisionError).
Proof.
  apply (@learn_zero_eval_interval _ demo_externals never_evaluating true
           200%nat).
  reflexivity.
Defined.

Example never_evaluating_run :
  tr (learn never_evaluating true 200%nat) !! 4%nat =
    Some (Ev true (iterate 201%nat) (inr [2011%nat; 2012%nat])) ∧
  length (tr (learn never_evaluating true 200%nat)) = 5%nat.
Proof. vm_compute. split; reflexivity. Qed.

(** With [steps_for_target_q_sync] 0 the run ends after its first
    optimizer step. *)
Lemma learn_zero_sync_interval_witness :
  opt_steps_of (tr (learn never_synchronising true 200%nat)) ≤ 1 ∧
  (∀ ev, ev ∈ tr (learn never_synchronising true 200%nat) →
     is_sync (ev_call ev) = false) ∧
  (is_Some (opt never_synchronising) →
   is_Some (scheduler never_synchronising) →
   opt_steps_of (tr (learn never_synchronising true 200%nat)) = 1 →
   just_after (returned is_sched_step)
     (tr (learn never_synchronising true 200%nat)) = true ∧
   res (learn never_synchronising true 200%nat) = inl ZeroDivisionError).
Proof.
  apply (@learn_zero_sync_interval _ demo_externals never_synchronising true
           200%nat).
  reflexivity.
Defined.

Example never_synchronising_run :
  opt_steps_of (tr (learn never_synchronising true 200%nat)) = 1 ∧
  res (learn never_synchronising true 200%nat) = inl ZeroDivisionError.
Proof. vm_compute. split; reflexivity. Qed.

(** With no epoch the run is the set-up. *)
Lemma learn_no_epochs_witness :
  (∀ ev, ev ∈ tr (learn without_epochs true 200%nat) →
     is_setup_call (ev_call ev)) ∧
  (length (tr (learn without_epochs true 200%nat)) ≤ 4)%nat ∧
  (∀ o, opt without_epochs = Some o →
     Forall (λ ev, succeeded ev) (tr (learn without_epochs true 200%nat)) →
     ∃ timer tl el p,
       tr (learn without_epochs true 200%nat) =
         setup_events without_epochs true timer tl el o p ∧
       res (learn without_epochs true 200%nat) =
         inr (prepared without_epochs p.1.1.1 p.1.1.2)).
Proof.
  apply (@learn_no_epochs _ demo_externals without_epochs true 200%nat).
  vm_compute. discriminate.
Defined.

(** The constructor run with [train_mode] false returns
    [eval_mode_self]. *)
Lemma eval_mode_init_runs :
  runs (__init__ demo_globals demo_hooks demo_config 6%nat None 7%nat false)
       true 100%nat eval_mode_self
       (tr (demo_init None None false)) (world (demo_init None None false)).
Proof. vm_compute. reflexivity. Defined.

Lemma init_eval_mode_witness :
  (∃ mdl acc main,
     tr (demo_init None None false) =
       init_head demo_globals demo_config 6%nat true mdl acc main) ∧
  train_mode eval_mode_self = false ∧ opt eval_mode_self = None ∧
  scheduler eval_mode_self = None.
Proof.
  exact (proj2 (@init_eval_mode _ demo_externals demo_globals demo_hooks
                  demo_config 6%nat None 7%nat true 100%nat)
           eval_mode_self _ _ eval_mode_init_runs).
Defined.

(** [learn] on that object stops before [accelerator.prepare]. *)
Lemma learn_needs_train_mode_witness :
  ∃ e, res (learn eval_mode_self true 200%nat) = inl e ∧
       (∀ ev, ev ∈ tr (learn eval_mode_self true 200%nat) →
          is_setup_call (ev_call ev) && negb (is_prepare (ev_call ev))) ∧
       (Forall (λ ev, succeeded ev) (tr (learn eval_mode_self true 200%nat)) →
        e = AttributeError "opt" ∧
        length (tr (learn eval_mode_self true 200%nat)) = 3%nat).
Proof.
  exact (@learn_needs_train_mode _ demo_externals demo_globals demo_hooks
           demo_config 6%nat None 7%nat true 100%nat eval_mode_self _ _
           eval_mode_init_runs true 200%nat).
Defined.

Example eval_mode_learn_run :
  res (learn eval_mode_self true 200%nat) = inl (AttributeError "opt").
Proof. vm_compute. reflexivity. Qed.

(** With an initial learning rate of 0 the constructor stops after
    building the optimizer. *)
Lemma init_zero_learning_rate_witness :
  ∃ e, res (__init__ demo_globals demo_hooks zero_rate_config 6%nat None
              7%nat true true 100%nat) = inl e ∧
       (∀ ev, ev ∈ tr (__init__ demo_globals demo_hooks zero_rate_config
                         6%nat None 7%nat true true 100%nat) →
          is_rampup_decay (ev_call ev) = false) ∧
       (Forall (λ ev, succeeded ev)
          (tr (__init__ demo_globals demo_hooks zero_rate_config 6%nat None
                 7%nat true true 100%nat)) →
        e = ZeroDivisionError ∧
        just_after (returned is_AdamW)
          (tr (__init__ demo_globals demo_hooks zero_rate_config 6%nat None
                 7%nat true true 100%nat)) = true).
Proof.
  apply (@init_zero_learning_rate _ demo_externals demo_globals demo_hooks
           zero_rate_config 6%nat None 7%nat true 100%nat).
  vm_compute. reflexivity.
Defined.

(** Event 8 of the run, a [model.sample], has gradients disabled. *)
Lemma learn_gradient_modes_witness :
  ∃ ev, run_trace !! 8%nat = Some ev ∧ is_sampling (ev_call ev) = true ∧
        ev_grad ev = if is_sampling (ev_call ev) then false else true.
Proof.
  eexists. split; [vm_compute; reflexivity|]. split; [reflexivity|].
  apply (@learn_gradient_modes _ demo_externals built true 200%nat).
  apply (list_elem_of_lookup_2 _ 8%nat). vm_compute. reflexivity.
Defined.

(** In the world where 20 texts are decoded, event 56 of the run is the
    table, with 16 rows, and event 57 prints. *)
Lemma learn_report_bounds_witness :
  ∃ table_ev print_ev rows s,
    tr wordy_run !! 56%nat = Some table_ev ∧
    ev_call table_ev = wandb_Table ["samples"; "reward"] rows ∧
    length rows = 16%nat ∧
    tr wordy_run !! 57%nat = Some print_ev ∧
    ev_call print_ev = print_str s ∧
    bounded_report built table_ev ∧
    reports_pairs (take 56 (tr wordy_run)) table_ev ∧
    reports_pairs (take 57 (tr wordy_run)) print_ev.
Proof.
  destruct (@learn_report_bounds demo_types wordy_world built true 200%nat)
    as [Hbound Hpairs].
  eexists _, _, _, _.
  split; [vm_compute; reflexivity|]. split; [reflexivity|].
  split; [vm_compute; reflexivity|].
  split; [vm_compute; reflexivity|]. split; [reflexivity|].
  split; [|split].
  - apply Hbound. apply (list_elem_of_lookup_2 _ 56%nat).
    vm_compute. reflexivity.
  - apply (Hpairs _ _ (drop 57 (tr wordy_run))). vm_compute. reflexivity.
  - apply (Hpairs _ _ (drop 58 (tr wordy_run))). vm_compute. reflexivity.
Defined.

(** The two calls before the table decoded 20 texts and listed 20
    rewards, and 10 entries are printed. *)
Example wordy_run_decodes :
  ∃ g1 g2 tk samples rewards s,
    tr wordy_run !! 54%nat =
      Some (Ev g1 (batch_decode tk samples true) (inr (replicate 20 "text"))) ∧
    tr wordy_run !! 55%nat =
      Some (Ev g2 (iterate rewards) (inr (seq 1 20))) ∧
    (ev_call <$> tr wordy_run !! 57%nat) = Some (print_str s) ∧
    s = String.concat newline (replicate 10 "[0.00] text").
Proof.
  eexists _, _, _, _, _, _.
  split; [vm_compute; reflexivity|]. split; [vm_compute; reflexivity|].
  split; vm_compute; reflexivity.
Qed.

(** The constructor run without a tokenizer returns [plain]. *)
Lemma plain_init_runs :
  runs (__init__ demo_globals demo_hooks demo_config 6%nat None 7%nat true)
       true 100%nat plain
       (tr (demo_init None None true)) (world (demo_init None None true)).
Proof. vm_compute. reflexivity. Defined.

Lemma tokenize_without_tokenizer_witness :
  tokenize plain ["a"; "b"] true 300%nat =
    mkOut (inl (AttributeError "bos_token")) [] 300%nat ∧
  tokenize plain [] true 300%nat = mkOut (inl TypeError) [] 300%nat.
Proof.
  split.
  - exact (@tokenize_without_tokenizer _ demo_externals demo_globals
             demo_hooks demo_config 6%nat 7%nat true true 100%nat plain _ _
             plain_init_runs ["a"; "b"] true 300%nat).
  - exact (@tokenize_without_tokenizer _ demo_externals demo_globals
             demo_hooks demo_config 6%nat 7%nat true true 100%nat plain _ _
             plain_init_runs [] true 300%nat).
Defined.



Example epoch_out_batches :
  loss_batches (tr epoch_out) = [2011%nat; 2012%nat].
Proof. vm_compute. reflexivity. Qed.



Example run_trace_batches :
  loss_batches run_trace = [2011; 2012; 2011; 2012]%nat ∧
  opt_steps_of run_trace = 4.
Proof. vm_compute. split; reflexivity. Qed.

(** Event 3 of the run is [accelerator.prepare]; the rest of the run works
    on what it answered. *)
Lemma learn_uses_prepared_witness :
  (∃ o tl el,
     opt built = Some o ∧
     ev_call prepare_event =
       accelerator_prepare (accelerator built) (model built) o tl el ∧
     length (take 3 run_trace) = 3%nat) ∧
  (∀ ev', ev' ∈ drop 4 run_trace → on_prepared built prepare_answered ev') ∧
  (∀ self', res (learn built true 200%nat) = inr self' →
     self' = prepared built prepare_answered.1.1.1 prepare_answered.1.1.2).
Proof.
  apply (@learn_uses_prepared demo_types demo_externals built true 200%nat
           (take 3 run_trace) prepare_event (drop 4 run_trace)
           prepare_answered).
  - vm_compute. reflexivity.
  - reflexivity.
Defined.

(** Event 25 of the run is [backward] on the loss that event 23
    answered. *)
Lemma learn_backward_on_loss_witness :
  ∃ ev, run_trace !! 25%nat = Some ev ∧ is_backward (ev_call ev) ∧
        backward_on_loss built (take 25 run_trace) ev.
Proof.
  eexists. split; [vm_compute; reflexivity|]. split; [exact I|].
  apply (@learn_backward_on_loss _ demo_externals built true 200%nat
           (take 25 run_trace) _ (drop 26 run_trace)).
  vm_compute. reflexivity.
Defined.

Example backward_after_first_loss :
  ∃ ev, run_trace !! 25%nat = Some ev ∧ is_backward (ev_call ev) ∧
        (∀ a l, ev_call ev = accelerator_backward a l →
           last_loss (take 25 run_trace) = Some l).
Proof.
  eexists. split; [vm_compute; reflexivity|]. split; [exact I|].
  intros a l [= <- <-]. vm_compute. reflexivity.
Qed.

(** The run makes four optimizer steps: two passes (before the steps 0
    and 3) and two synchronisations (after the steps 2 and 4). *)
Lemma learn_pass_count_witness :
  Z.of_nat (count_returned is_model_eval run_trace) =
  (opt_steps_of run_trace + 3 - 1) / 3.
Proof.
  apply (@learn_pass_count _ demo_externals built built true 200%nat).
  - reflexivity.
  - vm_compute. reflexivity.
Defined.

Lemma learn_sync_count_witness :
  Z.of_nat (count_returned is_sync run_trace) = opt_steps_of run_trace / 2.
Proof.
  apply (@learn_sync_count _ demo_externals built built true 200%nat).
  - reflexivity.
  - vm_compute. reflexivity.
Defined.

Example run_trace_counts :
  count_returned is_model_eval run_trace = 2%nat ∧
  count_returned is_sync run_trace = 2%nat.
Proof. vm_compute. split; reflexivity. Qed.

(** In the pass that fails at its second [model.sample], [model.eval()]
    has returned and [model.train()] has not. *)
Lemma failed_pass_stays_in_eval_mode_witness :
  ∃ ev, tr failing_pass !! 0%nat = Some ev ∧
        returned is_model_eval ev = true ∧
        returned is_model_train ev = false.
Proof.
  eexists. split; [vm_compute; reflexivity|]. split; [reflexivity|].
  apply (@failed_pass_stays_in_eval_mode demo_types
           (demo_world (Some 305%nat)) built 202%nat ∅ true 300%nat
           (@LibraryError demo_types 305%nat)).
  - vm_compute. reflexivity.
  - apply (list_elem_of_lookup_2 _ 0%nat). vm_compute. reflexivity.
Defined.

Example failing_pass_mode :
  mode_of (tr failing_pass) = Some false ∧ length (tr failing_pass) = 6%nat.
Proof. vm_compute. split; reflexivity. Qed.

(** The epoch [epoch_twice] sends two dictionaries; the second has the
    keys of the first. *)
Lemma epoch_logs_keep_keys_witness :
  ∃ d1 d2, logs_sent (tr epoch_twice) = [d1; d2] ∧ keys_kept d1 d2.
Proof.
  pose proof (@epoch_logs_keep_keys _ demo_externals often_evaluating
                201%nat 202%nat 0 0 true 300%nat
              : StronglySorted keys_kept (logs_sent (tr epoch_twice)))
    as Hsorted.
  assert (∃ d1 d2, logs_sent (tr epoch_twice) = [d1; d2]) as (d1 & d2 & E)
    by (eexists _, _; vm_compute; reflexivity).
  exists d1, d2. split; [exact E|].
  rewrite E in Hsorted.
  apply StronglySorted_inv in Hsorted as [_ Hall].
  exact (Forall_inv Hall).
Defined.

Example epoch_twice_keys :
  (λ d : gmap string obj, (d !! "kl", d !! "loss", d !! "reward"))
    <$> logs_sent (tr epoch_twice) =
  [(Some 313, Some 316, Some 312); (Some 334, Some 337, Some 333)]%nat.
Proof. vm_compute. reflexivity. Qed.

(** With an empty environment the module constants are 1 and 0, and the
    constructor waits at no barrier. *)
Lemma bare_import :
  @import_globals demo_types bare_world = inr single_process.
Proof. vm_compute. reflexivity. Defined.

Lemma import_globals_outcomes_witness :
  WORLD_SIZE single_process = 1 ∧
  ∀ ev,
    ev ∈ tr (@__init__ demo_types bare_world single_process demo_hooks
               demo_config 6%nat None 7%nat true true 100%nat) →
    is_barrier (ev_call ev) = false.
Proof.
  destruct (proj2 (@import_globals_outcomes demo_types bare_world)
              single_process bare_import eq_refl) as [Hone Hall].
  split; [exact Hone|].
  exact (proj1 (Hall demo_hooks demo_config 6%nat None 7%nat true true
                  100%nat)).
Defined.

(** With [WORLD_SIZE] set to a word, importing the module fails. *)
Example odd_import : @import_globals demo_types odd_world = inl ValueError.
Proof. vm_compute. reflexivity. Qed.

End Checks.
